(** * Arke: the chat page (frontend/src/app/page.tsx) and the query cache

    The development embeds the event handlers of the [Home] component
    ([generateUUID], [fetchThreads], [createThread], [handleSubmit],
    [handleNewChat]) as state-passing functions over the component's React
    state, with the browser (network, clock, random source, console) as an
    explicit world, and proves the properties the specification states about
    them.  A handler is first described run on its own; [handleSubmit], which
    is suspended while its request and its reads are awaited, is then
    described among the steps that other handlers take during these waits
    ([handleSubmit_among]).  The query cache and the vector index live in the
    Python backend; their model follows the specification text. *)

From Stdlib Require Import ZArith QArith Qround Lia String Ascii Sorted.
From stdpp Require Import base list gmap.

Close Scope Q_scope.
Open Scope Z_scope.

(** ** JavaScript values used by the page *)

Module JS.

(** A JavaScript string is a sequence of UTF-16 code units. *)
Abbreviation jsstring := (list N).

(** String literals of the source, written as Rocq strings. *)
Fixpoint lit (s : string) : jsstring :=
  match s with
  | EmptyString => []
  | String a r => N_of_ascii a :: lit r
  end.

(** The code units [String.prototype.trim] strips: WhiteSpace and
    LineTerminator of ECMAScript. *)
Definition is_white (c : N) : bool :=
  ((9 <=? c) && (c <=? 13))%N
  || (c =? 32)%N || (c =? 160)%N || (c =? 5760)%N
  || ((8192 <=? c) && (c <=? 8202))%N
  || (c =? 8232)%N || (c =? 8233)%N || (c =? 8239)%N || (c =? 8287)%N
  || (c =? 12288)%N || (c =? 65279)%N.

Fixpoint trimStart (s : jsstring) : jsstring :=
  match s with
  | c :: r => if is_white c then trimStart r else s
  | [] => []
  end.

Definition trimEnd (s : jsstring) : jsstring := rev (trimStart (rev s)).

Definition trim (s : jsstring) : jsstring := trimEnd (trimStart s).

(** A string is truthy when it is not empty. *)
Definition truthy (s : jsstring) : bool :=
  match s with [] => false | _ => true end.

(** [blank s]: every code unit of [s] is white space (so [!s.trim()]). *)
Definition blank (s : jsstring) : Prop := Forall (fun c => is_white c = true) s.

(** ToInt32 on a (finite) number: truncate toward zero, wrap modulo 2^32
    into the signed range.  This is what [x | 0] computes. *)
Definition truncate (q : Q) : Z :=
  if (0 <=? Qnum q) then Qfloor q else Qceiling q.

Definition wrap32 (z : Z) : Z := (z + 2 ^ 31) mod 2 ^ 32 - 2 ^ 31.

Definition ToInt32 (q : Q) : Z := wrap32 (truncate q).

(** [a & b] and [a | b] on int32 values. *)
Definition bitand (a b : Z) : Z := wrap32 (Z.land a b).
Definition bitor (a b : Z) : Z := wrap32 (Z.lor a b).

(** [Number.prototype.toString(16)] on an integer: lowercase digits, a
    leading minus sign for negatives. *)
Definition hexdigit (d : Z) : N :=
  if d <? 10 then Z.to_N (48 + d) else Z.to_N (87 + d).

Fixpoint hexdigits (fuel : nat) (n : Z) (acc : jsstring) : jsstring :=
  match fuel with
  | O => acc
  | S fuel' =>
      let acc' := hexdigit (n mod 16) :: acc in
      if n / 16 =? 0 then acc' else hexdigits fuel' (n / 16) acc'
  end.

Definition toString16 (n : Z) : jsstring :=
  if n <? 0 then 45%N :: hexdigits (S (Z.to_nat (Z.log2 (- n)))) (- n) []
  else hexdigits (S (Z.to_nat (Z.log2 n))) n [].

End JS.

Import JS.

(** ** The page: data, world and React state *)

Module Page.

Record Thread := {
  id : jsstring;
  title : jsstring;
  created_at : Z;
  updated_at : Z;
  message_count : Z;
}.

Inductive Role := user | assistant.

Record Message := {
  role : Role;
  content : jsstring;
  responseTime : option Z;
}.

#[global] Instance Role_eq_dec : EqDecision Role.
Proof. solve_decision. Defined.

#[global] Instance Thread_eq_dec : EqDecision Thread.
Proof. solve_decision. Defined.

#[global] Instance Message_eq_dec : EqDecision Message.
Proof. solve_decision. Defined.

(** The requests the page sends to http://localhost:8000. *)
Inductive request :=
| GetThreads                                   (* GET /threads *)
| PostThreads (title : option jsstring)        (* POST /threads {title} *)
| DeleteThread (id : jsstring)                 (* DELETE /threads/{id} *)
| PostChat (message thread_id : jsstring).     (* POST /chat {message, thread_id} *)

(** What [await fetch(...)] gives: the promise rejects, or it resolves to a
    response with its [ok] flag and its content. *)
Inductive fetch_result (A : Type) :=
| Rejected (detail : jsstring)
| Resolved (ok : bool) (payload : A).
Arguments Rejected {A} detail.
Arguments Resolved {A} ok payload.

(** [await response.json()]: a parse error or the decoded value. *)
Inductive json (A : Type) :=
| JsonError (detail : jsstring)
| JsonValue (v : A).
Arguments JsonError {A} detail.
Arguments JsonValue {A} v.

(** A response body read through [getReader()]: the decoded text of each
    chunk in arrival order, then either [done] or a rejected [read()]. *)
Inductive stream_end := StreamDone | StreamError (detail : jsstring).

Record body_stream := {
  fragments : list jsstring;
  ending : stream_end;
}.

(** Everything the page observes of its environment.  Each network oracle
    sees the requests issued so far, the current one last. *)
Record world := {
  random : nat -> Q;                  (* successive values of Math.random() *)
  now : nat -> Z;                     (* successive values of Date.now() *)
  chat : list request -> fetch_result (option body_stream);
  post_threads : list request -> fetch_result (json Thread);
  delete_thread : list request -> fetch_result unit;
  get_threads : list request -> fetch_result (json (list Thread));
}.

(** What the page does that can be observed from outside, in order. *)
Inductive event :=
| EvFetch (r : request)
| EvRead (chunk : option jsstring)     (* read() resolved: a fragment, or done *)
| EvReadError (detail : jsstring)
| EvMessages (ms : list Message)       (* value of [messages] after a setMessages *)
| EvThreads (ts : list Thread)         (* value of [threads] after a setThreads *)
| EvConsole (label detail : jsstring). (* console.error(label, error) *)

(** The React state of [Home] that the handlers touch, and the bookkeeping of
    the interaction with the world. *)
Record state := {
  messages : list Message;
  input : jsstring;
  isLoading : bool;
  chatStarted : bool;
  threadId : jsstring;
  threads : list Thread;
  isLoadingThreads : bool;
  trace : list event;      (* events so far, oldest first *)
  draws : nat;             (* calls of Math.random() so far *)
  ticks : nat;             (* calls of Date.now() so far *)
}.

Definition requests_of (tr : list event) : list request :=
  omap (fun e => match e with EvFetch r => Some r | _ => None end) tr.

Definition log (e : event) (s : state) : state :=
  {| messages := messages s; input := input s; isLoading := isLoading s;
     chatStarted := chatStarted s; threadId := threadId s; threads := threads s;
     isLoadingThreads := isLoadingThreads s; trace := trace s ++ [e];
     draws := draws s; ticks := ticks s |}.

Definition setMessages (f : list Message -> list Message) (s : state) : state :=
  let ms := f (messages s) in
  log (EvMessages ms)
  {| messages := ms; input := input s; isLoading := isLoading s;
     chatStarted := chatStarted s; threadId := threadId s; threads := threads s;
     isLoadingThreads := isLoadingThreads s; trace := trace s;
     draws := draws s; ticks := ticks s |}.

Definition setThreads (f : list Thread -> list Thread) (s : state) : state :=
  let ts := f (threads s) in
  log (EvThreads ts)
  {| messages := messages s; input := input s; isLoading := isLoading s;
     chatStarted := chatStarted s; threadId := threadId s; threads := ts;
     isLoadingThreads := isLoadingThreads s; trace := trace s;
     draws := draws s; ticks := ticks s |}.

Definition setInput (v : jsstring) (s : state) : state :=
  {| messages := messages s; input := v; isLoading := isLoading s;
     chatStarted := chatStarted s; threadId := threadId s; threads := threads s;
     isLoadingThreads := isLoadingThreads s; trace := trace s;
     draws := draws s; ticks := ticks s |}.

Definition setIsLoading (v : bool) (s : state) : state :=
  {| messages := messages s; input := input s; isLoading := v;
     chatStarted := chatStarted s; threadId := threadId s; threads := threads s;
     isLoadingThreads := isLoadingThreads s; trace := trace s;
     draws := draws s; ticks := ticks s |}.

Definition setChatStarted (v : bool) (s : state) : state :=
  {| messages := messages s; input := input s; isLoading := isLoading s;
     chatStarted := v; threadId := threadId s; threads := threads s;
     isLoadingThreads := isLoadingThreads s; trace := trace s;
     draws := draws s; ticks := ticks s |}.

Definition setThreadId (v : jsstring) (s : state) : state :=
  {| messages := messages s; input := input s; isLoading := isLoading s;
     chatStarted := chatStarted s; threadId := v; threads := threads s;
     isLoadingThreads := isLoadingThreads s; trace := trace s;
     draws := draws s; ticks := ticks s |}.

Definition setIsLoadingThreads (v : bool) (s : state) : state :=
  {| messages := messages s; input := input s; isLoading := isLoading s;
     chatStarted := chatStarted s; threadId := threadId s; threads := threads s;
     isLoadingThreads := v; trace := trace s;
     draws := draws s; ticks := ticks s |}.

Definition console_error (label detail : jsstring) (s : state) : state :=
  log (EvConsole label detail) s.

Definition Math_random (w : world) (s : state) : Q * state :=
  (random w (draws s),
   {| messages := messages s; input := input s; isLoading := isLoading s;
      chatStarted := chatStarted s; threadId := threadId s; threads := threads s;
      isLoadingThreads := isLoadingThreads s; trace := trace s;
      draws := S (draws s); ticks := ticks s |}).

Definition Date_now (w : world) (s : state) : Z * state :=
  (now w (ticks s),
   {| messages := messages s; input := input s; isLoading := isLoading s;
      chatStarted := chatStarted s; threadId := threadId s; threads := threads s;
      isLoadingThreads := isLoadingThreads s; trace := trace s;
      draws := draws s; ticks := S (ticks s) |}).

(** [fetch]: the request is issued, then the world answers. *)
Definition fetch {A} (oracle : list request -> fetch_result A) (r : request)
    (s : state) : fetch_result A * state :=
  let s' := log (EvFetch r) s in
  (oracle (requests_of (trace s')), s').

(** ** generateUUID *)

(** The callback of [replace(/[xy]/g, ...)]: one random draw per matched
    character [c]. *)
Definition uuid_char (w : world) (c : N) (s : state) : jsstring * state :=
  let '(x, s) := Math_random w s in
  let r := ToInt32 (x * 16)%Q in
  let v := if (c =? 120)%N then r else bitor (bitand r 3) 8 in
  (toString16 v, s).

(** [template.replace(/[xy]/g, callback)], left to right. *)
Fixpoint replace_xy (w : world) (template : jsstring) (s : state)
    : jsstring * state :=
  match template with
  | [] => ([], s)
  | c :: rest =>
      if ((c =? 120) || (c =? 121))%N then
        let '(d, s) := uuid_char w c s in
        let '(out, s) := replace_xy w rest s in
        (d ++ out, s)
      else
        let '(out, s) := replace_xy w rest s in
        (c :: out, s)
  end.

Definition uuid_template : jsstring := lit "xxxxxxxx-xxxx-4xxx-yxxx-xxxxxxxxxxxx".

Definition generateUUID (w : world) (s : state) : jsstring * state :=
  replace_xy w uuid_template s.

(** ** fetchThreads and createThread *)

Definition fetchThreads (w : world) (s : state) : state :=
  let s := setIsLoadingThreads true s in
  let '(res, s) := fetch (get_threads w) GetThreads s in
  let s :=
    match res with
    | Rejected err => console_error (lit "Failed to fetch threads:") err s
    | Resolved true (JsonValue data) => setThreads (fun _ => data) s
    | Resolved true (JsonError err) =>
        console_error (lit "Failed to fetch threads:") err s
    | Resolved false _ => s
    end in
  setIsLoadingThreads false s.

Definition createThread (w : world) (title : option jsstring) (s : state)
    : jsstring * state :=
  let '(res, s) := fetch (post_threads w) (PostThreads title) s in
  match res with
  | Resolved true (JsonValue thread) =>
      (id thread, setThreads (fun prev => thread :: prev) s)
  | Resolved true (JsonError err) =>
      generateUUID w (console_error (lit "Failed to create thread:") err s)
  | Rejected err =>
      generateUUID w (console_error (lit "Failed to create thread:") err s)
  | Resolved false _ => generateUUID w s
  end.

(** ** handleSubmit *)

Definition error_text : jsstring :=
  lit "Sorry, there was an error processing your message.".

(** [prev.map((msg, i) => i === prev.length - 1 && msg.role === 'assistant'
      ? patch(msg) : msg)] *)
Definition map_last_assistant (patch : Message -> Message)
    (prev : list Message) : list Message :=
  imap (fun i msg =>
          if (Z.of_nat i =? Z.of_nat (length prev) - 1)
             && bool_decide (role msg = assistant)
          then patch msg else msg) prev.

Definition with_content (c : jsstring) (msg : Message) : Message :=
  {| role := role msg; content := c; responseTime := responseTime msg |}.

Definition with_responseTime (t : Z) (msg : Message) : Message :=
  {| role := role msg; content := content msg; responseTime := Some t |}.

(** The [while (true)] loop over [reader.read()], when no other handler takes
    a step while a read is awaited ([read_loop_among] below is the loop among
    other handlers).  The result is [None] when the loop leaves through
    [break], [Some err] when [read()] rejects. *)
Fixpoint read_loop (chunks : list jsstring) (fin : stream_end)
    (accumulated : jsstring) (assistantMessageAdded : bool) (s : state)
    : option jsstring * state :=
  match chunks with
  | [] =>
      match fin with
      | StreamDone => (None, log (EvRead None) s)
      | StreamError err => (Some err, log (EvReadError err) s)
      end
  | value :: rest =>
      let s := log (EvRead (Some value)) s in
      let accumulated := accumulated ++ value in
      if negb assistantMessageAdded && truthy (trim accumulated) then
        read_loop rest fin accumulated true
          (setMessages
             (fun prev => prev ++ [{| role := assistant; content := accumulated;
                                      responseTime := None |}]) s)
      else if assistantMessageAdded then
        read_loop rest fin accumulated assistantMessageAdded
          (setMessages (map_last_assistant (with_content accumulated)) s)
      else
        read_loop rest fin accumulated assistantMessageAdded s
  end.

(** The [catch] block. *)
Definition submit_catch (w : world) (startTime : Z) (error : jsstring)
    (s : state) : state :=
  let s := console_error (lit "Error:") error s in
  let '(t, s) := Date_now w s in
  let responseTime := t - startTime in
  setMessages
    (fun prev => prev ++ [{| role := assistant; content := error_text;
                             responseTime := Some responseTime |}]) s.

(** The [try] block, with its [catch], when no other handler takes a step
    during its waits ([submit_try_among] below lifts this). *)
Definition submit_try (w : world) (message thread_id : jsstring)
    (startTime : Z) (s : state) : state :=
  let '(res, s) := fetch (chat w) (PostChat message thread_id) s in
  match res with
  | Rejected err => submit_catch w startTime err s
  | Resolved ok body =>
      let '(t, s) := Date_now w s in
      let finalResponseTime := t - startTime in
      if negb ok then submit_catch w startTime (lit "Failed to get response") s
      else
        match body with
        | None => submit_catch w startTime (lit "No response body") s
        | Some reader =>
            match read_loop (fragments reader) (ending reader) [] false s with
            | (Some err, s) => submit_catch w startTime err s
            | (None, s) =>
                let s :=
                  setMessages
                    (map_last_assistant (with_responseTime finalResponseTime)) s in
                (* the call is not awaited; it cannot throw *)
                fetchThreads w s
            end
        end
  end.

(** [handleSubmit], run against the render whose values are the current
    state: [input], [isLoading] and [threadId] are read when the handler
    starts.  This is the handler on its own: no other handler takes a step
    while it is suspended ([handleSubmit_among] below is the general run). *)
Definition handleSubmit (w : world) (s : state) : state :=
  let input0 := input s in
  let threadId0 := threadId s in
  if negb (truthy (trim input0)) || isLoading s then s
  else
    let userMessage := {| role := user; content := input0; responseTime := None |} in
    let s := setMessages (fun prev => prev ++ [userMessage]) s in
    let s := setChatStarted true s in
    let s := setInput [] s in
    let s := setIsLoading true s in
    let '(startTime, s) := Date_now w s in
    let s := submit_try w input0 threadId0 startTime s in
    setIsLoading false s.

(** ** handleNewChat *)

(** One turn of the [for ... of] loop: the DELETE request, whose failure is
    only logged. *)
Definition delete_empty (w : world) (s : state) (thread : Thread) : state :=
  let '(res, s) := fetch (delete_thread w) (DeleteThread (id thread)) s in
  match res with
  | Rejected err =>
      console_error
        (lit "Failed to delete empty thread " ++ id thread ++ lit ":") err s
  | Resolved _ _ => s
  end.

(** The first half of [handleNewChat]: delete all threads with 0 messages,
    then remove them from the local state. *)
Definition delete_empty_threads (w : world) (s : state) : state :=
  let emptyThreads := filter (fun t => message_count t = 0) (threads s) in
  let s := foldl (delete_empty w) s emptyThreads in
  if (0 <? Z.of_nat (length emptyThreads)) then
    let emptyThreadIds : gset jsstring := list_to_set (id <$> emptyThreads) in
    setThreads (fun prev => filter (fun t => id t ∉ emptyThreadIds) prev) s
  else s.

(** [handleNewChat], run against the render whose [threads] is the current
    state. *)
Definition handleNewChat (w : world) (s : state) : state :=
  let s := delete_empty_threads w s in
  let '(newThreadId, s) := createThread w None s in
  let s := setMessages (fun _ => []) s in
  let s := setInput [] s in
  let s := setIsLoading false s in
  let s := setChatStarted false s in
  setThreadId newThreadId s.

(** ** Rendering of the message list *)

(** What [{message.responseTime && message.role === 'assistant' && (...)}]
    leaves in the bubble: nothing, the bare number 0 that React prints for a
    zero response time, or the response-time line. *)
Inductive footer_view :=
| NoFooter
| BareZero
| ResponseTimeLine (ms : Z).

(** One chat bubble of the JSX: its React key, the side it is aligned to
    (right for the user), the text handed to the markdown component, and
    what follows the text. *)
Record bubble := {
  key : nat;
  right_side : bool;
  text : jsstring;
  footer : footer_view;
}.

Definition render_message (index : nat) (message : Message) : bubble :=
  {| key := index;
     right_side := bool_decide (role message = user);
     text := content message;
     footer := match responseTime message with
               | None => NoFooter
               | Some t =>
                   if t =? 0 then BareZero
                   else if bool_decide (role message = assistant)
                        then ResponseTimeLine t else NoFooter
               end |}.

(** [messages.map((message, index) => ...)] *)
Definition render_messages (ms : list Message) : list bubble :=
  imap render_message ms.

End Page.

(** ** The query cache and the vector index (backend) *)

Module Backend.

Abbreviation text := (list N).

(** Modelled from the spec: the index entry of section 3.  What is missing
    from the sources is the whole Python backend (vector index, query cache,
    orchestrator); the entry is reduced to its identity, the vector and the
    metadata playing no part in versioning. *)
Record IndexEntry := {
  chunk_fingerprint : N;
  source_path : text;
  sequence_index : N;
}.

(** Modelled from the spec: the vector index (section 4.2) with its version
    counter, "a monotonically increasing integer". *)
Record VectorIndex := {
  entries : list IndexEntry;
  version : N;
}.

(** Modelled from the spec: the index holds nothing before any ingestion. *)
Definition empty_index : VectorIndex := {| entries := []; version := 0 |}.

(** Modelled from the spec: [upsert] of section 4.2; a chunk already indexed
    under the same fingerprint is replaced; the call increments the version. *)
Definition upsert (batch : list IndexEntry) (ix : VectorIndex) : VectorIndex :=
  {| entries :=
       filter (fun e => chunk_fingerprint e ∉ (chunk_fingerprint <$> batch))
              (entries ix) ++ batch;
     version := version ix + 1 |}.

(** Modelled from the spec: [delete(source_path)] of section 4.2; the call
    increments the version. *)
Definition delete (path : text) (ix : VectorIndex) : VectorIndex :=
  {| entries := filter (fun e => source_path e ≠ path) (entries ix);
     version := version ix + 1 |}.

(** Modelled from the spec: [flush] of section 4.2; the call increments the
    version. *)
Definition flush (ix : VectorIndex) : VectorIndex :=
  {| entries := []; version := version ix + 1 |}.

(** Modelled from the spec: [search] of section 4.2 is read-only and never
    changes the version; ranking plays no part here and is left out. *)
Definition search (ix : VectorIndex) : list IndexEntry * VectorIndex :=
  (entries ix, ix).

(** Modelled from the spec: the query cache entry of section 3. *)
Record QueryCacheEntry := {
  normalized_query_hash : N;
  corpus_version : N;
  answer : text;
  retrieved_chunk_ids : list N;
  created_at : Z;
  ttl : Z;
}.

(** Modelled from the spec: query normalization of section 4.3 (trimming,
    case-folding, whitespace collapse). *)
Definition fold_case (c : N) : N :=
  if ((65 <=? c) && (c <=? 90))%N then (c + 32)%N else c.

(** Modelled from the spec: whitespace collapse, every run of white space
    becoming one space. *)
Fixpoint collapse (s : text) : text :=
  match s with
  | c :: r =>
      if is_white c then
        match r with
        | d :: _ => if is_white d then collapse r else 32%N :: collapse r
        | [] => [32%N]
        end
      else c :: collapse r
  | [] => []
  end.

(** Modelled from the spec: normalization is trimming, then case-folding,
    then whitespace collapse. *)
Definition normalize (q : text) : text := collapse (fold_case <$> trim q).

Section WithHash.

(** The fingerprint function on normalized queries. *)
Variable hash : text -> N.

(** Modelled from the spec: the query cache of section 4.3, a map from
    (normalized query hash, corpus version) to the entry; [get] treats an
    expired entry as absent. *)
Definition put (query : text) (v : N) (ans : text) (chunk_ids : list N)
    (ttl0 now : Z) (c : gmap (N * N) QueryCacheEntry)
    : gmap (N * N) QueryCacheEntry :=
  let h := hash (normalize query) in
  <[ (h, v) := {| normalized_query_hash := h; corpus_version := v;
                  answer := ans; retrieved_chunk_ids := chunk_ids;
                  created_at := now; ttl := ttl0 |} ]> c.

(** Modelled from the spec: [get(query, corpus_version)] of section 4.3; an
    entry whose [ttl] has elapsed is treated as absent. *)
Definition get (query : text) (v : N) (now : Z)
    (c : gmap (N * N) QueryCacheEntry) : option QueryCacheEntry :=
  match c !! (hash (normalize query), v) with
  | Some e => if now <? created_at e + ttl e then Some e else None
  | None => None
  end.

(** Modelled from the spec: the stores the orchestrator and the ingestion
    pipeline share, and the calls that reach them (sections 4.4 and 4.5). *)
Record system := {
  index : VectorIndex;
  cache : gmap (N * N) QueryCacheEntry;
}.

(** Modelled from the spec: the query cache is empty on every cold start. *)
Definition boot : system := {| index := empty_index; cache := ∅ |}.

(** Modelled from the spec: the calls that reach the stores: an ingestion
    (one upsert batch), a document deletion, a flush, and a query together
    with what the generation step produces for it ([None] when retrieval or
    generation fails). *)
Inductive call :=
| Ingest (batch : list IndexEntry)     (* one ingestion call: one upsert *)
| DeleteDocument (path : text)
| FlushIndex
| Query (q : text) (now : Z) (generated : option (text * list N)) (ttl0 : Z).

(** Modelled from the spec: CACHE_LOOKUP of section 4.5 reads the index
    version, then asks the cache. *)
Definition cache_lookup (q : text) (now : Z) (sys : system)
    : option QueryCacheEntry :=
  get q (version (index sys)) now (cache sys).

(** Modelled from the spec: a query of section 4.5 returns the cached answer
    on a hit; otherwise the generated answer, written back under the version
    read at lookup, or a failure with no cache write. *)
Definition answer_query (q : text) (now : Z) (generated : option (text * list N))
    (ttl0 : Z) (sys : system) : option text * system :=
  let v := version (index sys) in
  match get q v now (cache sys) with
  | Some e => (Some (answer e), sys)
  | None =>
      match generated with
      | Some (ans, ids) =>
          (Some ans,
           {| index := index sys; cache := put q v ans ids ttl0 now (cache sys) |})
      | None => (None, sys)
      end
  end.

(** Modelled from the spec: the effect of one call on the stores. *)
Definition step (sys : system) (c : call) : system :=
  match c with
  | Ingest batch => {| index := upsert batch (index sys); cache := cache sys |}
  | DeleteDocument path => {| index := delete path (index sys); cache := cache sys |}
  | FlushIndex => {| index := flush (index sys); cache := cache sys |}
  | Query q now generated ttl0 => (answer_query q now generated ttl0 sys).2
  end.

(** Modelled from the spec: calls are served one after the other. *)
Definition run (sys : system) (calls : list call) : system := foldl step sys calls.

(** Modelled from the spec: the calls that change the corpus. *)
Definition mutates (c : call) : bool :=
  match c with
  | Ingest _ | DeleteDocument _ | FlushIndex => true
  | Query _ _ _ _ => false
  end.

End WithHash.

(** Every entry is filed under the version it was computed against, and no
    entry is ahead of the index. *)
Definition cache_consistent (sys : system) : Prop :=
  forall h v e,
    cache sys !! (h, v) = Some e ->
    corpus_version e = v /\ (v <= version (index sys))%N.

End Backend.

Import Page.

(** ** Sample worlds and states, used to run the handlers *)

Module Samples.

Definition quiet_world : world :=
  {| random := fun n => (Z.of_nat (n mod 7) # 7)%Q;
     now := fun n => 1000 + 250 * Z.of_nat n;
     chat := fun _ =>
       Resolved true
         (Some {| fragments := [lit " "; lit "Ath"; lit "ens"]; ending := StreamDone |});
     post_threads := fun _ => Rejected (lit "TypeError: Failed to fetch");
     delete_thread := fun _ => Resolved true ();
     get_threads := fun _ => Resolved false (JsonError []) |}.

Definition fresh : state :=
  {| messages := []; input := lit "capital of Greece?"; isLoading := false;
     chatStarted := false; threadId := lit "t-1"; threads := [];
     isLoadingThreads := false; trace := []; draws := 0; ticks := 0 |}.

Definition spaces : state :=
  {| messages := []; input := lit "   "; isLoading := false;
     chatStarted := false; threadId := lit "t-1"; threads := [];
     isLoadingThreads := false; trace := []; draws := 0; ticks := 0 |}.

Definition busy : state :=
  {| messages := [{| role := user; content := lit "first"; responseTime := None |}];
     input := lit "second"; isLoading := true;
     chatStarted := true; threadId := lit "t-1"; threads := [];
     isLoadingThreads := false; trace := []; draws := 0; ticks := 0 |}.

(** The backend cannot be reached. *)
Definition offline_world : world :=
  {| random := fun n => (Z.of_nat (n mod 7) # 7)%Q;
     now := fun n => 1000 + 250 * Z.of_nat n;
     chat := fun _ => Rejected (lit "TypeError: Failed to fetch");
     post_threads := fun _ => Rejected (lit "TypeError: Failed to fetch");
     delete_thread := fun _ => Rejected (lit "TypeError: Failed to fetch");
     get_threads := fun _ => Rejected (lit "TypeError: Failed to fetch") |}.

(** The chat endpoint answers with white space only. *)
Definition silent_world : world :=
  {| random := fun n => (Z.of_nat (n mod 7) # 7)%Q;
     now := fun n => 1000 + 250 * Z.of_nat n;
     chat := fun _ =>
       Resolved true
         (Some {| fragments := [lit " "; []; lit "  "]; ending := StreamDone |});
     post_threads := fun _ => Rejected (lit "TypeError: Failed to fetch");
     delete_thread := fun _ => Resolved true ();
     get_threads := fun _ => Resolved false (JsonError []) |}.

(** A thread as the server lists it. *)
Definition thread_row (i : string) (updated mc : Z) : Thread :=
  {| id := lit i; title := lit "New Chat"; created_at := updated;
     updated_at := updated; message_count := mc |}.

(** A sidebar with two abandoned threads. *)
Definition sidebar : state :=
  {| messages := []; input := []; isLoading := false;
     chatStarted := true; threadId := lit "t2";
     threads := [thread_row "t3" 300 0; thread_row "t2" 200 2; thread_row "t1" 100 0];
     isLoadingThreads := false; trace := []; draws := 0; ticks := 0 |}.

(** A thread list in which a thread with messages has the id of an empty
    one. *)
Definition twins : state :=
  {| messages := []; input := []; isLoading := false;
     chatStarted := false; threadId := lit "a";
     threads := [thread_row "a" 200 0; thread_row "a" 100 3; thread_row "b" 50 1];
     isLoadingThreads := false; trace := []; draws := 0; ticks := 0 |}.

(** The backend creates the thread it is asked for. *)
Definition server_world : world :=
  {| random := fun n => (Z.of_nat (n mod 7) # 7)%Q;
     now := fun n => 1000 + 250 * Z.of_nat n;
     chat := fun _ =>
       Resolved true
         (Some {| fragments := [lit " "; lit "Ath"; lit "ens"]; ending := StreamDone |});
     post_threads := fun _ => Resolved true (JsonValue (thread_row "t4" 400 0));
     delete_thread := fun _ => Resolved true ();
     get_threads := fun _ => Resolved false (JsonError []) |}.

(** A fingerprint for the query cache. *)
Definition fingerprint (t : Backend.text) : N :=
  foldr (fun c h => ((c + 31 * h) mod 4294967296)%N) 0%N t.

Definition greece : Backend.text := lit "What is the capital of Greece?".

Definition first_answer : Backend.call :=
  Backend.Query greece 10 (Some (lit "Athens", [1%N; 2%N])) 3600.

Definition new_document : Backend.call :=
  Backend.Ingest [{| Backend.chunk_fingerprint := 7; Backend.source_path := lit "data/greece_dataset/athens.txt";
                     Backend.sequence_index := 0 |}].

Definition cached_athens : Backend.QueryCacheEntry :=
  {| Backend.normalized_query_hash := fingerprint (Backend.normalize greece);
     Backend.corpus_version := 0;
     Backend.answer := lit "Athens";
     Backend.retrieved_chunk_ids := [1%N; 2%N];
     Backend.created_at := 10;
     Backend.ttl := 3600 |}.

End Samples.

(** ** Vocabulary of the statements *)

Definition is_lower_hex (c : N) : Prop :=
  (48 <= c <= 57)%N \/ (97 <= c <= 102)%N.

(** The version-4 layout: 36 code units, hyphens at 8, 13, 18 and 23, lowercase
    hexadecimal digits elsewhere, '4' at 14 and one of 8, 9, a, b at 19. *)
Definition uuid_v4 (u : jsstring) : Prop :=
  length u = 36%nat /\
  (forall (i : nat) (c : N), u !! i = Some c ->
     if bool_decide (i ∈ [8; 13; 18; 23]%nat) then c = 45%N else is_lower_hex c) /\
  u !! 14%nat = Some 52%N /\
  (exists c, u !! 19%nat = Some c /\ c ∈ [56; 57; 97; 98]%N).

(** What the world answers to the creation request sent from state [s]. *)
Definition create_reply (w : world) (title : option jsstring) (s : state)
    : fetch_result (json Thread) :=
  post_threads w (requests_of (trace s) ++ [PostThreads title]).

(** The creation over HTTP fails: the request rejects, the response is not
    ok, or its JSON cannot be read. *)
Definition creation_fails (w : world) (title : option jsstring) (s : state) : Prop :=
  forall thread, create_reply w title s <> Resolved true (JsonValue thread).

(** The contract of Math.random(): every value lies in [0, 1). *)
Definition unit_interval (w : world) : Prop :=
  forall n, (0 <= random w n)%Q /\ (random w n < 1)%Q.

(** What one replacement produces for the template character [c]. *)
Definition uuid_digit (c d : N) : Prop :=
  if (c =? 120)%N then is_lower_hex d else d ∈ [56; 57; 97; 98]%N.

(** The output follows the template position by position. *)
Definition follows (c d : N) : Prop :=
  if ((c =? 120) || (c =? 121))%N then uuid_digit c d else d = c.

(** [generateUUID] touches nothing but the count of random draws. *)
Definition with_draws (n : nat) (s : state) : state :=
  {| messages := messages s; input := input s; isLoading := isLoading s;
     chatStarted := chatStarted s; threadId := threadId s; threads := threads s;
     isLoadingThreads := isLoadingThreads s; trace := trace s;
     draws := n; ticks := ticks s |}.

Definition nonblank (s : jsstring) : bool := truthy (trim s).

(** The state [s] with a new message list [ms] after the events [evs]. *)
Definition advance (ms : list Message) (evs : list event) (s : state) : state :=
  {| messages := ms; input := input s; isLoading := isLoading s;
     chatStarted := chatStarted s; threadId := threadId s; threads := threads s;
     isLoadingThreads := isLoadingThreads s; trace := trace s ++ evs;
     draws := draws s; ticks := ticks s |}.

(** The message list while an answer with text [c] is being streamed. *)
Definition streamed (base : list Message) (c : jsstring) : list Message :=
  base ++ [{| role := assistant; content := c; responseTime := None |}].

(** The events of the read loop entered with the list [base] (and, once the
    assistant message is there, [streamed base accumulated]). *)
Fixpoint loop_events (base : list Message) (chunks : list jsstring)
    (fin : stream_end) (accumulated : jsstring) (added : bool) : list event :=
  match chunks with
  | [] => [match fin with
           | StreamDone => EvRead None
           | StreamError err => EvReadError err
           end]
  | value :: rest =>
      let accumulated := accumulated ++ value in
      EvRead (Some value) ::
        (if added || nonblank accumulated
         then EvMessages (streamed base accumulated)
                :: loop_events base rest fin accumulated true
         else loop_events base rest fin accumulated false)
  end.

Definition loop_result (fin : stream_end) : option jsstring :=
  match fin with StreamDone => None | StreamError err => Some err end.

Definition loop_messages (base : list Message) (text : jsstring) (added : bool)
    : list Message :=
  if added || nonblank text then streamed base text else base.

(** The guard of [handleSubmit] lets the submission through. *)
Definition accepts (s : state) : Prop := ~ blank (input s) /\ isLoading s = false.

Definition userMessage (s : state) : Message :=
  {| role := user; content := input s; responseTime := None |}.

(** The fixed message of the [catch] block. *)
Definition apology (rt : Z) : Message :=
  {| role := assistant; content := error_text; responseTime := Some rt |}.

Definition chat_request (s : state) : request := PostChat (input s) (threadId s).

(** What the world answers to the chat request sent from state [s]. *)
Definition chat_reply (w : world) (s : state) : fetch_result (option body_stream) :=
  chat w (requests_of (trace s) ++ [chat_request s]).

(** The error that reaches the [catch] block before any byte is read. *)
Definition failure_detail (r : fetch_result (option body_stream)) : option jsstring :=
  match r with
  | Rejected err => Some err
  | Resolved false _ => Some (lit "Failed to get response")
  | Resolved true None => Some (lit "No response body")
  | Resolved true (Some _) => None
  end.

Definition message_values (tr : list event) : list (list Message) :=
  omap (fun e => match e with EvMessages ms => Some ms | _ => None end) tr.

(** The state when the request is about to be sent. *)
Definition submitted (s : state) : state :=
  {| messages := messages s ++ [userMessage s]; input := []; isLoading := true;
     chatStarted := true; threadId := threadId s; threads := threads s;
     isLoadingThreads := isLoadingThreads s;
     trace := trace s ++ [EvMessages (messages s ++ [userMessage s])];
     draws := draws s; ticks := S (ticks s) |}.

(** The successive texts shown in the assistant message while the chunks
    arrive: one per chunk from the first that makes the text non-blank. *)
Fixpoint contents (accumulated : jsstring) (added : bool)
    (chunks : list jsstring) : list jsstring :=
  match chunks with
  | [] => []
  | value :: rest =>
      let accumulated := accumulated ++ value in
      if added || nonblank accumulated
      then accumulated :: contents accumulated true rest
      else contents accumulated false rest
  end.

(** The events of the read loop before its last [read()]. *)
Fixpoint loop_body (base : list Message) (chunks : list jsstring)
    (accumulated : jsstring) (added : bool) : list event :=
  match chunks with
  | [] => []
  | value :: rest =>
      let accumulated := accumulated ++ value in
      EvRead (Some value) ::
        (if added || nonblank accumulated
         then EvMessages (streamed base accumulated)
                :: loop_body base rest accumulated true
         else loop_body base rest accumulated false)
  end.

Definition end_event (fin : stream_end) : event :=
  match fin with
  | StreamDone => EvRead None
  | StreamError err => EvReadError err
  end.

(** The message list once the stream has ended. *)
Definition completed (base : list Message) (cs : list jsstring) (rt : Z)
    : list Message :=
  match last cs with
  | Some c => base ++ [{| role := assistant; content := c; responseTime := Some rt |}]
  | None => base
  end.

(** The message list after a [read()] that rejects. *)
Definition interrupted (base : list Message) (cs : list jsstring) (rt : Z)
    : list Message :=
  match last cs with
  | Some c => streamed base c ++ [apology rt]
  | None => base ++ [apology rt]
  end.

(** The state when the first [read()] is issued. *)
Definition reading (s : state) : state :=
  {| messages := messages s ++ [userMessage s]; input := []; isLoading := true;
     chatStarted := true; threadId := threadId s; threads := threads s;
     isLoadingThreads := isLoadingThreads s;
     trace := trace s ++ [EvMessages (messages s ++ [userMessage s]);
                          EvFetch (chat_request s)];
     draws := draws s; ticks := S (S (ticks s)) |}.

(** [ms] is [base] followed by assistant messages only. *)
Definition answers_after (base ms : list Message) : Prop :=
  exists extra, ms = base ++ extra /\ Forall (fun m => role m = assistant) extra.

(** The DELETE request for a thread. *)
Definition delete_request (t : Thread) : request := DeleteThread (id t).

Definition is_empty_thread (t : Thread) : Prop := message_count t = 0.

(** Most recently updated first. *)
Definition recent_first (ts : list Thread) : Prop :=
  Sorted (fun a b => updated_at b <= updated_at a) ts.

(** ** The rest of the component *)

(** [Number.prototype.toString()] on an integer, as a template literal
    interpolates it: decimal digits, a leading minus sign for negatives.  (The
    exponent notation of numbers from 1e21 on is not reached: the page
    interpolates counts below 60.) *)
Fixpoint decdigits (fuel : nat) (n : Z) (acc : jsstring) : jsstring :=
  match fuel with
  | O => acc
  | S fuel' =>
      let acc' := Z.to_N (48 + n mod 10) :: acc in
      if n / 10 =? 0 then acc' else decdigits fuel' (n / 10) acc'
  end.

Definition toString10 (n : Z) : jsstring :=
  if n <? 0 then 45%N :: decdigits (S (Z.to_nat (Z.log2 (- n)))) (- n) []
  else decdigits (S (Z.to_nat (Z.log2 n))) n [].

(** [new Date(value).getTime()] for an integer [value]: the time value, or
    [None] (NaN, an invalid date) beyond 8.64e15 milliseconds. *)
Definition Date_getTime (value : Z) : option Z :=
  if 8640000000000000 <? Z.abs value then None else Some value.

(** [formatTime(timestamp)], with the current time [new Date().getTime()] and
    the host's [toLocaleDateString] as arguments.  Timestamps are integers as
    in [Thread]; with NaN every comparison of the source is false, which
    leaves the last [return], and an invalid date prints as "Invalid Date". *)
Definition formatTime (toLocaleDateString : Z -> jsstring) (now_ms : Z)
    (timestamp : Z) : jsstring :=
  match Date_getTime (timestamp * 1000) with
  | None => lit "Invalid Date"
  | Some date =>
      let diff := now_ms - date in
      let minutes := diff / 60000 in
      let hours := diff / 3600000 in
      let days := diff / 86400000 in
      if minutes <? 1 then lit "Just now"
      else if minutes <? 60 then
        toString10 minutes ++ lit " "
          ++ (if minutes =? 1 then lit "minute" else lit "minutes") ++ lit " ago"
      else if hours <? 24 then
        toString10 hours ++ lit " "
          ++ (if hours =? 1 then lit "hour" else lit "hours") ++ lit " ago"
      else if days =? 1 then lit "Yesterday"
      else if days <? 7 then toString10 days ++ lit " days ago"
      else toLocaleDateString date
  end.

(** What the sidebar shows under "Recent Chats". *)
Record chat_row := {
  row_key : jsstring;
  row_title : jsstring;
  row_time : jsstring;
  row_active : bool;        (* [threadId === thread.id] *)
}.

Inductive recent_chats :=
| LoadingChats
| NoChatsYet
| ChatRows (rows : list chat_row).

(** The list part of [Sidebar]; [clock k] is the time at which the row of
    index [k] is formatted. *)
Definition render_recent_chats (toLocaleDateString : Z -> jsstring)
    (clock : nat -> Z) (s : state) : recent_chats :=
  if isLoadingThreads s then LoadingChats
  else if Z.of_nat (length (threads s)) =? 0 then NoChatsYet
  else ChatRows
         (imap (fun k thread =>
                  {| row_key := id thread;
                     row_title := title thread;
                     row_time := formatTime toLocaleDateString (clock k)
                                   (updated_at thread);
                     row_active := bool_decide (threadId s = id thread) |})
               (threads s)).

(** [disabled={isLoading || !input.trim()}] of the submit button. *)
Definition submit_disabled (s : state) : bool :=
  isLoading s || negb (truthy (trim (input s))).

(** The first half of [handleNewChat] as a closure of the render whose thread
    list was [rendered], run on the current state [s]: the empty threads are
    taken from [rendered], the functional update filters the current list. *)
Definition delete_empty_threads_from (rendered : list Thread) (w : world)
    (s : state) : state :=
  let emptyThreads := filter (fun t => message_count t = 0) rendered in
  let s := foldl (delete_empty w) s emptyThreads in
  if (0 <? Z.of_nat (length emptyThreads)) then
    let emptyThreadIds : gset jsstring := list_to_set (id <$> emptyThreads) in
    setThreads (fun prev => filter (fun t => id t ∉ emptyThreadIds) prev) s
  else s.

Definition handleNewChat_from (rendered : list Thread) (w : world) (s : state)
    : state :=
  let s := delete_empty_threads_from rendered w s in
  let '(newThreadId, s) := createThread w None s in
  let s := setMessages (fun _ => []) s in
  let s := setInput [] s in
  let s := setIsLoading false s in
  let s := setChatStarted false s in
  setThreadId newThreadId s.

(** [deleteThread(id, e)], run against the render whose values are the
    current state; [confirmed] is what [window.confirm] returns.  The call of
    [handleNewChat] is the closure of that same render: it still sees the
    thread list as it was before the deletion. *)
Definition deleteThread (w : world) (confirmed : bool) (id0 : jsstring)
    (s : state) : state :=
  if negb confirmed then s
  else
    let rendered := threads s in
    let threadId0 := threadId s in
    let '(res, s) := fetch (delete_thread w) (DeleteThread id0) s in
    match res with
    | Rejected err => console_error (lit "Failed to delete thread:") err s
    | Resolved true _ =>
        let s := setThreads (fun prev => filter (fun t => id t <> id0) prev) s in
        if bool_decide (threadId0 = id0)
        then handleNewChat_from rendered w s
        else s
    | Resolved false _ => s
    end.

(** [loadThreadMessages(id)] (and [handleSelectThread], which only calls it).
    The page model has no request for GET /threads/{id}/messages: the reply
    of the fetch is an argument and the request leaves no event. *)
Definition loadThreadMessages (reply : fetch_result (json (list Message)))
    (id0 : jsstring) (s : state) : state :=
  match reply with
  | Resolved true (JsonValue data) =>
      setChatStarted true (setThreadId id0 (setMessages (fun _ => data) s))
  | Resolved true (JsonError err) =>
      console_error (lit "Failed to load thread messages:") err s
  | Rejected err =>
      console_error (lit "Failed to load thread messages:") err s
  | Resolved false _ => s
  end.

(** The theme: the React state [isDarkMode], the [data-theme] attribute of
    the document element and the localStorage item 'theme'. *)
Record theme_state := {
  isDarkMode : bool;
  data_theme : option jsstring;
  saved_theme : option jsstring;
}.

Definition toggleTheme (t : theme_state) : theme_state :=
  let newMode := negb (isDarkMode t) in
  if newMode then
    {| isDarkMode := newMode; data_theme := Some (lit "dark");
       saved_theme := Some (lit "dark") |}
  else
    {| isDarkMode := newMode; data_theme := None;
       saved_theme := Some (lit "light") |}.

(** The theme part of the mount effect. *)
Definition restore_theme (t : theme_state) : theme_state :=
  if bool_decide (saved_theme t = Some (lit "dark")) then
    {| isDarkMode := true; data_theme := Some (lit "dark");
       saved_theme := saved_theme t |}
  else t.

(** A page load: [useState(false)], the document of layout.tsx (no
    [data-theme] attribute), the stored item as the browser kept it; then the
    mount effect. *)
Definition load_theme (stored : option jsstring) : theme_state :=
  restore_theme {| isDarkMode := false; data_theme := None; saved_theme := stored |}.

(** What the world answers to the refresh sent from state [s]. *)
Definition refresh_reply (w : world) (s : state)
    : fetch_result (json (list Thread)) :=
  get_threads w (requests_of (trace s) ++ [GetThreads]).

(** What the world answers to a DELETE sent from state [s]. *)
Definition delete_reply (w : world) (id0 : jsstring) (s : state)
    : fetch_result unit :=
  delete_thread w (requests_of (trace s) ++ [DeleteThread id0]).

(** The chat request got an ok response whose body was read to the end. *)
Definition stream_completed (r : fetch_result (option body_stream)) : bool :=
  match r with
  | Resolved true (Some reader) =>
      match ending reader with StreamDone => true | StreamError _ => false end
  | _ => false
  end.

(** The state [handleSubmit] leaves when the request fails before the body is
    read; [k] counts the readings of the clock after the first. *)
Definition failed_submit (w : world) (s : state) (detail : jsstring) (k : nat)
    : state :=
  let rt := now w (k + ticks s)%nat - now w (ticks s) in
  {| messages := messages s ++ [userMessage s; apology rt]; input := [];
     isLoading := false; chatStarted := true; threadId := threadId s;
     threads := threads s; isLoadingThreads := isLoadingThreads s;
     trace := trace s ++ [EvMessages (messages s ++ [userMessage s]);
                          EvFetch (chat_request s);
                          EvConsole (lit "Error:") detail;
                          EvMessages (messages s ++ [userMessage s; apology rt])];
     draws := draws s; ticks := S (k + ticks s) |}.

Definition is_user (m : Message) : Prop := role m = user.

(** The number of characters of the template that [/[xy]/g] matches. *)
Fixpoint placeholders (template : jsstring) : nat :=
  match template with
  | [] => 0
  | c :: rest =>
      if ((c =? 120) || (c =? 121))%N then S (placeholders rest)
      else placeholders rest
  end.

(** What the user can do on the page: type in the input box, submit the
    form, press "New Chat", press the trash button of a row (and answer the
    confirmation), click a row (the reply of its fetch, see
    [loadThreadMessages]), press "Refresh". *)
Inductive ui_event :=
| TypeText (value : jsstring)
| Submit
| NewChat
| DeleteRow (confirmed : bool) (id0 : jsstring)
| SelectRow (reply : fetch_result (json (list Message))) (id0 : jsstring)
| Refresh.

(** The handler the JSX attaches to each of them, run to completion. *)
Definition handle (w : world) (s : state) (e : ui_event) : state :=
  match e with
  | TypeText value => setInput value s
  | Submit => handleSubmit w s
  | NewChat => handleNewChat w s
  | DeleteRow confirmed id0 => deleteThread w confirmed id0 s
  | SelectRow reply id0 => loadThreadMessages reply id0 s
  | Refresh => fetchThreads w s
  end.

Definition session (w : world) (s : state) (events : list ui_event) : state :=
  foldl (handle w) s events.

(** The state when the stream has ended: [reading s] after the events of the
    loop. *)
Definition streamed_state (s : state) (reader : body_stream) : state :=
  advance (loop_messages (messages s ++ [userMessage s])
             (concat (fragments reader)) false)
          (loop_events (messages s ++ [userMessage s]) (fragments reader)
             (ending reader) [] false)
          (reading s).

(** The state [s] with the thread list [ts] after the events [evs]. *)
Definition with_threads (ts : list Thread) (evs : list event) (s : state) : state :=
  {| messages := messages s; input := input s; isLoading := isLoading s;
     chatStarted := chatStarted s; threadId := threadId s; threads := ts;
     isLoadingThreads := isLoadingThreads s; trace := trace s ++ evs;
     draws := draws s; ticks := ticks s |}.

(** The state after the DELETE request was sent from [s] for [id0] and the
    matching rows were removed locally. *)
Definition removed_locally (id0 : jsstring) (s : state) : state :=
  with_threads (filter (fun t => id t <> id0) (threads s))
    [EvFetch (DeleteThread id0);
     EvThreads (filter (fun t => id t <> id0) (threads s))] s.

(** The three places that hold the theme agree. *)
Definition theme_agrees (t : theme_state) : Prop :=
  t = {| isDarkMode := true; data_theme := Some (lit "dark");
         saved_theme := Some (lit "dark") |}
  \/ (isDarkMode t = false /\ data_theme t = None
      /\ saved_theme t <> Some (lit "dark")).

(** ** handleSubmit among the other handlers *)

(** [handleSubmit] is suspended at [await fetch(...)] and at every
    [await reader.read()].  The page stays live meanwhile: the sidebar rows,
    "New Chat", the trash buttons and "Refresh" are not disabled while a
    request is in flight, and a functional update [setMessages(prev => ...)]
    made after a wait receives the list as it is then.  An interleaving
    gives, for each of these waits, the steps that other handlers take during
    it, in order: a handler run from start to end ([handleNewChat w],
    [fetchThreads w], ...) or the part of one that falls in the wait (the
    part of [loadThreadMessages] after its fetch, a later part of an earlier
    [handleSubmit]).  The reads are numbered from 0, the read that reports
    the end of the stream included. *)
Record interleaving := {
  while_fetching : list (state -> state);
  while_reading : nat -> list (state -> state);
}.

(** Nothing else happens. *)
Definition alone : interleaving :=
  {| while_fetching := []; while_reading := fun _ => [] |}.

(** The state after the steps taken during one wait. *)
Definition during (steps : list (state -> state)) (s : state) : state :=
  foldl (fun s step => step s) s steps.

(** The [while (true)] loop of [handleSubmit]; [k] numbers the read that is
    awaited next.  Each functional update of the loop is applied to the
    message list as the steps taken during the wait have left it. *)
Fixpoint read_loop_among (others : nat -> list (state -> state)) (k : nat)
    (chunks : list jsstring) (fin : stream_end)
    (accumulated : jsstring) (assistantMessageAdded : bool) (s : state)
    : option jsstring * state :=
  let s := during (others k) s in
  match chunks with
  | [] =>
      match fin with
      | StreamDone => (None, log (EvRead None) s)
      | StreamError err => (Some err, log (EvReadError err) s)
      end
  | value :: rest =>
      let s := log (EvRead (Some value)) s in
      let accumulated := accumulated ++ value in
      if negb assistantMessageAdded && truthy (trim accumulated) then
        read_loop_among others (S k) rest fin accumulated true
          (setMessages
             (fun prev => prev ++ [{| role := assistant; content := accumulated;
                                      responseTime := None |}]) s)
      else if assistantMessageAdded then
        read_loop_among others (S k) rest fin accumulated assistantMessageAdded
          (setMessages (map_last_assistant (with_content accumulated)) s)
      else
        read_loop_among others (S k) rest fin accumulated assistantMessageAdded s
  end.

(** The [try] block with its [catch]: the request is issued, the other
    handlers take their steps while it is awaited, then the response is dealt
    with. *)
Definition submit_try_among (w : world) (i : interleaving)
    (message thread_id : jsstring) (startTime : Z) (s : state) : state :=
  let '(res, s) := fetch (chat w) (PostChat message thread_id) s in
  let s := during (while_fetching i) s in
  match res with
  | Rejected err => submit_catch w startTime err s
  | Resolved ok body =>
      let '(t, s) := Date_now w s in
      let finalResponseTime := t - startTime in
      if negb ok then submit_catch w startTime (lit "Failed to get response") s
      else
        match body with
        | None => submit_catch w startTime (lit "No response body") s
        | Some reader =>
            match read_loop_among (while_reading i) 0
                    (fragments reader) (ending reader) [] false s with
            | (Some err, s) => submit_catch w startTime err s
            | (None, s) =>
                let s :=
                  setMessages
                    (map_last_assistant (with_responseTime finalResponseTime)) s in
                fetchThreads w s
            end
        end
  end.

(** [handleSubmit] with the steps of [i] taken during its waits.  [input],
    [isLoading] and [threadId] are those of the render the handler was
    started from. *)
Definition handleSubmit_among (w : world) (i : interleaving) (s : state) : state :=
  let input0 := input s in
  let threadId0 := threadId s in
  if negb (truthy (trim input0)) || isLoading s then s
  else
    let userMessage := {| role := user; content := input0; responseTime := None |} in
    let s := setMessages (fun prev => prev ++ [userMessage]) s in
    let s := setChatStarted true s in
    let s := setInput [] s in
    let s := setIsLoading true s in
    let '(startTime, s) := Date_now w s in
    let s := submit_try_among w i input0 threadId0 startTime s in
    setIsLoading false s.

(** A step that leaves the conversation alone: whatever the state, it keeps
    the message list and logs neither an update of the list nor the end of a
    stream. *)
Definition bystander (step : state -> state) : Prop :=
  forall s,
    messages (step s) = messages s
    /\ exists evs, trace (step s) = trace s ++ evs
                   /\ message_values evs = [] /\ (EvRead None ∉ evs).

(** Interactions whose handler is a bystander in every world: typing,
    "Refresh", a deletion the user cancels, a row whose messages fail to
    load. *)
Definition keeps_conversation (e : ui_event) : bool :=
  match e with
  | TypeText _ | Refresh => true
  | DeleteRow confirmed _ => negb confirmed
  | SelectRow (Resolved true (JsonValue _)) _ => false
  | SelectRow _ _ => true
  | Submit | NewChat => false
  end.

(** No step taken during the waits of [handleSubmit] touches the
    conversation. *)
Definition undisturbed (i : interleaving) : Prop :=
  Forall bystander (while_fetching i)
  /\ forall k, Forall bystander (while_reading i k).

(** A step that only adds to the record of what was observed, as every
    handler does. *)
Definition extends_trace (step : state -> state) : Prop :=
  forall s, exists evs, trace (step s) = trace s ++ evs.

(** The state in which the response is dealt with: the request has been sent
    from [s] and the steps of the wait have been taken. *)
Definition response_arrives (i : interleaving) (s : state) : state :=
  during (while_fetching i) (log (EvFetch (chat_request s)) (submitted s)).

(** The messages [data] of the thread [id0], requested by a click on its
    row, arrive while the read number [k] is awaited; nothing else happens. *)
Definition row_loaded (data : list Message) (id0 : jsstring) (k : nat)
    : interleaving :=
  {| while_fetching := [];
     while_reading := fun n =>
       if (n =? k)%nat
       then [loadThreadMessages (Resolved true (JsonValue data)) id0]
       else [] |}.

Module Scenes.

(** Another thread of the sidebar, as GET /threads/t9/messages returns it. *)
Definition answered : list Message :=
  [{| role := user; content := lit "capital of Italy?"; responseTime := None |};
   {| role := assistant; content := lit "old answer"; responseTime := None |}].

(** The user has clicked the row of thread t9; its messages [data] arrive
    while the read number [k] is awaited ([data] is empty for a thread
    without messages). *)
Definition row_click (data : list Message) (k : nat) : interleaving :=
  row_loaded data (lit "t9") k.

(** The messages [data] of thread t9 arrive while the request is awaited. *)
Definition early_click (data : list Message) : interleaving :=
  {| while_fetching :=
       [loadThreadMessages (Resolved true (JsonValue data)) (lit "t9")];
     while_reading := fun _ => [] |}.

(** The user presses "Refresh" while the request is awaited and again while
    the read number 1 is awaited. *)
Definition refreshes (w : world) : interleaving :=
  {| while_fetching := [fetchThreads w];
     while_reading := fun n => if (n =? 1)%nat then [fetchThreads w] else [] |}.

(** "New Chat", a new question typed and submitted, all handled during one
    wait. *)
Definition another_question (w : world) : list (state -> state) :=
  [handleNewChat w; setInput (lit "and of Italy?"); handleSubmit w].

(** The user asks the other question while the request is awaited. *)
Definition early_question (w : world) : interleaving :=
  {| while_fetching := another_question w; while_reading := fun _ => [] |}.

(** The user asks the other question while the read number 1 is awaited. *)
Definition second_question (w : world) : interleaving :=
  {| while_fetching := [];
     while_reading := fun n => if (n =? 1)%nat then another_question w else [] |}.

End Scenes.

(** * Proofs *)

(** ** Properties of generateUUID *)

Example trim_example : trim (lit "  ok go ") = lit "ok go".
Proof. reflexivity. Qed.

Example toString16_255 : toString16 255 = lit "ff".
Proof. reflexivity. Qed.

Example toString16_neg : toString16 (-26) = lit "-1a".
Proof. reflexivity. Qed.

Example ToInt32_wraps : ToInt32 (4294967301 # 1)%Q = 5.
Proof. reflexivity. Qed.

Example generateUUID_sample :
  (generateUUID Samples.quiet_world Samples.fresh).1
  = lit "02469bd0-2469-4bd0-a469-bd02469bd024".
Proof. vm_compute. reflexivity. Qed.

Lemma wrap32_small z : -2 ^ 31 <= z < 2 ^ 31 -> wrap32 z = z.
Proof.
  intros Hz. unfold wrap32.
  rewrite Z.mod_small by lia. lia.
Qed.

Lemma ToInt32_random (x : Q) :
  (0 <= x)%Q -> (x < 1)%Q -> 0 <= ToInt32 (x * 16)%Q <= 15.
Proof.
  destruct x as [n d]. unfold Qle, Qlt. simpl. intros H0 H1.
  assert (Hn : 0 <= n) by lia.
  assert (Hd : n < Z.pos d) by lia.
  unfold ToInt32, truncate. simpl.
  replace (0 <=? n * 16) with true by (symmetry; apply Z.leb_le; lia).
  unfold Qfloor. rewrite Pos.mul_1_r.
  assert (Hq : 0 <= n * 16 / Z.pos d < 16).
  { split.
    - apply Z.div_pos; lia.
    - apply Z.div_lt_upper_bound; lia. }
  rewrite wrap32_small; lia.
Qed.

Lemma small_cases (P : Z -> Prop) (r : Z) :
  0 <= r <= 15 ->
  P 0 -> P 1 -> P 2 -> P 3 -> P 4 -> P 5 -> P 6 -> P 7 ->
  P 8 -> P 9 -> P 10 -> P 11 -> P 12 -> P 13 -> P 14 -> P 15 -> P r.
Proof.
  intros Hr. intros.
  assert (r = 0 \/ r = 1 \/ r = 2 \/ r = 3 \/ r = 4 \/ r = 5 \/ r = 6 \/ r = 7 \/
          r = 8 \/ r = 9 \/ r = 10 \/ r = 11 \/ r = 12 \/ r = 13 \/ r = 14 \/ r = 15)
    as Hc by lia.
  repeat (destruct Hc as [-> | Hc]; [assumption |]). subst. assumption.
Qed.

Lemma uuid_char_spec (w : world) (c : N) (s : state) :
  unit_interval w ->
  exists d, (uuid_char w c s).1 = [d] /\ uuid_digit c d.
Proof.
  intros Hw. unfold uuid_char, Math_random. cbn [fst].
  destruct (Hw (draws s)) as [H0 H1].
  pose proof (ToInt32_random _ H0 H1) as Hr.
  revert Hr. generalize (ToInt32 (random w (draws s) * 16)%Q). intros r Hr.
  unfold uuid_digit. destruct (c =? 120)%N.
  - pattern r. apply small_cases; [exact Hr | ..];
      (eexists; split; [vm_compute; reflexivity | unfold is_lower_hex; lia]).
  - pattern r. apply small_cases; [exact Hr | ..];
      (eexists; split; [vm_compute; reflexivity | repeat constructor]).
Qed.

Lemma replace_xy_follows (w : world) (template : jsstring) :
  unit_interval w ->
  forall s, Forall2 follows template (replace_xy w template s).1.
Proof.
  intros Hw. induction template as [| c rest IH]; intros s; cbn [replace_xy].
  - constructor.
  - destruct ((c =? 120) || (c =? 121))%N eqn:Hc.
    + destruct (uuid_char_spec w c s Hw) as (d & Hd & Hdig).
      destruct (uuid_char w c s) as [dd s1]. cbn [fst] in Hd. subst dd.
      specialize (IH s1). destruct (replace_xy w rest s1) as [out s2].
      cbn [fst app] in *. constructor; [| exact IH].
      unfold follows. rewrite Hc. exact Hdig.
    + specialize (IH s). destruct (replace_xy w rest s) as [out s2].
      cbn [fst] in *. constructor; [| exact IH].
      unfold follows. rewrite Hc. reflexivity.
Qed.

Lemma variant_is_lower_hex (d : N) : d ∈ [56; 57; 97; 98]%N -> is_lower_hex d.
Proof.
  rewrite !elem_of_cons, elem_of_nil. unfold is_lower_hex. lia.
Qed.

Lemma follows_template_uuid_v4 (u : jsstring) :
  Forall2 follows uuid_template u -> uuid_v4 u.
Proof.
  intros H. unfold uuid_template in H. simpl in H.
  repeat match goal with
         | H : Forall2 _ (_ :: _) _ |- _ =>
             apply Forall2_cons_inv_l in H; destruct H as (? & ? & ? & H & ->)
         | H : Forall2 _ [] _ |- _ => apply Forall2_nil_inv_l in H; subst
         end.
  unfold follows, uuid_digit in *. simpl in *. subst.
  unfold uuid_v4. split; [reflexivity |]. split; [| split].
  - intros i c Hi.
    do 36 (destruct i as [| i];
           [simpl in Hi; injection Hi as <-; vm_compute bool_decide;
            first [reflexivity | assumption
                  | apply variant_is_lower_hex; assumption
                  | unfold is_lower_hex; lia] |]).
    simpl in Hi. discriminate.
  - reflexivity.
  - eexists; split; [reflexivity | assumption].
Qed.

Lemma generateUUID_v4 (w : world) (s : state) :
  unit_interval w -> uuid_v4 (generateUUID w s).1.
Proof.
  intros Hw. apply follows_template_uuid_v4.
  unfold generateUUID. apply replace_xy_follows. exact Hw.
Qed.

Lemma replace_xy_state (w : world) (template : jsstring) :
  forall s, exists n, (replace_xy w template s).2 = with_draws n s.
Proof.
  induction template as [| c rest IH]; intros s; cbn [replace_xy].
  - exists (draws s). destruct s; reflexivity.
  - destruct ((c =? 120) || (c =? 121))%N.
    + unfold uuid_char, Math_random.
      match goal with
      | |- context [replace_xy w rest ?s1] =>
          destruct (IH s1) as [n Hn]; destruct (replace_xy w rest s1) as [out s2]
      end.
      exists n. cbn [snd] in *. rewrite Hn. reflexivity.
    + destruct (IH s) as [n Hn]. destruct (replace_xy w rest s) as [out s2].
      exists n. exact Hn.
Qed.

Lemma generateUUID_state (w : world) (s : state) :
  exists n, (generateUUID w s).2 = with_draws n s.
Proof. exact (replace_xy_state w uuid_template s). Qed.

Lemma requests_of_snoc (tr : list event) (r : request) :
  requests_of (tr ++ [EvFetch r]) = requests_of tr ++ [r].
Proof. unfold requests_of. rewrite omap_app. reflexivity. Qed.

Lemma createThread_fallback (w : world) (title : option jsstring) (s : state) :
  creation_fails w title s ->
  exists s', (createThread w title s).1 = (generateUUID w s').1
             /\ threads (createThread w title s).2 = threads s
             /\ threads s' = threads s.
Proof.
  intros Hf. unfold creation_fails, create_reply in Hf.
  unfold createThread, fetch. cbn [log trace]. rewrite requests_of_snoc.
  destruct (post_threads w _) as [err | [|] [err | thread]] eqn:E;
    try (exfalso; eapply Hf; reflexivity);
    match goal with
    | |- context [generateUUID w ?s1] =>
        exists s1; destruct (generateUUID_state w s1) as [n ->]; auto
    end.
Qed.

(** C10. Whatever values in [0, 1) the random source produces,
    [generateUUID] returns a 36-character string in version-4 layout: hyphens
    at positions 8, 13, 18 and 23, lowercase hexadecimal digits elsewhere, '4'
    after the second hyphen and one of 8, 9, a, b after the third.  When the
    creation of a thread over HTTP fails, [createThread] returns such a string
    (leaving the thread list as it is), and [handleNewChat] stores it as the
    thread id. *)
Theorem generateUUID_v4_fallback_thread_id (w : world) (H : unit_interval w) :
  (forall s, uuid_v4 (generateUUID w s).1) /\
  (forall title s, creation_fails w title s ->
     uuid_v4 (createThread w title s).1
     /\ (exists s', (createThread w title s).1 = (generateUUID w s').1)
     /\ threads (createThread w title s).2 = threads s) /\
  (forall s, creation_fails w None (delete_empty_threads w s) ->
     uuid_v4 (threadId (handleNewChat w s))).
Proof.
  split; [| split].
  - intros s. apply generateUUID_v4. exact H.
  - intros title s Hf.
    destruct (createThread_fallback w title s Hf) as (s' & Hid & Hts & _).
    rewrite Hid. split; [apply generateUUID_v4; exact H |]. split; [| exact Hts].
    exists s'. reflexivity.
  - intros s Hf. unfold handleNewChat.
    destruct (createThread_fallback w None _ Hf) as (s' & Hid & _).
    destruct (createThread w None (delete_empty_threads w s)) as [newId s1].
    cbn [fst] in Hid. cbn [setThreadId threadId]. rewrite Hid.
    apply generateUUID_v4. exact H.
Qed.

Lemma quiet_world_unit_interval : unit_interval Samples.quiet_world.
Proof.
  intros n. cbn [Samples.quiet_world random]. unfold Qle, Qlt. cbn [Qnum Qden].
  pose proof (Nat.mod_upper_bound n 7). lia.
Defined.

Lemma generateUUID_v4_fallback_thread_id_witness :
  unit_interval Samples.quiet_world
  /\ uuid_v4 (generateUUID Samples.quiet_world Samples.fresh).1
  /\ uuid_v4 (threadId (handleNewChat Samples.quiet_world Samples.fresh)).
Proof.
  pose proof (generateUUID_v4_fallback_thread_id Samples.quiet_world
                quiet_world_unit_interval) as (Hg & _ & Hn).
  split; [exact quiet_world_unit_interval |]. split; [apply Hg |].
  apply Hn. intros thread. vm_compute. discriminate.
Defined.

(** ** Properties of trim *)

Lemma trimStart_forallb (s : jsstring) :
  forallb is_white (trimStart s) = forallb is_white s.
Proof.
  induction s as [| c r IH]; [reflexivity |].
  cbn [trimStart]. destruct (is_white c) eqn:Hc; [| reflexivity].
  cbn [forallb]. rewrite Hc. exact IH.
Qed.

Lemma truthy_trimStart (s : jsstring) :
  truthy (trimStart s) = negb (forallb is_white s).
Proof.
  induction s as [| c r IH]; [reflexivity |].
  cbn [trimStart forallb]. destruct (is_white c); [exact IH | reflexivity].
Qed.

Lemma truthy_rev (s : jsstring) : truthy (rev s) = truthy s.
Proof.
  destruct s as [| c r]; [reflexivity |].
  cbn [rev truthy]. destruct (rev r); reflexivity.
Qed.

Lemma forallb_rev (f : N -> bool) (s : jsstring) :
  forallb f (rev s) = forallb f s.
Proof.
  induction s as [| c r IH]; [reflexivity |].
  cbn [rev forallb]. rewrite forallb_app, IH. cbn [forallb].
  destruct (f c), (forallb f r); reflexivity.
Qed.

Lemma nonblank_forallb (s : jsstring) :
  nonblank s = negb (forallb is_white s).
Proof.
  unfold nonblank, trim, trimEnd.
  rewrite truthy_rev, truthy_trimStart, forallb_rev, trimStart_forallb.
  reflexivity.
Qed.

Lemma nonblank_app (a b : jsstring) :
  nonblank (a ++ b) = nonblank a || nonblank b.
Proof.
  rewrite !nonblank_forallb, forallb_app.
  destruct (forallb is_white a), (forallb is_white b); reflexivity.
Qed.

Lemma blank_nonblank (s : jsstring) : blank s <-> nonblank s = false.
Proof.
  rewrite nonblank_forallb. unfold blank. rewrite Forall_forall.
  rewrite negb_false_iff, forallb_forall.
  split; intros H c Hc; apply H; apply list_elem_of_In; exact Hc.
Qed.

Lemma not_blank_nonblank (s : jsstring) : ~ blank s <-> nonblank s = true.
Proof.
  rewrite blank_nonblank. destruct (nonblank s); split; congruence.
Qed.

(** ** The read loop *)

Lemma map_last_assistant_snoc (patch : Message -> Message)
    (base : list Message) (m : Message) :
  map_last_assistant patch (base ++ [m])
  = base ++ [if bool_decide (role m = assistant) then patch m else m].
Proof.
  unfold map_last_assistant. rewrite imap_app. f_equal.
  - rewrite <- (list_fmap_id base) at 2. rewrite <- imap_const.
    apply imap_ext. intros i x Hi. apply lookup_lt_Some in Hi.
    rewrite length_app. cbn [length].
    replace (Z.of_nat i =? Z.of_nat (length base + 1) - 1) with false;
      [reflexivity |]. symmetry. apply Z.eqb_neq. lia.
  - cbn [imap]. rewrite length_app. cbn [length].
    replace (Z.of_nat (length base + 0) =? Z.of_nat (length base + 1) - 1) with true;
      [reflexivity |]. symmetry. apply Z.eqb_eq. lia.
Qed.

Lemma map_last_assistant_user (patch : Message -> Message)
    (base : list Message) (m : Message) :
  role m = user -> map_last_assistant patch (base ++ [m]) = base ++ [m].
Proof.
  intros Hr. rewrite map_last_assistant_snoc.
  rewrite bool_decide_eq_false_2; [reflexivity |]. rewrite Hr. discriminate.
Qed.

Lemma map_last_assistant_streamed (c c' : jsstring) (base : list Message) :
  map_last_assistant (with_content c') (streamed base c) = streamed base c'.
Proof. unfold streamed. rewrite map_last_assistant_snoc. reflexivity. Qed.

Lemma advance_advance (ms1 ms2 : list Message) (e1 e2 : list event) (s : state) :
  advance ms2 e2 (advance ms1 e1 s) = advance ms2 (e1 ++ e2) s.
Proof. unfold advance. cbn. rewrite app_assoc. reflexivity. Qed.

Lemma log_advance (e : event) (s : state) :
  log e s = advance (messages s) [e] s.
Proof. reflexivity. Qed.

Lemma setMessages_advance (f : list Message -> list Message) (s : state) :
  setMessages f s = advance (f (messages s)) [EvMessages (f (messages s))] s.
Proof. reflexivity. Qed.

Lemma read_loop_spec (base : list Message) (fin : stream_end) :
  forall (chunks : list jsstring) (accumulated : jsstring) (added : bool)
         (s : state),
    messages s = (if added then streamed base accumulated else base) ->
    (added = false -> nonblank accumulated = false) ->
    read_loop chunks fin accumulated added s
    = (loop_result fin,
       advance (loop_messages base (accumulated ++ concat chunks) added)
               (loop_events base chunks fin accumulated added) s).
Proof.
  induction chunks as [| value rest IH]; intros acc added s Hms Hacc.
  - cbn [read_loop concat loop_events]. rewrite app_nil_r.
    unfold loop_messages.
    assert (Hm : (if added || nonblank acc then streamed base acc else base)
                 = messages s).
    { destruct added; [symmetry; exact Hms |].
      rewrite (Hacc eq_refl). symmetry. exact Hms. }
    rewrite Hm. destruct fin; reflexivity.
  - cbn [read_loop concat loop_events].
    rewrite app_assoc. fold (nonblank (acc ++ value)).
    assert (Hgrow : loop_messages base ((acc ++ value) ++ concat rest) added
                    = loop_messages base ((acc ++ value) ++ concat rest)
                        (added || nonblank (acc ++ value))).
    { unfold loop_messages. rewrite nonblank_app.
      destruct added, (nonblank (acc ++ value)); reflexivity. }
    rewrite Hgrow. clear Hgrow.
    rewrite log_advance.
    destruct added; cbn [negb andb orb].
    + rewrite setMessages_advance, advance_advance.
      cbn [advance messages]. rewrite Hms, map_last_assistant_streamed.
      rewrite IH by (reflexivity || discriminate).
      rewrite advance_advance. reflexivity.
    + destruct (nonblank (acc ++ value)) eqn:Hnb.
      * rewrite setMessages_advance, advance_advance.
        cbn [advance messages]. rewrite Hms. fold (streamed base (acc ++ value)).
        rewrite IH by (reflexivity || discriminate).
        rewrite advance_advance. reflexivity.
      * rewrite IH by (exact Hms || (intros _; exact Hnb)).
        rewrite advance_advance. reflexivity.
Qed.

(** ** handleSubmit: what a run does *)

Lemma handleSubmit_rejects (w : world) (s : state) :
  blank (input s) \/ isLoading s = true -> handleSubmit w s = s.
Proof.
  intros H. unfold handleSubmit. fold (nonblank (input s)).
  destruct H as [H | H].
  - apply blank_nonblank in H. rewrite H. reflexivity.
  - rewrite H. rewrite orb_true_r. reflexivity.
Qed.

Lemma handleSubmit_accepts (w : world) (s : state) :
  accepts s ->
  handleSubmit w s
  = setIsLoading false
      (submit_try w (input s) (threadId s) (now w (ticks s)) (submitted s)).
Proof.
  intros [Hin Hload]. unfold handleSubmit. fold (nonblank (input s)).
  apply not_blank_nonblank in Hin. rewrite Hin, Hload. reflexivity.
Qed.

Lemma requests_of_app (a b : list event) :
  requests_of (a ++ b) = requests_of a ++ requests_of b.
Proof. unfold requests_of. apply omap_app. Qed.

Lemma message_values_app (a b : list event) :
  message_values (a ++ b) = message_values a ++ message_values b.
Proof. unfold message_values. apply omap_app. Qed.

Lemma submitted_reply (w : world) (s : state) :
  chat w (requests_of (trace (log (EvFetch (chat_request s)) (submitted s))))
  = chat_reply w s.
Proof.
  unfold chat_reply. cbn [log trace submitted].
  rewrite !requests_of_app. cbn. rewrite app_nil_r. reflexivity.
Qed.

(** Failure before the stream: one console entry, one fixed message. *)
Lemma handleSubmit_failure (w : world) (s : state) (detail : jsstring) :
  accepts s ->
  failure_detail (chat_reply w s) = Some detail ->
  exists rt,
    messages (handleSubmit w s) = messages s ++ [userMessage s; apology rt]
    /\ trace (handleSubmit w s)
       = trace s ++ [EvMessages (messages s ++ [userMessage s]);
                     EvFetch (chat_request s);
                     EvConsole (lit "Error:") detail;
                     EvMessages (messages s ++ [userMessage s; apology rt])]
    /\ isLoading (handleSubmit w s) = false
    /\ input (handleSubmit w s) = []
    /\ threads (handleSubmit w s) = threads s.
Proof.
  intros Hacc Hfail. rewrite (handleSubmit_accepts w s Hacc).
  unfold submit_try, fetch. fold (chat_request s). rewrite submitted_reply.
  destruct (chat_reply w s) as [err | [|] [reader |]]; cbn in Hfail;
    try discriminate; injection Hfail as <-;
    eexists; cbn; rewrite <- !app_assoc; cbn; repeat split; reflexivity.
Qed.

Lemma loop_events_body (base : list Message) (fin : stream_end) :
  forall chunks acc added,
    loop_events base chunks fin acc added
    = loop_body base chunks acc added ++ [end_event fin].
Proof.
  induction chunks as [| v rest IH]; intros acc added; cbn.
  - destruct fin; reflexivity.
  - destruct (added || nonblank (acc ++ v)); cbn; rewrite IH; reflexivity.
Qed.

Lemma loop_body_values (base : list Message) :
  forall chunks acc added,
    message_values (loop_body base chunks acc added)
    = streamed base <$> contents acc added chunks.
Proof.
  induction chunks as [| v rest IH]; intros acc added; cbn; [reflexivity |].
  destruct (added || nonblank (acc ++ v)); cbn; rewrite IH; reflexivity.
Qed.

Lemma loop_body_not_done (base : list Message) :
  forall chunks acc added, EvRead None ∉ loop_body base chunks acc added.
Proof.
  induction chunks as [| v rest IH]; intros acc added; cbn.
  - apply not_elem_of_nil.
  - destruct (added || nonblank (acc ++ v));
      rewrite !not_elem_of_cons; repeat split; try discriminate; apply IH.
Qed.

Lemma contents_extend :
  forall chunks acc added c,
    c ∈ contents acc added chunks -> acc `prefix_of` c.
Proof.
  induction chunks as [| v rest IH]; intros acc added c Hc; cbn in Hc.
  - apply elem_of_nil in Hc. contradiction.
  - assert (Hstep : forall b, c ∈ contents (acc ++ v) b rest -> acc `prefix_of` c).
    { intros b Hb. apply IH in Hb. destruct Hb as [k ->].
      exists (v ++ k). rewrite app_assoc. reflexivity. }
    destruct (added || nonblank (acc ++ v)).
    + apply elem_of_cons in Hc. destruct Hc as [-> | Hc].
      * exists v. reflexivity.
      * eapply Hstep, Hc.
    + eapply Hstep, Hc.
Qed.

Lemma contents_chain :
  forall chunks acc added (i : nat) c c',
    contents acc added chunks !! i = Some c ->
    contents acc added chunks !! S i = Some c' ->
    c `prefix_of` c'.
Proof.
  induction chunks as [| v rest IH]; intros acc added i c c' Hi Hi'; cbn in *.
  - discriminate.
  - destruct (added || nonblank (acc ++ v)).
    + destruct i as [| i].
      * cbn in Hi, Hi'. injection Hi as <-.
        apply (contents_extend rest (acc ++ v) true).
        apply list_elem_of_lookup. exists 0%nat. exact Hi'.
      * cbn in Hi, Hi'. eapply IH; eassumption.
    + eapply IH; eassumption.
Qed.

Lemma contents_last_added :
  forall chunks acc,
    chunks <> [] -> last (contents acc true chunks) = Some (acc ++ concat chunks).
Proof.
  induction chunks as [| v rest IH]; intros acc Hne; [congruence |].
  cbn [contents orb concat]. destruct rest as [| v' rest'].
  - cbn. rewrite app_nil_r. reflexivity.
  - rewrite last_cons. rewrite IH by discriminate.
    rewrite app_assoc. reflexivity.
Qed.

Lemma contents_last :
  forall chunks acc,
    nonblank acc = false ->
    last (contents acc false chunks)
    = if nonblank (acc ++ concat chunks) then Some (acc ++ concat chunks) else None.
Proof.
  induction chunks as [| v rest IH]; intros acc Hacc.
  - cbn. rewrite app_nil_r, Hacc. reflexivity.
  - cbn [contents orb concat]. rewrite app_assoc.
    destruct (nonblank (acc ++ v)) eqn:Hv.
    + rewrite nonblank_app, Hv. cbn [orb].
      destruct rest as [| v' rest'].
      * cbn. rewrite app_nil_r. reflexivity.
      * rewrite last_cons, contents_last_added by discriminate. reflexivity.
    + apply IH. exact Hv.
Qed.

Lemma fetchThreads_frame (w : world) (s : state) :
  messages (fetchThreads w s) = messages s
  /\ input (fetchThreads w s) = input s
  /\ isLoading (fetchThreads w s) = isLoading s
  /\ exists post, trace (fetchThreads w s) = trace s ++ post
                  /\ message_values post = [].
Proof.
  unfold fetchThreads, fetch.
  destruct (get_threads w _) as [err | [|] [err | data]]; cbn;
    repeat split; eexists; rewrite <- ?app_assoc; split; reflexivity.
Qed.

Lemma handleSubmit_stream_eq (w : world) (s : state) (reader : body_stream) :
  accepts s ->
  chat_reply w s = Resolved true (Some reader) ->
  let base := messages s ++ [userMessage s] in
  let s3 := advance (loop_messages base (concat (fragments reader)) false)
                    (loop_events base (fragments reader) (ending reader) [] false)
                    (reading s) in
  handleSubmit w s
  = setIsLoading false
      match ending reader with
      | StreamDone =>
          fetchThreads w
            (setMessages
               (map_last_assistant
                  (with_responseTime (now w (S (ticks s)) - now w (ticks s)))) s3)
      | StreamError err => submit_catch w (now w (ticks s)) err s3
      end.
Proof.
  intros Hacc Hreply base s3.
  rewrite (handleSubmit_accepts w s Hacc).
  unfold submit_try, fetch. fold (chat_request s). rewrite submitted_reply, Hreply.
  cbn [negb]. unfold Date_now.
  rewrite (read_loop_spec base) by (reflexivity || (intros _; reflexivity)).
  cbn [app].
  assert (Hs : forall M E,
             advance M E
               {| messages := messages (log (EvFetch (chat_request s)) (submitted s));
                  input := input (log (EvFetch (chat_request s)) (submitted s));
                  isLoading := isLoading (log (EvFetch (chat_request s)) (submitted s));
                  chatStarted := chatStarted (log (EvFetch (chat_request s)) (submitted s));
                  threadId := threadId (log (EvFetch (chat_request s)) (submitted s));
                  threads := threads (log (EvFetch (chat_request s)) (submitted s));
                  isLoadingThreads :=
                    isLoadingThreads (log (EvFetch (chat_request s)) (submitted s));
                  trace := trace (log (EvFetch (chat_request s)) (submitted s));
                  draws := draws (log (EvFetch (chat_request s)) (submitted s));
                  ticks := S (ticks (log (EvFetch (chat_request s)) (submitted s))) |}
             = advance M E (reading s)).
  { intros M E. unfold advance, reading. cbn. rewrite <- !app_assoc. reflexivity. }
  rewrite Hs. fold s3.
  destruct (ending reader); reflexivity.
Qed.

Lemma map_last_assistant_attach (rt : Z) (c : jsstring) (base : list Message) :
  map_last_assistant (with_responseTime rt) (streamed base c)
  = base ++ [{| role := assistant; content := c; responseTime := Some rt |}].
Proof. unfold streamed. rewrite map_last_assistant_snoc. reflexivity. Qed.

(** A response whose body is read: the whole run, for both ways the stream
    can end. *)
Lemma handleSubmit_stream (w : world) (s : state) (reader : body_stream) :
  accepts s ->
  chat_reply w s = Resolved true (Some reader) ->
  let base := messages s ++ [userMessage s] in
  let cs := contents [] false (fragments reader) in
  let body := loop_body base (fragments reader) [] false in
  exists rt,
    match ending reader with
    | StreamDone =>
        exists post,
          trace (handleSubmit w s)
          = trace s ++ [EvMessages base; EvFetch (chat_request s)] ++ body
              ++ [EvRead None; EvMessages (completed base cs rt)] ++ post
          /\ message_values post = []
          /\ messages (handleSubmit w s) = completed base cs rt
    | StreamError err =>
        trace (handleSubmit w s)
        = trace s ++ [EvMessages base; EvFetch (chat_request s)] ++ body
            ++ [EvReadError err; EvConsole (lit "Error:") err;
                EvMessages (interrupted base cs rt)]
        /\ messages (handleSubmit w s) = interrupted base cs rt
    end.
Proof.
  intros Hacc Hreply base cs body.
  rewrite (handleSubmit_stream_eq w s reader Hacc Hreply). fold base.
  rewrite loop_events_body. fold body.
  assert (Hlast : last cs = if nonblank (concat (fragments reader))
                            then Some (concat (fragments reader)) else None).
  { unfold cs. rewrite contents_last by reflexivity. reflexivity. }
  unfold loop_messages. cbn [orb].
  destruct (ending reader) as [| err]; cbn [end_event].
  - exists (now w (S (ticks s)) - now w (ticks s)).
    match goal with
    | |- context [fetchThreads w ?s1] =>
        destruct (fetchThreads_frame w s1) as (Hm & _ & _ & post & Ht & Hv)
    end.
    exists post. cbn [setIsLoading trace messages]. rewrite Ht, Hm.
    rewrite setMessages_advance. cbn [advance trace messages reading].
    unfold completed. rewrite Hlast.
    destruct (nonblank (concat (fragments reader))).
    + rewrite map_last_assistant_attach.
      split; [| split; [exact Hv | reflexivity]].
      fold base. rewrite <- !app_assoc. reflexivity.
    + rewrite (map_last_assistant_user _ (messages s) (userMessage s) eq_refl).
      split; [| split; [exact Hv | reflexivity]].
      fold base. rewrite <- !app_assoc. reflexivity.
  - exists (now w (S (S (ticks s))) - now w (ticks s)).
    unfold submit_catch, console_error, Date_now.
    cbn [setIsLoading setMessages log advance trace messages reading ticks].
    unfold interrupted. rewrite Hlast. fold base.
    destruct (nonblank (concat (fragments reader)));
      (split; [rewrite <- !app_assoc; reflexivity | reflexivity]).
Qed.

(** C8. When the input is empty or all white space, or a request is already
    in flight, [handleSubmit] returns at once: the whole state is unchanged
    (message list, input text, thread list, loading flag) and no request is
    issued. *)
Theorem handleSubmit_guard_returns_unchanged (w : world) (s : state)
    (H : blank (input s) \/ isLoading s = true) :
  handleSubmit w s = s
  /\ requests_of (trace (handleSubmit w s)) = requests_of (trace s)
  /\ messages (handleSubmit w s) = messages s
  /\ input (handleSubmit w s) = input s
  /\ threads (handleSubmit w s) = threads s
  /\ isLoading (handleSubmit w s) = isLoading s.
Proof.
  rewrite (handleSubmit_rejects w s H). repeat split; reflexivity.
Qed.

Lemma spaces_blank : blank (input Samples.spaces).
Proof. repeat constructor. Defined.

Lemma handleSubmit_guard_returns_unchanged_witness :
  handleSubmit Samples.quiet_world Samples.spaces = Samples.spaces
  /\ handleSubmit Samples.quiet_world Samples.busy = Samples.busy.
Proof.
  split.
  - exact (proj1 (handleSubmit_guard_returns_unchanged
                    Samples.quiet_world Samples.spaces (or_introl spaces_blank))).
  - exact (proj1 (handleSubmit_guard_returns_unchanged
                    Samples.quiet_world Samples.busy (or_intror eq_refl))).
Defined.

(** C5. When the fetch rejects, the response is not ok, or the response has
    no body, [handleSubmit] appends after the user's message exactly one
    assistant message, whose content is the fixed sentence; the error detail
    is written to the console and nowhere else: the only new events are the
    two updates of the message list, the request and one console entry. *)
Theorem handleSubmit_failure_fixed_message (w : world) (s : state)
    (detail : jsstring)
    (Hacc : accepts s)
    (Hfail : failure_detail (chat_reply w s) = Some detail) :
  exists rt,
    messages (handleSubmit w s)
    = messages s ++ [userMessage s;
                     {| role := assistant;
                        content := lit "Sorry, there was an error processing your message.";
                        responseTime := Some rt |}]
    /\ trace (handleSubmit w s)
       = trace s ++ [EvMessages (messages s ++ [userMessage s]);
                     EvFetch (chat_request s);
                     EvConsole (lit "Error:") detail;
                     EvMessages (messages s ++ [userMessage s; apology rt])].
Proof.
  destruct (handleSubmit_failure w s detail Hacc Hfail) as (rt & Hm & Ht & _).
  exists rt. split; [exact Hm | exact Ht].
Qed.

Lemma fresh_accepts : accepts Samples.fresh.
Proof.
  split; [| reflexivity].
  intros Hb. apply blank_nonblank in Hb. vm_compute in Hb. discriminate.
Defined.

Lemma offline_failure :
  failure_detail (chat_reply Samples.offline_world Samples.fresh)
  = Some (lit "TypeError: Failed to fetch").
Proof. reflexivity. Defined.

Lemma handleSubmit_failure_fixed_message_witness :
  accepts Samples.fresh
  /\ failure_detail (chat_reply Samples.offline_world Samples.fresh)
     = Some (lit "TypeError: Failed to fetch")
  /\ exists rt,
       messages (handleSubmit Samples.offline_world Samples.fresh)
       = messages Samples.fresh
           ++ [userMessage Samples.fresh;
               {| role := assistant;
                  content := lit "Sorry, there was an error processing your message.";
                  responseTime := Some rt |}]
       /\ trace (handleSubmit Samples.offline_world Samples.fresh)
          = trace Samples.fresh
              ++ [EvMessages (messages Samples.fresh ++ [userMessage Samples.fresh]);
                  EvFetch (chat_request Samples.fresh);
                  EvConsole (lit "Error:") (lit "TypeError: Failed to fetch");
                  EvMessages (messages Samples.fresh
                                ++ [userMessage Samples.fresh; apology rt])].
Proof.
  split; [exact fresh_accepts |]. split; [exact offline_failure |].
  exact (handleSubmit_failure_fixed_message Samples.offline_world Samples.fresh
           (lit "TypeError: Failed to fetch") fresh_accepts offline_failure).
Defined.

Lemma contents_blank :
  forall chunks acc,
    nonblank (acc ++ concat chunks) = false -> contents acc false chunks = [].
Proof.
  induction chunks as [| v rest IH]; intros acc Hb; [reflexivity |].
  cbn [contents orb concat] in *. rewrite app_assoc in Hb.
  pose proof Hb as Hb'. rewrite nonblank_app in Hb'.
  apply orb_false_iff in Hb'. destruct Hb' as [Hv _]. rewrite Hv.
  apply IH. exact Hb.
Qed.

Lemma silent_reply :
  chat_reply Samples.silent_world Samples.fresh
  = Resolved true
      (Some {| fragments := [lit " "; []; lit "  "]; ending := StreamDone |}).
Proof. reflexivity. Defined.

Lemma silent_blank : blank (concat [lit " "; []; lit "  "]).
Proof. repeat constructor. Defined.

Lemma message_values_split (tr : list event) (ms : list Message) :
  ms ∈ message_values tr ->
  exists pre post, tr = pre ++ EvMessages ms :: post.
Proof.
  unfold message_values. rewrite list_elem_of_omap.
  intros (e & He & Hf). destruct e; try discriminate. injection Hf as ->.
  apply list_elem_of_split in He. exact He.
Qed.

Lemma quiet_reply :
  chat_reply Samples.quiet_world Samples.fresh
  = Resolved true
      (Some {| fragments := [lit " "; lit "Ath"; lit "ens"]; ending := StreamDone |}).
Proof. reflexivity. Defined.

Lemma quiet_text : ~ blank (concat [lit " "; lit "Ath"; lit "ens"]).
Proof.
  intros Hb. apply blank_nonblank in Hb. vm_compute in Hb. discriminate.
Defined.

(** ** Order of the messages *)

Lemma answers_after_streamed (base : list Message) (cs : list jsstring) :
  Forall (answers_after base) (streamed base <$> cs).
Proof.
  apply Forall_fmap, Forall_forall. intros c _.
  eexists. split; [reflexivity |]. repeat constructor.
Qed.

Lemma answers_after_completed (base : list Message) cs rt :
  answers_after base (completed base cs rt).
Proof.
  unfold completed. destruct (last cs).
  - eexists. split; [reflexivity |]. repeat constructor.
  - exists []. rewrite app_nil_r. split; [reflexivity | constructor].
Qed.

Lemma answers_after_interrupted (base : list Message) cs rt :
  answers_after base (interrupted base cs rt).
Proof.
  unfold interrupted, streamed. destruct (last cs).
  - eexists. rewrite <- app_assoc. split; [reflexivity |]. repeat constructor.
  - eexists. split; [reflexivity |]. repeat constructor.
Qed.

Lemma render_messages_lookup (ms : list Message) (i : nat) :
  render_messages ms !! i = render_message i <$> ms !! i.
Proof. unfold render_messages. apply list_lookup_imap. Qed.

Lemma render_messages_keys (ms : list Message) :
  key <$> render_messages ms = seq 0 (length ms).
Proof.
  apply list_eq. intros i.
  rewrite list_lookup_fmap, render_messages_lookup.
  destruct (ms !! i) as [m |] eqn:Hi; cbn.
  - symmetry. apply lookup_seq. split; [reflexivity |].
    apply lookup_lt_Some in Hi. exact Hi.
  - symmetry. apply lookup_ge_None. rewrite length_seq.
    apply lookup_ge_None in Hi. exact Hi.
Qed.

Lemma render_messages_texts (ms : list Message) :
  text <$> render_messages ms = content <$> ms.
Proof.
  apply list_eq. intros i.
  rewrite !list_lookup_fmap, render_messages_lookup.
  destruct (ms !! i); reflexivity.
Qed.

(** C6. In every run of [handleSubmit] that passes the guard, the first thing
    the run does is append the user's message; every later value of the
    message list, and the final one, is that list followed by assistant
    messages only, so the user's message sits below every assistant content
    of the request.  The page renders the messages by ascending list index:
    the bubble with key [i] shows the message at index [i]. *)
Theorem handleSubmit_user_message_first (w : world) (s : state)
    (Hacc : accepts s) :
  let base := messages s ++ [userMessage s] in
  (exists evs,
     trace (handleSubmit w s) = trace s ++ EvMessages base :: evs
     /\ Forall (answers_after base) (message_values evs))
  /\ answers_after base (messages (handleSubmit w s))
  /\ (forall ms : list Message,
        key <$> render_messages ms = seq 0 (length ms)
        /\ text <$> render_messages ms = content <$> ms
        /\ forall i : nat, render_messages ms !! i = render_message i <$> ms !! i).
Proof.
  intros base.
  assert (Hrun : exists evs,
             trace (handleSubmit w s) = trace s ++ EvMessages base :: evs
             /\ Forall (answers_after base) (message_values evs)
             /\ answers_after base (messages (handleSubmit w s))).
  { destruct (failure_detail (chat_reply w s)) as [detail |] eqn:Hf.
    - destruct (handleSubmit_failure w s detail Hacc Hf) as (rt & Hm & Ht & _).
      assert (Ha : answers_after base (messages s ++ [userMessage s; apology rt])).
      { exists [apology rt]. unfold base. rewrite <- app_assoc.
        split; [reflexivity |]. repeat constructor. }
      eexists. split; [exact Ht |]. rewrite Hm. split; [| exact Ha].
      cbn. repeat constructor. exact Ha.
    - destruct (chat_reply w s) as [err | [|] [reader |]] eqn:Hr;
        cbn in Hf; try discriminate.
      destruct (handleSubmit_stream w s reader Hacc Hr) as (rt & Hrun).
      fold base in Hrun.
      destruct (ending reader) as [| err].
      + destruct Hrun as (post & Ht & Hv & Hm).
        eexists. split; [exact Ht |]. rewrite Hm.
        split; [| apply answers_after_completed].
        change (Forall (answers_after base)
                  (message_values
                     (loop_body base (fragments reader) [] false
                        ++ [EvRead None;
                            EvMessages
                              (completed base
                                 (contents [] false (fragments reader)) rt)]
                        ++ post))).
        rewrite !message_values_app, loop_body_values, Hv.
        apply Forall_app. split; [apply answers_after_streamed |].
        cbn. repeat constructor. apply answers_after_completed.
      + destruct Hrun as (Ht & Hm).
        eexists. split; [exact Ht |]. rewrite Hm.
        split; [| apply answers_after_interrupted].
        change (Forall (answers_after base)
                  (message_values
                     (loop_body base (fragments reader) [] false
                        ++ [EvReadError err; EvConsole (lit "Error:") err;
                            EvMessages
                              (interrupted base
                                 (contents [] false (fragments reader)) rt)]))).
        rewrite !message_values_app, loop_body_values.
        apply Forall_app. split; [apply answers_after_streamed |].
        cbn. repeat constructor. apply answers_after_interrupted. }
  destruct Hrun as (evs & Ht & Hv & Hm).
  split; [exists evs; auto |]. split; [exact Hm |].
  intros ms. split; [apply render_messages_keys |].
  split; [apply render_messages_texts |]. intros i. apply render_messages_lookup.
Qed.

Lemma handleSubmit_user_message_first_witness :
  answers_after (messages Samples.fresh ++ [userMessage Samples.fresh])
                (messages (handleSubmit Samples.quiet_world Samples.fresh)).
Proof.
  exact (proj1 (proj2 (handleSubmit_user_message_first
                         Samples.quiet_world Samples.fresh fresh_accepts))).
Defined.

(** ** handleNewChat and createThread on the thread list *)

Lemma filter_on_iff {A} (P Q : A -> Prop) `{!forall x, Decision (P x)}
    `{!forall x, Decision (Q x)} (l : list A) :
  (forall x, x ∈ l -> (P x <-> Q x)) -> filter P l = filter Q l.
Proof.
  induction l as [| x l IH]; intros Hiff; [reflexivity |].
  rewrite !filter_cons.
  assert (Hx : P x <-> Q x) by (apply Hiff; apply list_elem_of_here).
  assert (Hl : filter P l = filter Q l).
  { apply IH. intros y Hy. apply Hiff. apply list_elem_of_further. exact Hy. }
  destruct (decide (P x)), (decide (Q x)); rewrite ?Hl; tauto.
Qed.

Lemma filter_keep_all {A} (P : A -> Prop) `{!forall x, Decision (P x)}
    (l : list A) :
  Forall P l -> filter P l = l.
Proof.
  induction 1 as [| x l Hx Hl IH]; [reflexivity |].
  rewrite filter_cons_True by exact Hx. f_equal. exact IH.
Qed.

Lemma advance_nothing (s : state) : advance (messages s) [] s = s.
Proof. destruct s. unfold advance. cbn. rewrite app_nil_r. reflexivity. Qed.

Lemma delete_loop_spec (w : world) :
  forall (doomed : list Thread) (s : state),
    exists evs,
      foldl (delete_empty w) s doomed = advance (messages s) evs s
      /\ requests_of evs = delete_request <$> doomed.
Proof.
  induction doomed as [| t rest IH]; intros s.
  - exists []. split; [symmetry; apply advance_nothing | reflexivity].
  - cbn [foldl].
    assert (Hone : exists ev1, delete_empty w s t = advance (messages s) ev1 s
                               /\ requests_of ev1 = [delete_request t]).
    { unfold delete_empty, fetch.
      destruct (delete_thread w _) as [err | ok u].
      - eexists [_; _]. split.
        + unfold console_error. rewrite !log_advance, advance_advance. reflexivity.
        + reflexivity.
      - eexists [_]. split.
        + rewrite log_advance. reflexivity.
        + reflexivity. }
    destruct Hone as (ev1 & -> & Hr1).
    destruct (IH (advance (messages s) ev1 s)) as (evs & -> & Hrs).
    exists (ev1 ++ evs). rewrite advance_advance. split; [reflexivity |].
    rewrite requests_of_app, Hr1, Hrs. reflexivity.
Qed.

Lemma delete_empty_threads_spec (w : world) (s : state) :
  let doomed := filter is_empty_thread (threads s) in
  exists evs,
    trace (delete_empty_threads w s) = trace s ++ evs
    /\ requests_of evs = delete_request <$> doomed
    /\ threads (delete_empty_threads w s)
       = filter (fun t => id t ∉ (id <$> doomed)) (threads s).
Proof.
  intros doomed. unfold delete_empty_threads.
  fold is_empty_thread. fold doomed.
  destruct (delete_loop_spec w doomed s) as (evs & -> & Hreq).
  destruct doomed as [| t rest] eqn:Hd.
  - exists evs. cbn [length Z.of_nat Z.ltb Z.compare].
    split; [reflexivity |]. split; [exact Hreq |].
    cbn [advance threads]. symmetry. apply filter_keep_all.
    apply Forall_forall. intros x _. cbn. apply not_elem_of_nil.
  - replace (0 <? Z.of_nat (length (t :: rest))) with true
      by (symmetry; apply Z.ltb_lt; cbn [length]; lia).
    eexists (evs ++ [_]). unfold setThreads. rewrite log_advance.
    cbn [advance trace threads messages].
    split; [rewrite app_assoc; reflexivity |].
    split; [rewrite requests_of_app, Hreq; cbn; rewrite app_nil_r; reflexivity |].
    apply list_filter_iff. intros x. rewrite elem_of_list_to_set. reflexivity.
Qed.

Lemma createThread_spec (w : world) (title : option jsstring) (s : state) :
  exists evs,
    trace (createThread w title s).2 = trace s ++ EvFetch (PostThreads title) :: evs
    /\ requests_of evs = []
    /\ threads (createThread w title s).2
       = match create_reply w title s with
         | Resolved true (JsonValue thread) => thread :: threads s
         | _ => threads s
         end.
Proof.
  unfold createThread, fetch, create_reply. cbn [log trace].
  rewrite requests_of_snoc.
  destruct (post_threads w _) as [err | [|] [err | thread]];
    try match goal with
        | |- context [generateUUID w ?s1] =>
            destruct (generateUUID_state w s1) as [n ->]
        end;
    unfold console_error;
    cbn [fst snd with_draws setThreads log trace threads];
    rewrite <- ?app_assoc; eexists; (split; [reflexivity | split; reflexivity]).
Qed.

Lemma handleNewChat_spec (w : world) (s : state) :
  let doomed := filter is_empty_thread (threads s) in
  let kept := filter (fun t => id t ∉ (id <$> doomed)) (threads s) in
  requests_of (trace (handleNewChat w s))
  = requests_of (trace s) ++ (delete_request <$> doomed) ++ [PostThreads None]
  /\ threads (delete_empty_threads w s) = kept
  /\ threads (handleNewChat w s)
     = match create_reply w None (delete_empty_threads w s) with
       | Resolved true (JsonValue thread) => thread :: kept
       | _ => kept
       end.
Proof.
  intros doomed kept.
  destruct (delete_empty_threads_spec w s) as (evs & Ht & Hr & Hts).
  fold doomed in Hr, Hts. fold kept in Hts.
  destruct (createThread_spec w None (delete_empty_threads w s))
    as (evs' & Ht' & Hr' & Hts').
  unfold handleNewChat.
  destruct (createThread w None (delete_empty_threads w s)) as [newId s1].
  cbn [snd] in *.
  cbn [setThreadId setChatStarted setIsLoading setInput setMessages log trace threads].
  rewrite Ht', Ht, Hts', Hts. split; [| split; reflexivity].
  rewrite <- !app_assoc, !requests_of_app, Hr.
  change (requests_of (EvFetch (PostThreads None) :: evs'))
    with (PostThreads None :: requests_of evs').
  rewrite Hr'. reflexivity.
Qed.

(** The removal is by id: it coincides with dropping the threads without
    messages as soon as no thread that has messages shares its id with one
    that has none. *)
Lemma handleNewChat_ids_apart (w : world) (s : state)
    (Hids : forall t, t ∈ threads s -> ~ is_empty_thread t ->
                      id t ∉ (id <$> filter is_empty_thread (threads s))) :
  let doomed := filter is_empty_thread (threads s) in
  let kept := filter (fun t => ~ is_empty_thread t) (threads s) in
  requests_of (trace (handleNewChat w s))
  = requests_of (trace s) ++ (delete_request <$> doomed) ++ [PostThreads None]
  /\ threads (delete_empty_threads w s) = kept
  /\ threads (handleNewChat w s)
     = match create_reply w None (delete_empty_threads w s) with
       | Resolved true (JsonValue thread) => thread :: kept
       | _ => kept
       end
  /\ (length kept + length doomed = length (threads s))%nat.
Proof.
  intros doomed kept.
  destruct (handleNewChat_spec w s) as (Hreq & Hdel & Hnew).
  fold doomed in Hreq, Hdel, Hnew.
  assert (Hkept : filter (fun t => id t ∉ (id <$> doomed)) (threads s) = kept).
  { apply filter_on_iff. intros t Ht. split.
    - intros Hnot Hempty. apply Hnot. apply list_elem_of_fmap_2.
      apply list_elem_of_filter. split; assumption.
    - intros Hne. apply Hids; assumption. }
  rewrite Hkept in Hdel, Hnew.
  split; [exact Hreq |]. split; [exact Hdel |]. split; [exact Hnew |].
  unfold kept, doomed. clear.
  induction (threads s) as [| t l IH]; [reflexivity |].
  rewrite !filter_cons.
  destruct (decide (is_empty_thread t)), (decide (~ is_empty_thread t));
    cbn [length]; try tauto; lia.
Qed.

Lemma NoDup_fmap_eq {A B} (f : A -> B) (l : list A) (x y : A) :
  NoDup (f <$> l) -> x ∈ l -> y ∈ l -> f x = f y -> x = y.
Proof.
  induction l as [| a l IH]; intros Hnd Hx Hy Hf.
  - apply elem_of_nil in Hx. contradiction.
  - cbn [fmap list_fmap] in Hnd. apply NoDup_cons in Hnd.
    destruct Hnd as [Hnin Hnd].
    apply elem_of_cons in Hx. apply elem_of_cons in Hy.
    destruct Hx as [-> | Hx], Hy as [-> | Hy].
    + reflexivity.
    + exfalso. apply Hnin. rewrite Hf. apply list_elem_of_fmap_2. exact Hy.
    + exfalso. apply Hnin. rewrite <- Hf. apply list_elem_of_fmap_2. exact Hx.
    + apply IH; assumption.
Qed.

(** C2. For a thread list whose ids are distinct (an id identifies a
    thread), [handleNewChat] sends one DELETE request per thread with
    [message_count = 0], in list order and for no other thread, then exactly
    one creation request, after all the deletions; the threads with
    [message_count = 0], and only they, are removed from the local list,
    which keeps the others in order (with the created thread in front when
    the creation succeeds). *)
Theorem handleNewChat_deletes_empty_threads (w : world) (s : state)
    (Hids : NoDup (id <$> threads s)) :
  let doomed := filter is_empty_thread (threads s) in
  let kept := filter (fun t => ~ is_empty_thread t) (threads s) in
  requests_of (trace (handleNewChat w s))
  = requests_of (trace s) ++ (delete_request <$> doomed) ++ [PostThreads None]
  /\ threads (delete_empty_threads w s) = kept
  /\ threads (handleNewChat w s)
     = match create_reply w None (delete_empty_threads w s) with
       | Resolved true (JsonValue thread) => thread :: kept
       | _ => kept
       end
  /\ (length kept + length doomed = length (threads s))%nat.
Proof.
  apply handleNewChat_ids_apart.
  intros t Ht Hfull Hin.
  apply list_elem_of_fmap in Hin. destruct Hin as (e & Hid & He).
  apply list_elem_of_filter in He. destruct He as [Hempty He].
  apply Hfull.
  rewrite (NoDup_fmap_eq id (threads s) t e Hids Ht He Hid). exact Hempty.
Qed.

(** C7. [createThread] prepends the created thread to the thread list; when
    the list is ordered by descending [updated_at] and the created thread is
    at least as recent as every thread in it, the list stays ordered.  When
    no thread is created the list is unchanged. *)
Theorem createThread_keeps_recent_first (w : world) (title : option jsstring)
    (s : state)
    (Hsorted : recent_first (threads s))
    (Hnew : forall thread,
        create_reply w title s = Resolved true (JsonValue thread) ->
        Forall (fun t => updated_at t <= updated_at thread) (threads s)) :
  recent_first (threads (createThread w title s).2)
  /\ (forall thread,
        create_reply w title s = Resolved true (JsonValue thread) ->
        threads (createThread w title s).2 = thread :: threads s).
Proof.
  destruct (createThread_spec w title s) as (evs & _ & _ & Hts).
  rewrite Hts.
  destruct (create_reply w title s) as [err | [|] [err | thread]];
    try (split; [exact Hsorted | intros ? ?; discriminate]).
  split.
  - constructor; [exact Hsorted |].
    specialize (Hnew thread eq_refl).
    destruct Hnew as [| t l Ht _]; constructor. exact Ht.
  - intros thread' Heq. injection Heq as <-. reflexivity.
Qed.

Lemma sidebar_distinct : NoDup (id <$> threads Samples.sidebar).
Proof. refine (bool_decide_unpack _ _). vm_compute. exact I. Defined.

Lemma handleNewChat_deletes_empty_threads_witness :
  requests_of (trace (handleNewChat Samples.server_world Samples.sidebar))
  = requests_of (trace Samples.sidebar)
      ++ (delete_request <$> filter is_empty_thread (threads Samples.sidebar))
      ++ [PostThreads None].
Proof.
  exact (proj1 (handleNewChat_deletes_empty_threads
                  Samples.server_world Samples.sidebar sidebar_distinct)).
Defined.

Example handleNewChat_sidebar :
  requests_of (trace (handleNewChat Samples.server_world Samples.sidebar))
  = [DeleteThread (lit "t3"); DeleteThread (lit "t1"); PostThreads None]
  /\ threads (handleNewChat Samples.server_world Samples.sidebar)
     = [Samples.thread_row "t4" 400 0; Samples.thread_row "t2" 200 2].
Proof. split; vm_compute; reflexivity. Qed.

(** Rows that share an id (a list the server does not send): the removal
    is by id, so the row with messages that has the id of the empty one
    leaves the list with it. *)
Example handleNewChat_twins :
  filter is_empty_thread (threads Samples.twins) = [Samples.thread_row "a" 200 0]
  /\ threads (delete_empty_threads Samples.quiet_world Samples.twins)
     = [Samples.thread_row "b" 50 1].
Proof. split; vm_compute; reflexivity. Qed.

Lemma sidebar_recent_first : recent_first (threads Samples.sidebar).
Proof.
  unfold recent_first. cbn [threads Samples.sidebar].
  repeat (constructor; cbn; try lia).
Defined.

Lemma sidebar_older :
  forall thread,
    create_reply Samples.server_world None Samples.sidebar
    = Resolved true (JsonValue thread) ->
    Forall (fun t => updated_at t <= updated_at thread) (threads Samples.sidebar).
Proof.
  intros thread Heq. injection Heq as <-.
  cbn [threads Samples.sidebar]. repeat (constructor; cbn; try lia).
Defined.

Lemma createThread_keeps_recent_first_witness :
  recent_first (threads (createThread Samples.server_world None Samples.sidebar).2).
Proof.
  exact (proj1 (createThread_keeps_recent_first
                  Samples.server_world None Samples.sidebar
                  sidebar_recent_first sidebar_older)).
Defined.

(** * The rest of the component: proofs *)

(** ** fetchThreads *)

Lemma fetchThreads_eq (w : world) (s : state) :
  fetchThreads w s
  = {| messages := messages s; input := input s; isLoading := isLoading s;
       chatStarted := chatStarted s; threadId := threadId s;
       threads := match refresh_reply w s with
                  | Resolved true (JsonValue data) => data
                  | _ => threads s
                  end;
       isLoadingThreads := false;
       trace := trace s ++ EvFetch GetThreads ::
                  match refresh_reply w s with
                  | Resolved true (JsonValue data) => [EvThreads data]
                  | Resolved true (JsonError err) =>
                      [EvConsole (lit "Failed to fetch threads:") err]
                  | Rejected err =>
                      [EvConsole (lit "Failed to fetch threads:") err]
                  | Resolved false _ => []
                  end;
       draws := draws s; ticks := ticks s |}.
Proof.
  unfold fetchThreads, fetch, refresh_reply.
  cbn [setIsLoadingThreads log trace]. rewrite requests_of_snoc.
  destruct (get_threads w _) as [err | [|] [err | data]];
    unfold console_error, setThreads, setIsLoadingThreads, log;
    cbn [trace messages input isLoading chatStarted
         threadId threads isLoadingThreads draws ticks];
    rewrite <- ?app_assoc; reflexivity.
Qed.

(** X1. Whatever the refresh request does (rejects, answers not ok, answers
    with unreadable JSON, answers with a list), [fetchThreads] ends with the
    loading flag of the sidebar cleared, has sent exactly one GET /threads and
    has left the conversation alone; the thread list is the server's list
    when the answer is ok and readable and is unchanged otherwise. *)
Theorem fetchThreads_settles (w : world) (s : state) :
  isLoadingThreads (fetchThreads w s) = false
  /\ requests_of (trace (fetchThreads w s)) = requests_of (trace s) ++ [GetThreads]
  /\ threads (fetchThreads w s)
     = match refresh_reply w s with
       | Resolved true (JsonValue data) => data
       | _ => threads s
       end
  /\ messages (fetchThreads w s) = messages s
  /\ input (fetchThreads w s) = input s
  /\ isLoading (fetchThreads w s) = isLoading s
  /\ threadId (fetchThreads w s) = threadId s
  /\ chatStarted (fetchThreads w s) = chatStarted s.
Proof.
  rewrite fetchThreads_eq. cbn [isLoadingThreads trace threads messages input
                                isLoading threadId chatStarted].
  repeat split.
  rewrite requests_of_app.
  destruct (refresh_reply w s) as [err | [|] [err | data]]; reflexivity.
Qed.

(** ** handleSubmit: every outcome *)

Lemma state_ext (s1 s2 : state) :
  messages s1 = messages s2 -> input s1 = input s2 ->
  isLoading s1 = isLoading s2 -> chatStarted s1 = chatStarted s2 ->
  threadId s1 = threadId s2 -> threads s1 = threads s2 ->
  isLoadingThreads s1 = isLoadingThreads s2 -> trace s1 = trace s2 ->
  draws s1 = draws s2 -> ticks s1 = ticks s2 -> s1 = s2.
Proof.
  destruct s1, s2. cbn. intros. subst. reflexivity.
Qed.

Lemma handleSubmit_failure_eq (w : world) (s : state) :
  accepts s ->
  match chat_reply w s with
  | Rejected err => handleSubmit w s = failed_submit w s err 1
  | Resolved false _ =>
      handleSubmit w s = failed_submit w s (lit "Failed to get response") 2
  | Resolved true None =>
      handleSubmit w s = failed_submit w s (lit "No response body") 2
  | Resolved true (Some _) => True
  end.
Proof.
  intros Hacc. rewrite (handleSubmit_accepts w s Hacc).
  unfold submit_try, fetch. fold (chat_request s). rewrite submitted_reply.
  destruct (chat_reply w s) as [err | [|] [reader |]]; try exact I;
    apply state_ext; cbn -[lit Z.sub now]; rewrite <- ?app_assoc; reflexivity.
Qed.

Lemma loop_events_requests (base : list Message) (fin : stream_end) :
  forall chunks acc added,
    requests_of (loop_events base chunks fin acc added) = [].
Proof.
  induction chunks as [| v rest IH]; intros acc added; cbn [loop_events].
  - destruct fin; reflexivity.
  - destruct (added || nonblank (acc ++ v));
      unfold requests_of; cbn [omap list_omap]; apply IH.
Qed.

Lemma handleSubmit_outcome_eq (w : world) (s : state) :
  accepts s ->
  handleSubmit w s
  = match chat_reply w s with
    | Rejected err => failed_submit w s err 1
    | Resolved false _ => failed_submit w s (lit "Failed to get response") 2
    | Resolved true None => failed_submit w s (lit "No response body") 2
    | Resolved true (Some reader) =>
        setIsLoading false
          match ending reader with
          | StreamDone =>
              fetchThreads w
                (setMessages
                   (map_last_assistant
                      (with_responseTime (now w (S (ticks s)) - now w (ticks s))))
                   (streamed_state s reader))
          | StreamError err =>
              submit_catch w (now w (ticks s)) err (streamed_state s reader)
          end
    end.
Proof.
  intros Hacc. pose proof (handleSubmit_failure_eq w s Hacc) as Hf.
  destruct (chat_reply w s) as [err | [|] [reader |]] eqn:Hr; try exact Hf.
  apply (handleSubmit_stream_eq w s reader Hacc Hr).
Qed.

Lemma requests_of_cons_messages (ms : list Message) (tr : list event) :
  requests_of (EvMessages ms :: tr) = requests_of tr.
Proof. reflexivity. Qed.

Lemma streamed_state_frame (s : state) (reader : body_stream) :
  input (streamed_state s reader) = []
  /\ isLoading (streamed_state s reader) = true
  /\ chatStarted (streamed_state s reader) = true
  /\ threadId (streamed_state s reader) = threadId s
  /\ threads (streamed_state s reader) = threads s
  /\ isLoadingThreads (streamed_state s reader) = isLoadingThreads s
  /\ draws (streamed_state s reader) = draws s
  /\ ticks (streamed_state s reader) = S (S (ticks s))
  /\ requests_of (trace (streamed_state s reader))
     = requests_of (trace s) ++ [chat_request s].
Proof.
  unfold streamed_state, advance, reading.
  cbn [input isLoading chatStarted threadId threads isLoadingThreads draws
       ticks trace].
  repeat split.
  rewrite !requests_of_app, loop_events_requests, app_nil_r. reflexivity.
Qed.

Lemma handleSubmit_settles_aux (w : world) (s : state) :
  accepts s ->
  isLoading (handleSubmit w s) = false
  /\ input (handleSubmit w s) = []
  /\ chatStarted (handleSubmit w s) = true
  /\ threadId (handleSubmit w s) = threadId s
  /\ draws (handleSubmit w s) = draws s.
Proof.
  intros Hacc.
  rewrite (handleSubmit_outcome_eq w s Hacc).
  destruct (chat_reply w s) as [err | [|] [reader |]];
    try (cbn [failed_submit isLoading input chatStarted threadId draws];
         repeat split; reflexivity).
  destruct (streamed_state_frame s reader)
    as (Hin & Hl & Hc & Hid & Hts & Hlt & Hd & Htk & Hreq).
  destruct (ending reader) as [| err].
  - rewrite fetchThreads_eq.
    cbn [setIsLoading setMessages log isLoading input chatStarted threadId draws].
    repeat split; assumption.
  - unfold submit_catch, console_error, Date_now.
    cbn [setIsLoading setMessages log isLoading input chatStarted threadId draws].
    repeat split; assumption.
Qed.


Lemma handleSubmit_requests_aux (w : world) (s : state) :
  accepts s ->
  requests_of (trace (handleSubmit w s))
  = requests_of (trace s)
      ++ PostChat (input s) (threadId s)
      :: (if stream_completed (chat_reply w s) then [GetThreads] else []).
Proof.
  intros Hacc.
  rewrite (handleSubmit_outcome_eq w s Hacc). unfold stream_completed.
  destruct (chat_reply w s) as [err | [|] [reader |]];
    try (cbn [failed_submit trace]; rewrite requests_of_app; reflexivity).
  destruct (streamed_state_frame s reader)
    as (Hin & Hl & Hc & Hid & Hts & Hlt & Hd & Htk & Hreq).
  destruct (ending reader) as [| err].
  - rewrite fetchThreads_eq. cbn [setIsLoading trace].
    rewrite requests_of_app.
    cbn [setMessages log trace]. rewrite requests_of_app, Hreq.
    rewrite <- !app_assoc. f_equal. cbn [app]. f_equal.
    match goal with
    | |- context [refresh_reply w ?x] =>
        destruct (refresh_reply w x) as [e | [|] [e | data]]
    end; reflexivity.
  - unfold submit_catch, console_error, Date_now.
    cbn [setIsLoading setMessages log trace].
    rewrite !requests_of_app, Hreq.
    change (requests_of [EvConsole (lit "Error:") err]) with (@nil request).
    match goal with
    | |- context [requests_of [EvMessages ?m]] =>
        change (requests_of [EvMessages m]) with (@nil request)
    end.
    rewrite !app_nil_r. reflexivity.
Qed.

(** X3. An accepted submission sends exactly one POST /chat, carrying the
    text of the input box and the current thread id; a GET /threads follows
    when, and only when, the response was ok and its body was read to the
    end.  No other request is sent. *)
Theorem handleSubmit_requests (w : world) (s : state) (Hacc : accepts s) :
  requests_of (trace (handleSubmit w s))
  = requests_of (trace s)
      ++ PostChat (input s) (threadId s)
      :: (if stream_completed (chat_reply w s) then [GetThreads] else []).
Proof. exact (handleSubmit_requests_aux w s Hacc). Qed.




Lemma handleSubmit_requests_witness :
  requests_of (trace (handleSubmit Samples.quiet_world Samples.fresh))
  = requests_of (trace Samples.fresh)
      ++ PostChat (input Samples.fresh) (threadId Samples.fresh)
      :: (if stream_completed (chat_reply Samples.quiet_world Samples.fresh)
          then [GetThreads] else []).
Proof.
  exact (handleSubmit_requests Samples.quiet_world Samples.fresh fresh_accepts).
Defined.

(** X6. The submit button is disabled exactly when [handleSubmit] would
    return at once: a submit event with the button disabled changes nothing,
    and with the button enabled the chat request is sent. *)
Theorem submit_button_matches_guard (w : world) (s : state) :
  (submit_disabled s = true <-> blank (input s) \/ isLoading s = true)
  /\ (submit_disabled s = false <-> accepts s)
  /\ (submit_disabled s = true -> handleSubmit w s = s)
  /\ (submit_disabled s = false ->
      PostChat (input s) (threadId s)
      ∈ requests_of (trace (handleSubmit w s))).
Proof.
  unfold submit_disabled. fold (nonblank (input s)).
  assert (H1 : isLoading s || negb (nonblank (input s)) = true
               <-> blank (input s) \/ isLoading s = true).
  { rewrite blank_nonblank.
    destruct (isLoading s), (nonblank (input s)); cbn; intuition congruence. }
  assert (H2 : isLoading s || negb (nonblank (input s)) = false <-> accepts s).
  { unfold accepts. rewrite not_blank_nonblank.
    destruct (isLoading s), (nonblank (input s)); cbn; intuition congruence. }
  split; [exact H1 |]. split; [exact H2 |]. split.
  - intros Hd. apply handleSubmit_rejects, H1, Hd.
  - intros He. apply H2 in He.
    assert (Hreq := handleSubmit_requests_aux w s He).
    rewrite Hreq. apply elem_of_app. right. apply list_elem_of_here.
Qed.

Lemma spaces_disabled : submit_disabled Samples.spaces = true.
Proof. reflexivity. Defined.

Lemma submit_button_matches_guard_witness :
  handleSubmit Samples.quiet_world Samples.spaces = Samples.spaces.
Proof.
  exact (proj1 (proj2 (proj2 (submit_button_matches_guard
                               Samples.quiet_world Samples.spaces)))
           spaces_disabled).
Defined.

(** ** handleNewChat and deleteThread *)

Lemma advance_with_threads (evs : list event) (s : state) :
  advance (messages s) evs s = with_threads (threads s) evs s.
Proof. reflexivity. Qed.

Lemma delete_empty_threads_from_eq (rendered : list Thread) (w : world)
    (s : state) :
  let doomed := filter is_empty_thread rendered in
  exists evs,
    delete_empty_threads_from rendered w s
    = with_threads (filter (fun t => id t ∉ (id <$> doomed)) (threads s)) evs s
    /\ requests_of evs = delete_request <$> doomed.
Proof.
  intros doomed. unfold delete_empty_threads_from.
  fold is_empty_thread. fold doomed.
  destruct (delete_loop_spec w doomed s) as (evs & -> & Hreq).
  rewrite advance_with_threads.
  destruct doomed as [| t rest] eqn:Hd.
  - exists evs. cbn [length Z.of_nat Z.ltb Z.compare]. split; [| exact Hreq].
    f_equal. symmetry. apply filter_keep_all.
    apply Forall_forall. intros x _. cbn. apply not_elem_of_nil.
  - replace (0 <? Z.of_nat (length (t :: rest))) with true
      by (symmetry; apply Z.ltb_lt; cbn [length]; lia).
    eexists (evs ++ [_]). split.
    + unfold setThreads, log, with_threads.
      cbn [messages input isLoading chatStarted threadId threads
           isLoadingThreads trace draws ticks].
      rewrite <- app_assoc. f_equal.
      apply list_filter_iff. intros x. rewrite elem_of_list_to_set. reflexivity.
    + rewrite requests_of_app, Hreq. cbn. rewrite app_nil_r. reflexivity.
Qed.

Lemma createThread_frame (w : world) (title : option jsstring) (s : state) :
  isLoadingThreads (createThread w title s).2 = isLoadingThreads s
  /\ (forall thread,
        create_reply w title s = Resolved true (JsonValue thread) ->
        (createThread w title s).1 = id thread).
Proof.
  unfold createThread, fetch, create_reply. cbn [log trace].
  rewrite requests_of_snoc.
  destruct (post_threads w _) as [err | [|] [err | thread]];
    try match goal with
        | |- context [generateUUID w ?s1] =>
            destruct (generateUUID_state w s1) as [n ->]
        end;
    (split; [reflexivity | intros t [=]; subst; reflexivity]).
Qed.

Lemma handleNewChat_from_spec (rendered : list Thread) (w : world) (s : state) :
  let doomed := filter is_empty_thread rendered in
  let kept := filter (fun t => id t ∉ (id <$> doomed)) (threads s) in
  let before := delete_empty_threads_from rendered w s in
  let after := handleNewChat_from rendered w s in
  requests_of (trace after)
  = requests_of (trace s) ++ (delete_request <$> doomed) ++ [PostThreads None]
  /\ threads after
     = match create_reply w None before with
       | Resolved true (JsonValue thread) => thread :: kept
       | _ => kept
       end
  /\ messages after = [] /\ input after = [] /\ isLoading after = false
  /\ chatStarted after = false
  /\ isLoadingThreads after = isLoadingThreads s
  /\ (forall thread,
        create_reply w None before = Resolved true (JsonValue thread) ->
        threadId after = id thread).
Proof.
  intros doomed kept before after.
  destruct (delete_empty_threads_from_eq rendered w s) as (evs & Heq & Hr).
  fold doomed in Heq, Hr. fold kept in Heq. fold before in Heq.
  destruct (createThread_spec w None before) as (evs' & Ht' & Hr' & Hts').
  destruct (createThread_frame w None before) as (Hl & Hid).
  unfold after, handleNewChat_from. fold before.
  destruct (createThread w None before) as [newId s1].
  cbn [fst snd] in *.
  cbn [setThreadId setChatStarted setIsLoading setInput setMessages log trace
       threads messages input isLoading chatStarted isLoadingThreads threadId].
  assert (Htb : trace before = trace s ++ evs) by (rewrite Heq; reflexivity).
  assert (Hthb : threads before = kept) by (rewrite Heq; reflexivity).
  assert (Hlb : isLoadingThreads before = isLoadingThreads s)
    by (rewrite Heq; reflexivity).
  rewrite Ht', Hts', Hl, Htb, Hthb, Hlb.
  repeat split; try exact Hid.
  rewrite <- !app_assoc, !requests_of_app, Hr.
  change (requests_of (EvFetch (PostThreads None) :: evs'))
    with (PostThreads None :: requests_of evs').
  rewrite Hr'. reflexivity.
Qed.

Lemma handleNewChat_from_rendered (w : world) (s : state) :
  handleNewChat w s = handleNewChat_from (threads s) w s.
Proof. reflexivity. Qed.


(** X8. When the creation succeeds, the created thread is the first of the
    local list and the current thread, so once the list is not loading the
    sidebar shows it as the first row, highlighted. *)
Theorem handleNewChat_selects_created_thread (w : world) (s : state)
    (thread : Thread) (toLocaleDateString : Z -> jsstring) (clock : nat -> Z)
    (Hcreated : create_reply w None (delete_empty_threads w s)
                = Resolved true (JsonValue thread))
    (Hidle : isLoadingThreads s = false) :
  threadId (handleNewChat w s) = id thread
  /\ exists rest rows,
       threads (handleNewChat w s) = thread :: rest
       /\ render_recent_chats toLocaleDateString clock (handleNewChat w s)
          = ChatRows
              ({| row_key := id thread; row_title := title thread;
                  row_time := formatTime toLocaleDateString (clock 0%nat)
                                (updated_at thread);
                  row_active := true |} :: rows).
Proof.
  rewrite handleNewChat_from_rendered.
  destruct (handleNewChat_from_spec (threads s) w s)
    as (_ & Hts & _ & _ & _ & _ & Hlt & Hid).
  change (delete_empty_threads_from (threads s) w s)
    with (delete_empty_threads w s) in Hts, Hid.
  rewrite Hcreated in Hts. specialize (Hid thread Hcreated).
  split; [exact Hid |].
  eexists _, _. split; [exact Hts |].
  unfold render_recent_chats. rewrite Hlt, Hidle, Hts, Hid.
  cbn [length imap]. rewrite bool_decide_eq_true_2 by reflexivity.
  replace (Z.of_nat (S _) =? 0) with false by (symmetry; apply Z.eqb_neq; lia).
  reflexivity.
Qed.

Lemma deleteThread_eq (w : world) (id0 : jsstring) (s : state) :
  deleteThread w true id0 s
  = match delete_reply w id0 s with
    | Rejected err =>
        with_threads (threads s)
          [EvFetch (DeleteThread id0);
           EvConsole (lit "Failed to delete thread:") err] s
    | Resolved true _ =>
        if bool_decide (threadId s = id0)
        then handleNewChat_from (threads s) w (removed_locally id0 s)
        else removed_locally id0 s
    | Resolved false _ => with_threads (threads s) [EvFetch (DeleteThread id0)] s
    end.
Proof.
  unfold deleteThread, fetch, delete_reply. cbn [negb log trace].
  rewrite requests_of_snoc.
  assert (Hrem : setThreads (fun prev => filter (fun t => id t <> id0) prev)
                   (log (EvFetch (DeleteThread id0)) s)
                 = removed_locally id0 s).
  { apply state_ext; cbn -[lit]; rewrite <- ?app_assoc; reflexivity. }
  destruct (delete_thread w _) as [err | [|] u].
  - apply state_ext; cbn -[lit]; rewrite <- ?app_assoc; reflexivity.
  - cbn [threadId log]. rewrite Hrem. reflexivity.
  - apply state_ext; cbn -[lit]; rewrite <- ?app_assoc; reflexivity.
Qed.

(** X9. Nothing is removed from the local list unless the user confirmed and
    the server answered ok: a cancelled deletion changes nothing and sends
    nothing; a DELETE that rejects or is answered not ok leaves the thread
    list and the conversation as they were, after exactly one request. *)
Theorem deleteThread_needs_confirmation_and_ok (w : world) (id0 : jsstring)
    (s : state) :
  deleteThread w false id0 s = s
  /\ ((forall u, delete_reply w id0 s <> Resolved true u) ->
      threads (deleteThread w true id0 s) = threads s
      /\ messages (deleteThread w true id0 s) = messages s
      /\ threadId (deleteThread w true id0 s) = threadId s
      /\ chatStarted (deleteThread w true id0 s) = chatStarted s
      /\ input (deleteThread w true id0 s) = input s
      /\ requests_of (trace (deleteThread w true id0 s))
         = requests_of (trace s) ++ [DeleteThread id0]).
Proof.
  split; [reflexivity |].
  intros Hno. rewrite deleteThread_eq.
  destruct (delete_reply w id0 s) as [err | [|] u].
  - cbn [with_threads threads messages threadId chatStarted input trace].
    rewrite requests_of_app. repeat split.
  - exfalso. apply (Hno u). reflexivity.
  - cbn [with_threads threads messages threadId chatStarted input trace].
    rewrite requests_of_app. repeat split.
Qed.

(** X10. A confirmed deletion of a thread other than the current one, with
    an ok answer, removes from the local list every row with that id and
    nothing else, keeps the other rows in order, leaves the conversation
    untouched and sends exactly one request. *)
Theorem deleteThread_other_thread (w : world) (id0 : jsstring) (s : state)
    (u : unit)
    (Hok : delete_reply w id0 s = Resolved true u)
    (Hother : threadId s <> id0) :
  threads (deleteThread w true id0 s) = filter (fun t => id t <> id0) (threads s)
  /\ (forall t, t ∈ threads (deleteThread w true id0 s)
                <-> t ∈ threads s /\ id t <> id0)
  /\ messages (deleteThread w true id0 s) = messages s
  /\ threadId (deleteThread w true id0 s) = threadId s
  /\ chatStarted (deleteThread w true id0 s) = chatStarted s
  /\ requests_of (trace (deleteThread w true id0 s))
     = requests_of (trace s) ++ [DeleteThread id0].
Proof.
  rewrite deleteThread_eq, Hok.
  rewrite bool_decide_eq_false_2 by exact Hother.
  cbn [removed_locally with_threads threads messages threadId chatStarted trace].
  rewrite requests_of_app.
  split; [reflexivity |]. split; [| repeat split].
  intros t. rewrite list_elem_of_filter. tauto.
Qed.

(** X11. A confirmed deletion of the current thread, with an ok answer,
    starts a new chat from the render that still lists the deleted thread:
    after the DELETE for the thread come one DELETE per thread with
    [message_count = 0] of the rendered list, then one creation request.  So
    a current thread without messages is deleted twice on the server.  The
    conversation is cleared, and apart from a thread the server has just
    created, the local list keeps no row with the deleted id and no row
    without messages. *)
Theorem deleteThread_current_thread (w : world) (s : state) (u : unit)
    (Hok : delete_reply w (threadId s) s = Resolved true u) :
  let id0 := threadId s in
  let after := deleteThread w true id0 s in
  let doomed := filter is_empty_thread (threads s) in
  requests_of (trace after)
  = requests_of (trace s)
      ++ DeleteThread id0 :: (delete_request <$> doomed) ++ [PostThreads None]
  /\ ((exists t, t ∈ threads s /\ id t = id0 /\ message_count t = 0) ->
      DeleteThread id0 ∈ (delete_request <$> doomed))
  /\ messages after = [] /\ input after = [] /\ chatStarted after = false
  /\ isLoading after = false
  /\ exists kept,
       (threads after = kept \/ exists thread, threads after = thread :: kept)
       /\ Forall (fun t => id t <> id0 /\ message_count t <> 0) kept.
Proof.
  intros id0 after doomed. subst id0 after.
  rewrite deleteThread_eq, Hok.
  rewrite bool_decide_eq_true_2 by reflexivity.
  destruct (handleNewChat_from_spec (threads s) w (removed_locally (threadId s) s))
    as (Hreq & Hts & Hm & Hi & Hl & Hc & _).
  fold doomed in Hreq, Hts.
  split.
  { rewrite Hreq. cbn [removed_locally with_threads trace].
    rewrite requests_of_app, <- app_assoc. reflexivity. }
  split.
  { intros (t & Hin & Hid & Hempty).
    rewrite <- Hid. apply (list_elem_of_fmap_2 delete_request).
    apply list_elem_of_filter. split; assumption. }
  split; [exact Hm |]. split; [exact Hi |]. split; [exact Hc |].
  split; [exact Hl |].
  exists (filter (fun t => id t ∉ (id <$> doomed))
            (threads (removed_locally (threadId s) s))).
  split.
  - rewrite Hts.
    destruct (create_reply w None _) as [err | [|] [err | thread]];
      [left | left | right; exists thread | left | left]; reflexivity.
  - apply Forall_forall. intros t Ht.
    apply list_elem_of_filter in Ht. destruct Ht as [Hnot Ht].
    cbn [removed_locally with_threads threads] in Ht.
    apply list_elem_of_filter in Ht. destruct Ht as [Hne Hin].
    split; [exact Hne |]. intros Hempty. apply Hnot.
    apply list_elem_of_fmap_2. apply list_elem_of_filter. split; assumption.
Qed.

(** ** formatTime *)

Lemma floor_div_bounds (a b : Z) :
  0 < b -> b * (a / b) <= a < b * (a / b) + b.
Proof.
  intros Hb. pose proof (Z.div_mod a b ltac:(lia)) as Hdm.
  pose proof (Z.mod_pos_bound a b Hb) as Hm. lia.
Qed.

(** X12. For a timestamp that is a valid date, the label of [formatTime]
    depends only on the elapsed milliseconds [diff]: "Just now" below one
    minute (also for timestamps in the future), "1 minute ago" below two
    minutes, "<n> minutes ago" with n from 2 to 59 below one hour, "1 hour
    ago" and "<n> hours ago" with n from 2 to 23 below one day, "Yesterday"
    from 24 to 48 hours, "<n> days ago" with n from 2 to 6 below seven days,
    and the locale date from seven days on. *)
Theorem formatTime_labels (toLocaleDateString : Z -> jsstring)
    (now_ms timestamp : Z)
    (Hvalid : Z.abs (timestamp * 1000) <= 8640000000000000) :
  let diff := now_ms - timestamp * 1000 in
  let label := formatTime toLocaleDateString now_ms timestamp in
  (diff < 60000 -> label = lit "Just now")
  /\ (60000 <= diff < 120000 -> label = lit "1 minute ago")
  /\ (120000 <= diff < 3600000 ->
      label = toString10 (diff / 60000) ++ lit " minutes ago"
      /\ 2 <= diff / 60000 <= 59)
  /\ (3600000 <= diff < 7200000 -> label = lit "1 hour ago")
  /\ (7200000 <= diff < 86400000 ->
      label = toString10 (diff / 3600000) ++ lit " hours ago"
      /\ 2 <= diff / 3600000 <= 23)
  /\ (86400000 <= diff < 172800000 -> label = lit "Yesterday")
  /\ (172800000 <= diff < 604800000 ->
      label = toString10 (diff / 86400000) ++ lit " days ago"
      /\ 2 <= diff / 86400000 <= 6)
  /\ (604800000 <= diff -> label = toLocaleDateString (timestamp * 1000)).
Proof.
  intros diff label. unfold label, formatTime, Date_getTime.
  replace (8640000000000000 <? Z.abs (timestamp * 1000)) with false
    by (symmetry; apply Z.ltb_ge; exact Hvalid).
  fold diff.
  pose proof (floor_div_bounds diff 60000 ltac:(lia)) as Hm.
  pose proof (floor_div_bounds diff 3600000 ltac:(lia)) as Hh.
  pose proof (floor_div_bounds diff 86400000 ltac:(lia)) as Hd.
  revert Hm Hh Hd.
  generalize (diff / 60000), (diff / 3600000), (diff / 86400000).
  intros m h d Hm Hh Hd.
  repeat match goal with |- _ /\ _ => split end; intros Hrange;
    destruct (Z.ltb_spec m 1), (Z.ltb_spec m 60), (Z.eqb_spec m 1),
      (Z.ltb_spec h 24), (Z.eqb_spec h 1), (Z.eqb_spec d 1), (Z.ltb_spec d 7);
    try lia; subst; try reflexivity; (split; [reflexivity | lia]).
Qed.

(** ** The theme *)

Lemma load_theme_agrees (stored : option jsstring) : theme_agrees (load_theme stored).
Proof.
  unfold load_theme, restore_theme. cbn [saved_theme].
  destruct (bool_decide (stored = Some (lit "dark"))) eqn:Hd.
  - left. apply bool_decide_eq_true_1 in Hd. subst. reflexivity.
  - right. apply bool_decide_eq_false_1 in Hd. repeat split. exact Hd.
Qed.

Lemma toggleTheme_agrees (t : theme_state) :
  theme_agrees t -> theme_agrees (toggleTheme t).
Proof.
  intros [-> | (Hm & _ & _)]; unfold toggleTheme.
  - right. cbn. repeat split. discriminate.
  - rewrite Hm. left. reflexivity.
Qed.

Lemma toggles_agree (stored : option jsstring) (n : nat) :
  theme_agrees (Nat.iter n toggleTheme (load_theme stored)).
Proof.
  induction n as [| n IH]; cbn [Nat.iter nat_rect].
  - apply load_theme_agrees.
  - apply toggleTheme_agrees, IH.
Qed.

(** X13. After a page load and any number of clicks on the theme button, the
    [data-theme] attribute is "dark" exactly in dark mode, the stored item is
    "dark" exactly in dark mode, and reloading the page with the stored item
    restores the same theme state; two more clicks bring the mode and the
    attribute back. *)
Theorem theme_survives_reload (stored : option jsstring) (n : nat) :
  let t := Nat.iter n toggleTheme (load_theme stored) in
  data_theme t = (if isDarkMode t then Some (lit "dark") else None)
  /\ (isDarkMode t = true <-> saved_theme t = Some (lit "dark"))
  /\ load_theme (saved_theme t) = t
  /\ isDarkMode (toggleTheme (toggleTheme t)) = isDarkMode t
  /\ data_theme (toggleTheme (toggleTheme t)) = data_theme t.
Proof.
  intros t. pose proof (toggles_agree stored n) as Ht. fold t in Ht.
  clearbody t. destruct Ht as [-> | (Hm & Ha & Hs)].
  - repeat split; reflexivity.
  - destruct t as [m a sv]. cbn in Hm, Ha, Hs. subst m a.
    cbn [isDarkMode data_theme saved_theme].
    split; [reflexivity |]. split; [split; [discriminate | contradiction] |].
    split; [| split; reflexivity].
    unfold load_theme, restore_theme. cbn [saved_theme].
    rewrite bool_decide_eq_false_2 by exact Hs. reflexivity.
Qed.

(** ** loadThreadMessages *)


(** ** generateUUID: the random numbers it reads *)

Lemma replace_xy_draws (w : world) (template : jsstring) :
  forall s,
    (replace_xy w template s).2
    = with_draws (draws s + placeholders template) s.
Proof.
  induction template as [| c rest IH]; intros s; cbn [replace_xy placeholders].
  - destruct s. unfold with_draws. cbn. rewrite Nat.add_0_r. reflexivity.
  - destruct ((c =? 120) || (c =? 121))%N.
    + unfold uuid_char, Math_random.
      match goal with
      | |- context [replace_xy w rest ?s1] =>
          specialize (IH s1); destruct (replace_xy w rest s1) as [out s2]
      end.
      cbn [snd] in *. rewrite IH. unfold with_draws. cbn.
      f_equal. lia.
    + specialize (IH s). destruct (replace_xy w rest s) as [out s2].
      exact IH.
Qed.

Lemma replace_xy_same_draws (w w' : world) (template : jsstring) :
  forall s,
    (forall k, (k < placeholders template)%nat ->
               random w' (draws s + k) = random w (draws s + k)) ->
    replace_xy w' template s = replace_xy w template s.
Proof.
  induction template as [| c rest IH]; intros s Hsame;
    cbn [replace_xy placeholders] in *; [reflexivity |].
  destruct ((c =? 120) || (c =? 121))%N.
  - unfold uuid_char, Math_random.
    assert (H0 : random w' (draws s) = random w (draws s)).
    { specialize (Hsame 0%nat ltac:(lia)). rewrite Nat.add_0_r in Hsame.
      exact Hsame. }
    rewrite H0.
    match goal with
    | |- context [replace_xy w rest ?s1] => rewrite (IH s1)
    end; [reflexivity |].
    intros k Hk. cbn [draws]. specialize (Hsame (S k) ltac:(lia)).
    rewrite Nat.add_succ_r in Hsame. exact Hsame.
  - rewrite (IH s); [reflexivity |]. exact Hsame.
Qed.

(** X15. [generateUUID] reads exactly 31 values of the random source, one
    per placeholder of the template, and changes nothing else; its result is
    determined by those 31 values. *)
Theorem generateUUID_reads_31_values (w : world) (s : state) :
  (generateUUID w s).2 = with_draws (draws s + 31) s
  /\ (forall w',
        (forall k, (k < 31)%nat ->
                   random w' (draws s + k) = random w (draws s + k)) ->
        (generateUUID w' s).1 = (generateUUID w s).1).
Proof.
  assert (Hp : placeholders uuid_template = 31%nat) by reflexivity.
  split.
  - unfold generateUUID. rewrite replace_xy_draws, Hp. reflexivity.
  - intros w' Hsame. unfold generateUUID.
    rewrite (replace_xy_same_draws w w' uuid_template s); [reflexivity |].
    rewrite Hp. exact Hsame.
Qed.

(** ** Sessions *)

Lemma handleSubmit_flags (w : world) (s : state) :
  isLoading s = false ->
  isLoading (handleSubmit w s) = false
  /\ (isLoadingThreads s = false -> isLoadingThreads (handleSubmit w s) = false).
Proof.
  intros Hidle.
  destruct (nonblank (input s)) eqn:Hn.
  - assert (Hacc : accepts s).
    { split; [apply not_blank_nonblank; exact Hn | exact Hidle]. }
    destruct (handleSubmit_settles_aux w s Hacc) as (Hl & _).
    split; [exact Hl |]. intros Hlt.
    rewrite (handleSubmit_outcome_eq w s Hacc).
    destruct (chat_reply w s) as [err | [|] [reader |]];
      try (cbn [failed_submit isLoadingThreads]; exact Hlt).
    destruct (streamed_state_frame s reader)
      as (_ & _ & _ & _ & _ & Hf & _).
    destruct (ending reader) as [| err].
    + rewrite fetchThreads_eq. reflexivity.
    + unfold submit_catch, console_error, Date_now.
      cbn [setIsLoading setMessages log isLoadingThreads].
      rewrite Hf. exact Hlt.
  - rewrite handleSubmit_rejects
      by (left; apply blank_nonblank; exact Hn).
    split; [exact Hidle | auto].
Qed.

Lemma deleteThread_flags (w : world) (confirmed : bool) (id0 : jsstring)
    (s : state) :
  isLoading s = false ->
  isLoading (deleteThread w confirmed id0 s) = false
  /\ isLoadingThreads (deleteThread w confirmed id0 s) = isLoadingThreads s.
Proof.
  intros Hidle. destruct confirmed; [| split; [exact Hidle | reflexivity]].
  rewrite deleteThread_eq.
  destruct (delete_reply w id0 s) as [err | [|] u];
    try (split; [exact Hidle | reflexivity]).
  destruct (bool_decide (threadId s = id0));
    [| split; [exact Hidle | reflexivity]].
  destruct (handleNewChat_from_spec (threads s) w (removed_locally id0 s))
    as (_ & _ & _ & _ & Hl & _ & Hlt & _).
  split; [exact Hl | exact Hlt].
Qed.

Lemma handle_flags (w : world) (s : state) (e : ui_event) :
  isLoading s = false -> isLoadingThreads s = false ->
  isLoading (handle w s e) = false /\ isLoadingThreads (handle w s e) = false.
Proof.
  intros Hl Hlt. destruct e as [value | | | confirmed id0 | reply id0 |];
    cbn [handle].
  - split; assumption.
  - destruct (handleSubmit_flags w s Hl) as [H1 H2]. auto.
  - rewrite handleNewChat_from_rendered.
    destruct (handleNewChat_from_spec (threads s) w s)
      as (_ & _ & _ & _ & H1 & _ & H2 & _).
    split; [exact H1 | rewrite H2; exact Hlt].
  - destruct (deleteThread_flags w confirmed id0 s Hl) as [H1 H2].
    split; [exact H1 | rewrite H2; exact Hlt].
  - unfold loadThreadMessages.
    destruct reply as [err | [|] [err | data]]; split; assumption.
  - rewrite fetchThreads_eq. split; [exact Hl | reflexivity].
Qed.

(** X16. Starting with both loading flags off (as the component starts),
    after any sequence of interactions, each run to completion and whatever
    the network answers, neither loading flag is left on; the submit button is
    then disabled only when the input box is blank. *)
Theorem session_never_stuck (w : world) (events : list ui_event) (s : state)
    (Hidle : isLoading s = false)
    (Hlist : isLoadingThreads s = false) :
  isLoading (session w s events) = false
  /\ isLoadingThreads (session w s events) = false
  /\ (submit_disabled (session w s events) = true
      <-> blank (input (session w s events))).
Proof.
  assert (Hflags : isLoading (session w s events) = false
                   /\ isLoadingThreads (session w s events) = false).
  { revert s Hidle Hlist. induction events as [| e rest IH]; intros s Hl Hlt.
    - split; assumption.
    - destruct (handle_flags w s e Hl Hlt) as [H1 H2].
      exact (IH (handle w s e) H1 H2). }
  destruct Hflags as [H1 H2]. split; [exact H1 |]. split; [exact H2 |].
  unfold submit_disabled. rewrite H1. cbn [orb].
  fold (nonblank (input (session w s events))).
  rewrite blank_nonblank. destruct (nonblank _); cbn; split; congruence.
Qed.

(** ** The thread list under handleSubmit and handleNewChat *)

(** X17. [handleSubmit] touches the thread list only through the refresh
    that follows a completed stream: in every other outcome the list is
    unchanged, and after a completed stream it is either unchanged or the
    list the server returned to that refresh. *)
Theorem handleSubmit_thread_list (w : world) (s : state) :
  (stream_completed (chat_reply w s) = false \/ ~ accepts s ->
   threads (handleSubmit w s) = threads s)
  /\ (threads (handleSubmit w s) = threads s
      \/ exists before data,
           refresh_reply w before = Resolved true (JsonValue data)
           /\ threads (handleSubmit w s) = data).
Proof.
  assert (Hcase : accepts s \/ (blank (input s) \/ isLoading s = true)).
  { unfold accepts. destruct (isLoading s); [right; right; reflexivity |].
    destruct (nonblank (input s)) eqn:Hn.
    - left. split; [apply not_blank_nonblank; exact Hn | reflexivity].
    - right. left. apply blank_nonblank. exact Hn. }
  destruct Hcase as [Hacc | Hrej].
  2: { rewrite (handleSubmit_rejects w s Hrej). split; [reflexivity | left; reflexivity]. }
  rewrite (handleSubmit_outcome_eq w s Hacc). unfold stream_completed.
  destruct (chat_reply w s) as [err | [|] [reader |]];
    try (split; [reflexivity | left; reflexivity]).
  destruct (streamed_state_frame s reader) as (_ & _ & _ & _ & Hts & _).
  destruct (ending reader) as [| err].
  - rewrite fetchThreads_eq. cbn [setIsLoading threads].
    split; [intros [Hd | Hn]; [discriminate | contradiction] |].
    match goal with
    | |- context [refresh_reply w ?x] =>
        destruct (refresh_reply w x) as [e | [|] [e | data]] eqn:Hr;
        [left | left | right; exists x, data; split; [exact Hr | reflexivity]
         | left | left]
    end; cbn [setMessages log threads]; exact Hts.
  - unfold submit_catch, console_error, Date_now.
    cbn [setIsLoading setMessages log threads].
    split; [intros _; exact Hts | left; exact Hts].
Qed.

(** X18. For every thread list, also one in which rows share an id,
    [handleNewChat] sends one DELETE per row with [message_count = 0], in
    list order, then one creation request, whatever the DELETE requests
    answer; the rows removed locally are exactly those whose id is the id of
    a row without messages, and the others keep their order. *)
Theorem handleNewChat_removes_by_id (w : world) (s : state) :
  let doomed := filter is_empty_thread (threads s) in
  requests_of (trace (handleNewChat w s))
  = requests_of (trace s) ++ (delete_request <$> doomed) ++ [PostThreads None]
  /\ threads (delete_empty_threads w s)
     = filter (fun t => id t ∉ (id <$> doomed)) (threads s)
  /\ (forall t,
        t ∈ threads (delete_empty_threads w s)
        <-> t ∈ threads s
            /\ ~ exists e, e ∈ threads s /\ message_count e = 0 /\ id e = id t).
Proof.
  intros doomed.
  destruct (handleNewChat_spec w s) as (Hreq & Hdel & _).
  fold doomed in Hreq, Hdel.
  split; [exact Hreq |]. split; [exact Hdel |].
  intros t. rewrite Hdel, list_elem_of_filter.
  split.
  - intros [Hnot Hin]. split; [exact Hin |].
    intros (e & He & Hempty & Hid). apply Hnot. rewrite <- Hid.
    apply list_elem_of_fmap_2. apply list_elem_of_filter. split; assumption.
  - intros [Hin Hno]. split; [| exact Hin].
    intros Hmem. apply list_elem_of_fmap in Hmem.
    destruct Hmem as (e & Hid & He). apply list_elem_of_filter in He.
    destruct He as [Hempty He]. apply Hno. exists e. auto.
Qed.

(** ** Runs on sample states *)

Lemma server_creates :
  create_reply Samples.server_world None
    (delete_empty_threads Samples.server_world Samples.sidebar)
  = Resolved true (JsonValue (Samples.thread_row "t4" 400 0)).
Proof. reflexivity. Defined.

Lemma handleNewChat_selects_created_thread_witness :
  threadId (handleNewChat Samples.server_world Samples.sidebar)
  = id (Samples.thread_row "t4" 400 0).
Proof.
  exact (proj1 (handleNewChat_selects_created_thread
                  Samples.server_world Samples.sidebar
                  (Samples.thread_row "t4" 400 0)
                  (fun _ => lit "1/1/2026") (fun _ => 0)
                  server_creates eq_refl)).
Defined.


Lemma offline_delete :
  forall u, delete_reply Samples.offline_world (lit "t1") Samples.sidebar
            <> Resolved true u.
Proof. intros u H. discriminate H. Defined.

Lemma deleteThread_needs_confirmation_and_ok_witness :
  threads (deleteThread Samples.offline_world true (lit "t1") Samples.sidebar)
  = threads Samples.sidebar.
Proof.
  exact (proj1 (proj2 (deleteThread_needs_confirmation_and_ok
                         Samples.offline_world (lit "t1") Samples.sidebar)
                  offline_delete)).
Defined.

Lemma server_deletes (id0 : jsstring) :
  delete_reply Samples.server_world id0 Samples.sidebar = Resolved true ().
Proof. reflexivity. Defined.

Lemma sidebar_other : threadId Samples.sidebar <> lit "t1".
Proof. intros H. discriminate H. Defined.

Lemma deleteThread_other_thread_witness :
  threads (deleteThread Samples.server_world true (lit "t1") Samples.sidebar)
  = filter (fun t => id t <> lit "t1") (threads Samples.sidebar).
Proof.
  exact (proj1 (deleteThread_other_thread
                  Samples.server_world (lit "t1") Samples.sidebar ()
                  (server_deletes (lit "t1")) sidebar_other)).
Defined.

Lemma deleteThread_current_thread_witness :
  requests_of (trace (deleteThread Samples.server_world true
                        (threadId Samples.sidebar) Samples.sidebar))
  = requests_of (trace Samples.sidebar)
      ++ DeleteThread (threadId Samples.sidebar)
      :: (delete_request <$> filter is_empty_thread (threads Samples.sidebar))
      ++ [PostThreads None].
Proof.
  exact (proj1 (deleteThread_current_thread
                  Samples.server_world Samples.sidebar ()
                  (server_deletes (threadId Samples.sidebar)))).
Defined.

Example deleteThread_current_empty_twice :
  requests_of (trace (deleteThread Samples.server_world true (lit "a") Samples.twins))
  = [DeleteThread (lit "a"); DeleteThread (lit "a"); PostThreads None].
Proof. vm_compute. reflexivity. Qed.

Lemma recent_timestamp : Z.abs (1700000000 * 1000) <= 8640000000000000.
Proof. apply Z.leb_le. reflexivity. Defined.

Lemma two_minutes : 120000 <= 1700000125000 - 1700000000 * 1000 < 3600000.
Proof. split; [apply Z.leb_le | apply Z.ltb_lt]; reflexivity. Defined.

Lemma formatTime_labels_witness :
  formatTime (fun _ => lit "1/1/2026") 1700000125000 1700000000
  = toString10 ((1700000125000 - 1700000000 * 1000) / 60000) ++ lit " minutes ago".
Proof.
  exact (proj1 (proj1 (proj2 (proj2 (formatTime_labels
                                      (fun _ => lit "1/1/2026")
                                      1700000125000 1700000000
                                      recent_timestamp)))
                  two_minutes)).
Defined.

Example formatTime_samples :
  formatTime (fun _ => lit "1/1/2026") 1700000125000 1700000000 = lit "2 minutes ago"
  /\ formatTime (fun _ => lit "1/1/2026") 1700000000000 1700000100 = lit "Just now"
  /\ formatTime (fun _ => lit "1/1/2026") 1700090000000 1700000000 = lit "Yesterday"
  /\ formatTime (fun _ => lit "1/1/2026") 1700000000000 8640000000001
     = lit "Invalid Date".
Proof. repeat split; vm_compute; reflexivity. Qed.


Lemma generateUUID_reads_31_values_witness :
  (generateUUID Samples.offline_world Samples.fresh).1
  = (generateUUID Samples.quiet_world Samples.fresh).1.
Proof.
  exact (proj2 (generateUUID_reads_31_values Samples.quiet_world Samples.fresh)
           Samples.offline_world (fun k _ => eq_refl)).
Defined.

Lemma session_never_stuck_witness :
  isLoading
    (session Samples.offline_world Samples.fresh
       [Submit; TypeText (lit "again"); Submit; NewChat;
        DeleteRow true (lit "t1"); Refresh])
  = false.
Proof.
  exact (proj1 (session_never_stuck Samples.offline_world
                  [Submit; TypeText (lit "again"); Submit; NewChat;
                   DeleteRow true (lit "t1"); Refresh]
                  Samples.fresh eq_refl eq_refl)).
Defined.

Lemma handleSubmit_thread_list_witness :
  threads (handleSubmit Samples.offline_world Samples.fresh)
  = threads Samples.fresh.
Proof.
  exact (proj1 (handleSubmit_thread_list Samples.offline_world Samples.fresh)
           (or_introl eq_refl)).
Defined.

(** ** handleSubmit among the other handlers: proofs *)

Lemma read_loop_among_alone (fin : stream_end) :
  forall (chunks : list jsstring) (k : nat) (acc : jsstring) (added : bool)
         (s : state),
    read_loop_among (fun _ => []) k chunks fin acc added s
    = read_loop chunks fin acc added s.
Proof.
  induction chunks as [| value rest IH]; intros k acc added s;
    cbn [read_loop_among read_loop during foldl]; [reflexivity |].
  rewrite !IH. reflexivity.
Qed.

(** With no step taken during the waits, the general run is the handler on
    its own. *)
Lemma handleSubmit_among_alone (w : world) (s : state) :
  handleSubmit_among w alone s = handleSubmit w s.
Proof.
  unfold handleSubmit_among, handleSubmit, submit_try_among, submit_try, alone.
  cbn [while_fetching while_reading during foldl].
  destruct (negb (truthy (trim (input s))) || isLoading s); [reflexivity |].
  destruct (Date_now w _) as [startTime s1].
  destruct (fetch (chat w) _ s1) as [[err | ok [reader |]] s2]; try reflexivity.
  destruct (Date_now w s2) as [t s3].
  rewrite read_loop_among_alone. reflexivity.
Qed.

Lemma keeps_conversation_bystander (w : world) (e : ui_event) :
  keeps_conversation e = true -> bystander (fun s => handle w s e).
Proof.
  intros He s.
  assert (Hsame : forall s', messages s' = messages s ->
                             (exists evs, trace s' = trace s ++ evs
                                          /\ message_values evs = []
                                          /\ (EvRead None ∉ evs)) ->
                             messages s' = messages s
                             /\ exists evs, trace s' = trace s ++ evs
                                            /\ message_values evs = []
                                            /\ (EvRead None ∉ evs)) by auto.
  destruct e as [value | | | confirmed id0 | reply id0 |]; cbn in He;
    try discriminate; cbn [handle].
  - apply Hsame; [reflexivity |]. exists []. cbn. rewrite app_nil_r.
    repeat split. apply not_elem_of_nil.
  - destruct confirmed; [discriminate |]. cbn [deleteThread negb].
    apply Hsame; [reflexivity |]. exists []. rewrite app_nil_r.
    repeat split. apply not_elem_of_nil.
  - unfold loadThreadMessages.
    destruct reply as [err | [|] [err | data]]; try discriminate;
      (apply Hsame; [reflexivity |]);
      try (exists []; rewrite app_nil_r; repeat split; apply not_elem_of_nil);
      (eexists [_]; split; [reflexivity |]; split; [reflexivity |];
       rewrite !not_elem_of_cons; split; [discriminate | apply not_elem_of_nil]).
  - rewrite fetchThreads_eq. cbn [messages trace]. split; [reflexivity |].
    eexists. split; [reflexivity |].
    destruct (refresh_reply w s) as [err | [|] [err | data]];
      (split; [reflexivity |]);
      rewrite !not_elem_of_cons; repeat split; try discriminate;
      apply not_elem_of_nil.
Qed.

Lemma during_bystanders (steps : list (state -> state)) :
  Forall bystander steps ->
  forall s,
    messages (during steps s) = messages s
    /\ exists tr, trace (during steps s) = trace s ++ tr
                  /\ message_values tr = [] /\ (EvRead None ∉ tr).
Proof.
  induction 1 as [| step steps He _ IH]; intros s.
  - split; [reflexivity |]. exists []. cbn. rewrite app_nil_r.
    repeat split. apply not_elem_of_nil.
  - cbn [during foldl]. fold (during steps (step s)).
    destruct (He s) as (Hm & ev1 & Ht & Hv & Hn).
    destruct (IH (step s)) as (Hm' & tr & Ht' & Hv' & Hn').
    split; [congruence |]. exists (ev1 ++ tr).
    rewrite Ht', Ht, app_assoc. split; [reflexivity |].
    rewrite message_values_app, Hv, Hv'. split; [reflexivity |].
    rewrite not_elem_of_app. auto.
Qed.

(** The loop among bystanders: what it logs and the list it leaves. *)
Lemma read_loop_among_spec (others : nat -> list (state -> state))
    (base : list Message) (fin : stream_end) :
  (forall k, Forall bystander (others k)) ->
  forall (chunks : list jsstring) (k : nat) (acc : jsstring) (added : bool)
         (s : state),
    messages s = (if added then streamed base acc else base) ->
    (added = false -> nonblank acc = false) ->
    exists body s',
      read_loop_among others k chunks fin acc added s = (loop_result fin, s')
      /\ trace s' = trace s ++ body ++ [end_event fin]
      /\ message_values body = streamed base <$> contents acc added chunks
      /\ (EvRead None ∉ body)
      /\ messages s' = loop_messages base (acc ++ concat chunks) added.
Proof.
  intros Hothers.
  induction chunks as [| value rest IH]; intros k acc added s Hms Hacc;
    destruct (during_bystanders (others k) (Hothers k) s)
      as (Hm & tr & Ht & Hv & Hn).
  - cbn [read_loop_among concat contents]. rewrite app_nil_r.
    exists tr.
    assert (Hfinal : messages s = loop_messages base acc added).
    { unfold loop_messages. destruct added; [exact Hms |].
      rewrite (Hacc eq_refl). exact Hms. }
    destruct fin as [| err]; eexists; (split; [reflexivity |]);
      cbn [log trace messages loop_result end_event];
      rewrite Ht, Hm, <- app_assoc; auto.
  - cbn [read_loop_among concat contents].
    fold (nonblank (acc ++ value)). rewrite app_assoc.
    assert (Hgrow : loop_messages base ((acc ++ value) ++ concat rest) added
                    = loop_messages base ((acc ++ value) ++ concat rest)
                        (added || nonblank (acc ++ value))).
    { unfold loop_messages. rewrite nonblank_app.
      destruct added, (nonblank (acc ++ value)); reflexivity. }
    rewrite Hgrow. clear Hgrow.
    set (s1 := during (others k) s) in *.
    assert (Hstep : forall (f : list Message -> list Message),
               f (messages s) = streamed base (acc ++ value) ->
               exists body s',
                 read_loop_among others (S k) rest fin (acc ++ value) true
                   (setMessages f (log (EvRead (Some value)) s1))
                 = (loop_result fin, s')
                 /\ trace s' = trace s ++ body ++ [end_event fin]
                 /\ message_values body
                    = streamed base (acc ++ value)
                        :: (streamed base <$> contents (acc ++ value) true rest)
                 /\ (EvRead None ∉ body)
                 /\ messages s'
                    = loop_messages base ((acc ++ value) ++ concat rest) true).
    { intros f Hf.
      destruct (IH (S k) (acc ++ value) true
                  (setMessages f (log (EvRead (Some value)) s1)))
        as (body & s' & Hrun & Ht' & Hv' & Hn' & Hm').
      - cbn [setMessages log messages]. rewrite Hm. exact Hf.
      - discriminate.
      - exists (tr ++ EvRead (Some value) :: EvMessages (streamed base (acc ++ value))
                  :: body), s'.
        split; [exact Hrun |]. split.
        + rewrite Ht'. cbn [setMessages log trace messages].
          rewrite Ht, Hm, Hf, <- !app_assoc. reflexivity.
        + split; [| split; [| exact Hm']].
          * rewrite message_values_app, Hv. cbn. f_equal. exact Hv'.
          * rewrite not_elem_of_app, !not_elem_of_cons.
            repeat split; try discriminate; assumption. }
    destruct added; cbn [negb andb orb].
    + apply Hstep. rewrite Hms. apply map_last_assistant_streamed.
    + destruct (nonblank (acc ++ value)) eqn:Hnb.
      * apply Hstep. rewrite Hms. reflexivity.
      * destruct (IH (S k) (acc ++ value) false (log (EvRead (Some value)) s1))
          as (body & s' & Hrun & Ht' & Hv' & Hn' & Hm').
        -- cbn [log messages]. rewrite Hm. exact Hms.
        -- intros _. exact Hnb.
        -- exists (tr ++ EvRead (Some value) :: body), s'.
           split; [exact Hrun |]. split.
           ++ rewrite Ht'. cbn [log trace]. rewrite Ht, <- !app_assoc. reflexivity.
           ++ split; [| split; [| exact Hm']].
              ** rewrite message_values_app, Hv. exact Hv'.
              ** rewrite not_elem_of_app, !not_elem_of_cons.
                 repeat split; try discriminate; assumption.
Qed.

Lemma handleSubmit_among_rejects (w : world) (i : interleaving) (s : state) :
  blank (input s) \/ isLoading s = true -> handleSubmit_among w i s = s.
Proof.
  intros H. unfold handleSubmit_among. fold (nonblank (input s)).
  destruct H as [H | H].
  - apply blank_nonblank in H. rewrite H. reflexivity.
  - rewrite H. rewrite orb_true_r. reflexivity.
Qed.

Lemma handleSubmit_among_accepts (w : world) (i : interleaving) (s : state) :
  accepts s ->
  handleSubmit_among w i s
  = setIsLoading false
      (submit_try_among w i (input s) (threadId s) (now w (ticks s)) (submitted s)).
Proof.
  intros [Hin Hload]. unfold handleSubmit_among. fold (nonblank (input s)).
  apply not_blank_nonblank in Hin. rewrite Hin, Hload. reflexivity.
Qed.

(** The state in which the response is dealt with: the request has been
    sent and the handlers of the wait have run. *)
Lemma fetched_among (i : interleaving) (s : state) :
  Forall bystander (while_fetching i) ->
  let s2 := response_arrives i s in
  messages s2 = messages s ++ [userMessage s]
  /\ exists tr,
       trace s2 = trace s ++ [EvMessages (messages s ++ [userMessage s]);
                              EvFetch (chat_request s)] ++ tr
       /\ message_values tr = [] /\ (EvRead None ∉ tr).
Proof.
  intros Hfetch s2. subst s2. unfold response_arrives.
  destruct (during_bystanders _ Hfetch
              (log (EvFetch (chat_request s)) (submitted s)))
    as (Hm & tr & Ht & Hv & Hn).
  split; [exact Hm |]. exists tr.
  split; [| auto]. rewrite Ht. cbn [log trace submitted].
  rewrite <- !app_assoc. reflexivity.
Qed.

(** A response whose body is read, among bystanders: the whole run, for both
    ways the stream can end. *)
Lemma handleSubmit_among_stream (w : world) (i : interleaving) (s : state)
    (reader : body_stream) :
  accepts s ->
  chat_reply w s = Resolved true (Some reader) ->
  undisturbed i ->
  let base := messages s ++ [userMessage s] in
  let cs := contents [] false (fragments reader) in
  exists body rt,
    message_values body = streamed base <$> cs
    /\ (EvRead None ∉ body)
    /\ match ending reader with
       | StreamDone =>
           exists post,
             trace (handleSubmit_among w i s)
             = trace s ++ [EvMessages base; EvFetch (chat_request s)] ++ body
                 ++ [EvRead None; EvMessages (completed base cs rt)] ++ post
             /\ message_values post = []
             /\ messages (handleSubmit_among w i s) = completed base cs rt
       | StreamError err =>
           trace (handleSubmit_among w i s)
           = trace s ++ [EvMessages base; EvFetch (chat_request s)] ++ body
               ++ [EvReadError err; EvConsole (lit "Error:") err;
                   EvMessages (interrupted base cs rt)]
           /\ messages (handleSubmit_among w i s) = interrupted base cs rt
       end.
Proof.
  intros Hacc Hreply [Hfetch Hreads] base cs.
  rewrite (handleSubmit_among_accepts w i s Hacc).
  unfold submit_try_among, fetch. fold (chat_request s).
  rewrite submitted_reply, Hreply. cbn [negb].
  destruct (fetched_among i s Hfetch) as (Hm2 & tr & Ht2 & Hv2 & Hn2).
  fold base in Hm2, Ht2. fold (response_arrives i s).
  set (s2 := response_arrives i s) in *.
  unfold Date_now. cbv iota beta zeta.
  match goal with
  | |- context [read_loop_among _ 0 _ _ [] false ?s3] =>
      destruct (read_loop_among_spec (while_reading i) base (ending reader)
                  Hreads (fragments reader) 0%nat [] false s3)
        as (body & s4 & Hrun & Ht4 & Hv4 & Hn4 & Hm4);
      [exact Hm2 | intros _; reflexivity |]
  end.
  rewrite Hrun. cbn [trace] in Ht4. cbn [app] in Hm4. fold cs in Hv4.
  assert (Hlast : last cs = if nonblank (concat (fragments reader))
                            then Some (concat (fragments reader)) else None).
  { unfold cs. rewrite contents_last by reflexivity. reflexivity. }
  exists (tr ++ body).
  assert (Hbody : message_values (tr ++ body) = streamed base <$> cs).
  { rewrite message_values_app, Hv2. exact Hv4. }
  assert (Hnone : EvRead None ∉ tr ++ body).
  { rewrite not_elem_of_app. auto. }
  unfold loop_messages in Hm4. cbn [orb] in Hm4.
  destruct (ending reader) as [| err]; cbn [loop_result end_event] in *.
  - exists (now w (ticks s2) - now w (ticks s)).
    split; [exact Hbody |]. split; [exact Hnone |].
    match goal with
    | |- context [fetchThreads w ?s5] =>
        destruct (fetchThreads_frame w s5) as (Hm & _ & _ & post & Ht & Hv)
    end.
    exists post. cbn [setIsLoading trace messages]. rewrite Ht, Hm.
    cbn [setMessages log trace messages]. rewrite Ht4, Ht2, Hm4.
    unfold completed. rewrite Hlast.
    destruct (nonblank (concat (fragments reader))).
    + rewrite map_last_assistant_attach.
      split; [| split; [exact Hv | reflexivity]].
      rewrite <- !app_assoc. reflexivity.
    + assert (Hu : forall t, map_last_assistant (with_responseTime t) base = base)
        by (intros t; apply map_last_assistant_user; reflexivity).
      rewrite Hu. split; [| split; [exact Hv | reflexivity]].
      rewrite <- !app_assoc. reflexivity.
  - exists (now w (ticks s4) - now w (ticks s)).
    split; [exact Hbody |]. split; [exact Hnone |].
    unfold submit_catch, console_error, Date_now.
    cbn [setIsLoading setMessages log trace messages ticks].
    rewrite Ht4, Ht2, Hm4. unfold interrupted. rewrite Hlast.
    destruct (nonblank (concat (fragments reader)));
      (split; [rewrite <- !app_assoc; reflexivity | reflexivity]).
Qed.

(** Failure before the stream, among bystanders. *)
Lemma handleSubmit_among_failure (w : world) (i : interleaving) (s : state)
    (detail : jsstring) :
  accepts s ->
  failure_detail (chat_reply w s) = Some detail ->
  Forall bystander (while_fetching i) ->
  exists rt,
    messages (handleSubmit_among w i s) = messages s ++ [userMessage s; apology rt].
Proof.
  intros Hacc Hfail Hfetch. rewrite (handleSubmit_among_accepts w i s Hacc).
  unfold submit_try_among, fetch. fold (chat_request s). rewrite submitted_reply.
  destruct (fetched_among i s Hfetch) as (Hm2 & _).
  fold (response_arrives i s).
  set (s2 := response_arrives i s) in *.
  destruct (chat_reply w s) as [err | [|] [reader |]]; cbn in Hfail;
    try discriminate; eexists;
    unfold submit_catch, console_error, Date_now;
    cbn [negb setIsLoading setMessages log messages];
    rewrite Hm2, <- app_assoc; reflexivity.
Qed.

Lemma handleSubmit_among_added (w : world) (i : interleaving) (s : state) :
  accepts s ->
  undisturbed i ->
  exists extra,
    messages (handleSubmit_among w i s) = messages s ++ userMessage s :: extra
    /\ Forall (fun m => role m = assistant) extra
    /\ (length extra <= 2)%nat.
Proof.
  intros Hacc Hothers.
  destruct (failure_detail (chat_reply w s)) as [detail |] eqn:Hf.
  - destruct (handleSubmit_among_failure w i s detail Hacc Hf (proj1 Hothers))
      as (rt & ->).
    eexists [_]. split; [reflexivity | split; [repeat constructor | cbn; lia]].
  - destruct (chat_reply w s) as [err | [|] [reader |]] eqn:Hr;
      cbn in Hf; try discriminate.
    destruct (handleSubmit_among_stream w i s reader Hacc Hr Hothers)
      as (body & rt & _ & _ & Hrun).
    assert (Hm : messages (handleSubmit_among w i s)
                 = match ending reader with
                   | StreamDone =>
                       completed (messages s ++ [userMessage s])
                         (contents [] false (fragments reader)) rt
                   | StreamError _ =>
                       interrupted (messages s ++ [userMessage s])
                         (contents [] false (fragments reader)) rt
                   end).
    { destruct (ending reader); [destruct Hrun as (post & _ & _ & Hm) |
                                 destruct Hrun as (_ & Hm)]; exact Hm. }
    rewrite Hm. unfold completed, interrupted, streamed.
    destruct (ending reader), (last (contents [] false (fragments reader)));
      rewrite <- ?app_assoc.
    + eexists [_]. split; [reflexivity | split; [repeat constructor | cbn; lia]].
    + exists []. split; [reflexivity | split; [constructor | cbn; lia]].
    + eexists [_; _]. split; [reflexivity | split; [repeat constructor | cbn; lia]].
    + eexists [_]. split; [reflexivity | split; [repeat constructor | cbn; lia]].
Qed.

Lemma refreshes_undisturbed (w : world) : undisturbed (Scenes.refreshes w).
Proof.
  split.
  - constructor; [| constructor].
    apply (keeps_conversation_bystander w Refresh). reflexivity.
  - intros k. cbn [Scenes.refreshes while_reading].
    destruct (k =? 1)%nat; constructor; [| constructor].
    apply (keeps_conversation_bystander w Refresh). reflexivity.
Defined.

(** C3 as stated fails when the message list is replaced during the stream.
    The request succeeds and streams " ", "Ath", "ens"; while the third read
    is awaited the user clicks the row of a thread without messages.  The
    updates made for the last chunk and for the response time then find no
    assistant message to patch: the final list is empty and the answer is
    shown nowhere. *)
Lemma handleSubmit_row_click_loses_answer :
  accepts Samples.fresh
  /\ chat_reply Samples.quiet_world Samples.fresh
     = Resolved true
         (Some {| fragments := [lit " "; lit "Ath"; lit "ens"]; ending := StreamDone |})
  /\ ~ blank (concat [lit " "; lit "Ath"; lit "ens"])
  /\ messages (handleSubmit_among Samples.quiet_world
                 (Scenes.row_click [] 2) Samples.fresh)
     = []
  /\ ~ (exists rt,
          messages (handleSubmit_among Samples.quiet_world
                      (Scenes.row_click [] 2) Samples.fresh)
          = (messages Samples.fresh ++ [userMessage Samples.fresh])
              ++ [{| role := assistant;
                     content := concat [lit " "; lit "Ath"; lit "ens"];
                     responseTime := Some rt |}]).
Proof.
  assert (Hrun : messages (handleSubmit_among Samples.quiet_world
                             (Scenes.row_click [] 2) Samples.fresh)
                 = []) by (vm_compute; reflexivity).
  split; [exact fresh_accepts |]. split; [exact quiet_reply |].
  split; [exact quiet_text |]. split; [exact Hrun |].
  intros (rt & H). rewrite Hrun in H.
  apply (f_equal length) in H. vm_compute in H. discriminate.
Qed.

(** C3 (as amended).  When the chat request succeeds, the streamed body, a
    finite sequence of fragments, has a character that is not white space,
    and no step that another handler takes while [handleSubmit] is suspended
    touches the conversation, the message list ends with an assistant message
    whose content is the concatenation of all fragments in arrival order, and
    an assistant message is already in the list before the read that reports
    the end of the stream. *)
Theorem handleSubmit_streams_when_undisturbed (w : world) (i : interleaving)
    (s : state) (fs : list jsstring)
    (Hacc : accepts s)
    (Hreply : chat_reply w s
              = Resolved true (Some {| fragments := fs; ending := StreamDone |}))
    (Htext : ~ blank (concat fs))
    (Hothers : undisturbed i) :
  let base := messages s ++ [userMessage s] in
  (exists rt,
     messages (handleSubmit_among w i s)
     = base ++ [{| role := assistant; content := concat fs;
                   responseTime := Some rt |}])
  /\ (exists pre c post,
        trace (handleSubmit_among w i s)
        = trace s ++ pre ++ EvMessages (streamed base c) :: post
        /\ (EvRead None ∉ pre)
        /\ EvRead None ∈ post).
Proof.
  intros base.
  destruct (handleSubmit_among_stream w i s _ Hacc Hreply Hothers)
    as (body & rt & Hv & Hnd & post & Ht & Hp & Hm).
  cbn [fragments ending] in *. fold base in Ht, Hm, Hv.
  apply not_blank_nonblank in Htext.
  pose proof (contents_last fs [] eq_refl) as Hlast.
  cbn [app] in Hlast. rewrite Htext in Hlast.
  split.
  - exists rt. rewrite Hm. unfold completed. rewrite Hlast. reflexivity.
  - assert (Hin : streamed base (concat fs) ∈ message_values body).
    { rewrite Hv. apply list_elem_of_fmap_2.
      apply last_Some_elem_of. exact Hlast. }
    destruct (message_values_split _ _ Hin) as (pre & post' & Hsplit).
    rewrite Hsplit in Hnd, Ht.
    exists ([EvMessages base; EvFetch (chat_request s)] ++ pre), (concat fs),
      (post' ++ [EvRead None; EvMessages (completed base (contents [] false fs) rt)]
         ++ post).
    split; [| split].
    + rewrite Ht. rewrite <- !app_assoc. reflexivity.
    + rewrite !not_elem_of_app in *. destruct Hnd as [Hpre _].
      split; [| exact Hpre].
      rewrite !not_elem_of_cons. repeat split; try discriminate.
      apply not_elem_of_nil.
    + rewrite elem_of_app. right. apply list_elem_of_here.
Qed.

Lemma handleSubmit_streams_when_undisturbed_witness :
  exists rt,
    messages (handleSubmit_among Samples.quiet_world (Scenes.refreshes Samples.quiet_world) Samples.fresh)
    = (messages Samples.fresh ++ [userMessage Samples.fresh])
        ++ [{| role := assistant; content := concat [lit " "; lit "Ath"; lit "ens"];
               responseTime := Some rt |}].
Proof.
  exact (proj1 (handleSubmit_streams_when_undisturbed
                  Samples.quiet_world (Scenes.refreshes Samples.quiet_world) Samples.fresh
                  [lit " "; lit "Ath"; lit "ens"]
                  fresh_accepts quiet_reply quiet_text
                  (refreshes_undisturbed Samples.quiet_world))).
Defined.

(** C4 as stated fails when another thread is loaded during the stream: its
    messages arrive while the third read is awaited, and the update made for
    the chunk "ens" rewrites the last message of the loaded thread from
    "old answer" to " Athens", which does not extend it. *)
Lemma handleSubmit_row_click_rewrites_message :
  accepts Samples.fresh
  /\ chat_reply Samples.quiet_world Samples.fresh
     = Resolved true
         (Some {| fragments := [lit " "; lit "Ath"; lit "ens"]; ending := StreamDone |})
  /\ (exists pre post,
        trace (handleSubmit_among Samples.quiet_world
                 (Scenes.row_click Scenes.answered 2) Samples.fresh)
        = pre
            ++ [EvMessages Scenes.answered;
                EvRead (Some (lit "ens"));
                EvMessages
                  [{| role := user; content := lit "capital of Italy?";
                      responseTime := None |};
                   {| role := assistant; content := lit " Athens";
                      responseTime := None |}]]
            ++ post)
  /\ ~ (lit "old answer" `prefix_of` lit " Athens")
  /\ ~ (exists (cs : list jsstring) (body tail : list event) (rt : Z),
          let base := messages Samples.fresh ++ [userMessage Samples.fresh] in
          trace (handleSubmit_among Samples.quiet_world
                   (Scenes.row_click Scenes.answered 2) Samples.fresh)
          = trace Samples.fresh
              ++ [EvMessages base; EvFetch (chat_request Samples.fresh)]
              ++ body ++ tail
          /\ message_values body = streamed base <$> cs
          /\ (EvRead None ∉ body)
          /\ (forall (i : nat) c c',
                cs !! i = Some c -> cs !! S i = Some c' -> c `prefix_of` c')
          /\ exists post,
               tail = [EvRead None; EvMessages (completed base cs rt)] ++ post
               /\ message_values post = []
               /\ messages (handleSubmit_among Samples.quiet_world
                              (Scenes.row_click Scenes.answered 2) Samples.fresh)
                  = completed base cs rt).
Proof.
  split; [exact fresh_accepts |]. split; [exact quiet_reply |].
  split; [| split].
  - exists (take 5 (trace (handleSubmit_among Samples.quiet_world
                             (Scenes.row_click Scenes.answered 2) Samples.fresh))),
      (drop 8 (trace (handleSubmit_among Samples.quiet_world
                        (Scenes.row_click Scenes.answered 2) Samples.fresh))).
    vm_compute. reflexivity.
  - intros [k Hk]. vm_compute in Hk. discriminate.
  - intros (cs & body & tail & rt & _ & _ & _ & _ & post & _ & _ & Hm).
    apply (f_equal (fun ms => length ∘ content <$> head ms)) in Hm.
    unfold completed in Hm. destruct (last cs); vm_compute in Hm; discriminate.
Qed.

(** C4 (as amended).  When no step that another handler takes while
    [handleSubmit] is suspended touches the conversation, the message list
    only grows at its end while the body is read: every value the list takes
    during the loop is the earlier messages and the user's message,
    untouched, followed by one assistant message without response time, whose
    content extends the content shown before.  All these updates precede the end of the stream.
    When the stream ends with [done], one more update follows it, which
    attaches the response time to that assistant message (or changes nothing
    when no assistant message was added); when a read fails instead, the
    streamed message stays as it is and the fixed error message is
    appended. *)
Theorem handleSubmit_append_only_when_undisturbed (w : world) (i : interleaving)
    (s : state) (reader : body_stream)
    (Hacc : accepts s)
    (Hreply : chat_reply w s = Resolved true (Some reader))
    (Hothers : undisturbed i) :
  let base := messages s ++ [userMessage s] in
  exists (cs : list jsstring) (body tail : list event) (rt : Z),
    trace (handleSubmit_among w i s)
    = trace s ++ [EvMessages base; EvFetch (chat_request s)] ++ body ++ tail
    /\ message_values body = streamed base <$> cs
    /\ (EvRead None ∉ body)
    /\ (forall (i : nat) c c',
          cs !! i = Some c -> cs !! S i = Some c' -> c `prefix_of` c')
    /\ match ending reader with
       | StreamDone =>
           exists post,
             tail = [EvRead None; EvMessages (completed base cs rt)] ++ post
             /\ message_values post = []
             /\ messages (handleSubmit_among w i s) = completed base cs rt
       | StreamError err =>
           tail = [EvReadError err; EvConsole (lit "Error:") err;
                   EvMessages (interrupted base cs rt)]
           /\ messages (handleSubmit_among w i s) = interrupted base cs rt
       end.
Proof.
  intros base.
  destruct (handleSubmit_among_stream w i s reader Hacc Hreply Hothers)
    as (body & rt & Hv & Hnd & Hrun).
  fold base in Hrun, Hv.
  exists (contents [] false (fragments reader)), body.
  destruct (ending reader) as [| err].
  - destruct Hrun as (post & Ht & Hp & Hm).
    exists ([EvRead None;
             EvMessages (completed base (contents [] false (fragments reader)) rt)]
              ++ post), rt.
    split; [exact Ht |]. split; [exact Hv |].
    split; [exact Hnd |]. split; [apply contents_chain |].
    exists post. auto.
  - destruct Hrun as (Ht & Hm).
    eexists _, rt.
    split; [exact Ht |]. split; [exact Hv |].
    split; [exact Hnd |]. split; [apply contents_chain |].
    auto.
Qed.

Lemma handleSubmit_append_only_when_undisturbed_witness :
  exists (cs : list jsstring) (body tail : list event),
    trace (handleSubmit_among Samples.quiet_world (Scenes.refreshes Samples.quiet_world) Samples.fresh)
    = trace Samples.fresh
        ++ [EvMessages (messages Samples.fresh ++ [userMessage Samples.fresh]);
            EvFetch (chat_request Samples.fresh)] ++ body ++ tail
    /\ message_values body
       = streamed (messages Samples.fresh ++ [userMessage Samples.fresh]) <$> cs.
Proof.
  destruct (handleSubmit_append_only_when_undisturbed
              Samples.quiet_world (Scenes.refreshes Samples.quiet_world) Samples.fresh
              {| fragments := [lit " "; lit "Ath"; lit "ens"]; ending := StreamDone |}
              fresh_accepts quiet_reply (refreshes_undisturbed Samples.quiet_world))
    as (cs & body & tail & rt & Ht & Hv & _).
  exists cs, body, tail. split; [exact Ht | exact Hv].
Defined.

(** C9 as stated fails when another thread is loaded while the last read is
    awaited: the stream is blank, yet the update that attaches the response
    time changes the last message of the loaded thread, and the final list is
    not the earlier messages followed by the user's message. *)
Lemma handleSubmit_row_click_stamps_message :
  accepts Samples.fresh
  /\ chat_reply Samples.silent_world Samples.fresh
     = Resolved true
         (Some {| fragments := [lit " "; []; lit "  "]; ending := StreamDone |})
  /\ blank (concat [lit " "; []; lit "  "])
  /\ messages (handleSubmit_among Samples.silent_world
                 (Scenes.row_click Scenes.answered 3) Samples.fresh)
     = [{| role := user; content := lit "capital of Italy?"; responseTime := None |};
        {| role := assistant; content := lit "old answer";
           responseTime := Some 250 |}]
  /\ messages (handleSubmit_among Samples.silent_world
                 (Scenes.row_click Scenes.answered 3) Samples.fresh)
     <> messages Samples.fresh ++ [userMessage Samples.fresh]
  /\ exists pre post,
       trace (handleSubmit_among Samples.silent_world
                (Scenes.row_click Scenes.answered 3) Samples.fresh)
       = pre
           ++ [EvMessages Scenes.answered;
               EvRead None;
               EvMessages
                 [{| role := user; content := lit "capital of Italy?";
                     responseTime := None |};
                  {| role := assistant; content := lit "old answer";
                     responseTime := Some 250 |}]]
           ++ post.
Proof.
  split; [exact fresh_accepts |]. split; [exact silent_reply |].
  split; [exact silent_blank |].
  split; [vm_compute; reflexivity |]. split.
  - intros H. apply (f_equal length) in H. vm_compute in H. discriminate.
  - exists (take 5 (trace (handleSubmit_among Samples.silent_world
                             (Scenes.row_click Scenes.answered 3) Samples.fresh))),
      (drop 8 (trace (handleSubmit_among Samples.silent_world
                        (Scenes.row_click Scenes.answered 3) Samples.fresh))).
    vm_compute. reflexivity.
Qed.

(** C9 (as amended).  When the chat request succeeds, the streamed body is
    empty or all white space, and no step that another handler takes while
    [handleSubmit] is suspended touches the conversation, no assistant
    message is appended: after the stream ends the message list is the
    earlier messages followed by the user's message, no update of the list
    happens while the chunks are read, and the update that attaches the
    response time leaves every message as it is. *)
Theorem handleSubmit_blank_stream_when_undisturbed (w : world) (i : interleaving)
    (s : state) (fs : list jsstring)
    (Hacc : accepts s)
    (Hreply : chat_reply w s
              = Resolved true (Some {| fragments := fs; ending := StreamDone |}))
    (Hblank : blank (concat fs))
    (Hothers : undisturbed i) :
  let base := messages s ++ [userMessage s] in
  messages (handleSubmit_among w i s) = base
  /\ (forall rt, map_last_assistant (with_responseTime rt) base = base)
  /\ exists body post,
       trace (handleSubmit_among w i s)
       = trace s ++ [EvMessages base; EvFetch (chat_request s)] ++ body
           ++ [EvRead None; EvMessages base] ++ post
       /\ message_values body = [] /\ message_values post = [].
Proof.
  intros base.
  destruct (handleSubmit_among_stream w i s _ Hacc Hreply Hothers)
    as (body & rt & Hv & Hnd & post & Ht & Hp & Hm).
  cbn [fragments ending] in *. fold base in Ht, Hm, Hv.
  apply blank_nonblank in Hblank.
  rewrite (contents_blank fs []) in Ht, Hm, Hv by exact Hblank.
  unfold completed in Ht, Hm. cbn [last] in Ht, Hm.
  split; [exact Hm |]. split.
  - intros rt'. unfold base. apply map_last_assistant_user. reflexivity.
  - exists body, post. split; [exact Ht |]. split; [exact Hv | exact Hp].
Qed.

Lemma handleSubmit_blank_stream_when_undisturbed_witness :
  messages (handleSubmit_among Samples.silent_world (Scenes.refreshes Samples.silent_world) Samples.fresh)
  = messages Samples.fresh ++ [userMessage Samples.fresh].
Proof.
  exact (proj1 (handleSubmit_blank_stream_when_undisturbed
                  Samples.silent_world (Scenes.refreshes Samples.silent_world) Samples.fresh
                  [lit " "; []; lit "  "]
                  fresh_accepts silent_reply silent_blank
                  (refreshes_undisturbed Samples.silent_world))).
Defined.

(** X4.  When no step that another handler takes while [handleSubmit] is
    suspended touches the conversation, [handleSubmit] never removes or
    rewrites a message that was already in the list: the earlier list is a prefix of the
    new one, for every state and every outcome.  An accepted submission then
    adds exactly one user message and at most two assistant messages. *)
Theorem handleSubmit_keeps_history_when_undisturbed (w : world)
    (i : interleaving) (s : state) (Hothers : undisturbed i) :
  messages s `prefix_of` messages (handleSubmit_among w i s)
  /\ (accepts s ->
      length (filter (fun m => role m = user) (messages (handleSubmit_among w i s)))
      = S (length (filter (fun m => role m = user) (messages s)))
      /\ (length (messages s) + 1 <= length (messages (handleSubmit_among w i s))
          <= length (messages s) + 3)%nat).
Proof.
  assert (Hcase : accepts s \/ (blank (input s) \/ isLoading s = true)).
  { unfold accepts. destruct (isLoading s); [right; right; reflexivity |].
    destruct (nonblank (input s)) eqn:Hn.
    - left. split; [apply not_blank_nonblank; exact Hn | reflexivity].
    - right. left. apply blank_nonblank. exact Hn. }
  assert (Hadd : accepts s ->
                 length (filter (fun m => role m = user)
                           (messages (handleSubmit_among w i s)))
                 = S (length (filter (fun m => role m = user) (messages s)))
                 /\ (length (messages s) + 1
                     <= length (messages (handleSubmit_among w i s))
                     <= length (messages s) + 3)%nat).
  { intros Hacc.
    destruct (handleSubmit_among_added w i s Hacc Hothers)
      as (extra & -> & Hrole & Hlen).
    rewrite filter_app, filter_cons_True by reflexivity.
    assert (Hnone : filter (fun m => role m = user) extra = []).
    { clear Hlen. induction Hrole as [| m l Hm _ IH]; [reflexivity |].
      rewrite filter_cons_False by (rewrite Hm; discriminate). exact IH. }
    rewrite Hnone, !length_app. cbn [length]. lia. }
  split; [| exact Hadd].
  destruct Hcase as [Hacc | Hrej].
  - destruct (handleSubmit_among_added w i s Hacc Hothers) as (extra & -> & _).
    eexists. reflexivity.
  - rewrite (handleSubmit_among_rejects w i s Hrej). reflexivity.
Qed.

Lemma handleSubmit_keeps_history_when_undisturbed_witness :
  length (filter (fun m => role m = user)
            (messages (handleSubmit_among Samples.quiet_world
                         (Scenes.refreshes Samples.quiet_world) Samples.fresh)))
  = S (length (filter (fun m => role m = user) (messages Samples.fresh))).
Proof.
  exact (proj1 (proj2 (handleSubmit_keeps_history_when_undisturbed
                         Samples.quiet_world (Scenes.refreshes Samples.quiet_world)
                         Samples.fresh
                         (refreshes_undisturbed Samples.quiet_world))
                  fresh_accepts)).
Defined.

Lemma read_loop_among_result (others : nat -> list (state -> state))
    (fin : stream_end) :
  forall (chunks : list jsstring) (k : nat) (acc : jsstring) (added : bool)
         (s : state),
    (read_loop_among others k chunks fin acc added s).1 = loop_result fin.
Proof.
  induction chunks as [| value rest IH]; intros k acc added s;
    cbn [read_loop_among].
  - destruct fin; reflexivity.
  - destruct (negb added && truthy (trim (acc ++ value))); [apply IH |].
    destruct added; apply IH.
Qed.

Lemma stamped_last (rt : Z) (l : list Message) (m : Message) :
  last (map_last_assistant (with_responseTime rt) l) = Some m ->
  role m = assistant -> responseTime m = Some rt.
Proof.
  destruct l as [| x l' _] using rev_ind; [discriminate |].
  rewrite map_last_assistant_snoc, last_snoc. intros [= <-] Hr.
  destruct (bool_decide (role x = assistant)) eqn:Hx; [reflexivity |].
  apply bool_decide_eq_false in Hx. contradiction.
Qed.

(** A stream that completes: the last update of the message list attaches
    the difference of the readings taken when the response arrives and at
    submission, whatever the other handlers do. *)
Lemma handleSubmit_among_completed (w : world) (i : interleaving) (s : state)
    (fs : list jsstring) :
  accepts s ->
  chat_reply w s = Resolved true (Some {| fragments := fs; ending := StreamDone |}) ->
  exists l,
    messages (handleSubmit_among w i s)
    = map_last_assistant
        (with_responseTime
           (now w (ticks (response_arrives i s)) - now w (ticks s))) l.
Proof.
  intros Hacc Hreply.
  rewrite (handleSubmit_among_accepts w i s Hacc).
  unfold submit_try_among, fetch. fold (chat_request s).
  rewrite submitted_reply, Hreply. fold (response_arrives i s).
  cbn [negb fragments ending]. unfold Date_now.
  cbv iota beta zeta.
  match goal with
  | |- context [read_loop_among ?o ?k ?c ?f ?a ?b ?s3] =>
      pose proof (read_loop_among_result o f c k a b s3) as Hres;
      destruct (read_loop_among o k c f a b s3) as [res s4]
  end.
  cbn [fst loop_result] in Hres. subst res.
  match goal with
  | |- context [fetchThreads w ?s5] =>
      destruct (fetchThreads_frame w s5) as (Hm & _)
  end.
  cbn [setIsLoading messages]. rewrite Hm.
  exists (messages s4). reflexivity.
Qed.

(** X5.  The response time that [handleSubmit] attaches is fixed before the
    first chunk is read: it is the reading of the clock taken when the
    response arrives minus the reading taken at submission.  Whatever the
    other handlers do while the request is awaited and while the chunks are
    read (other submissions, which read the clock, included), when the stream
    completes the last message of the list, if it is an assistant message,
    carries that figure: the readings of the clock made during the request
    come before the second reading, those made during the reads after it.
    When the other handlers leave the conversation alone and the text is
    visible, that message is the answer. *)
Theorem handleSubmit_response_time_before_reads (w : world) (i : interleaving)
    (s : state) (fs : list jsstring)
    (Hacc : accepts s)
    (Hreply : chat_reply w s
              = Resolved true (Some {| fragments := fs; ending := StreamDone |})) :
  let rt := now w (ticks (response_arrives i s)) - now w (ticks s) in
  (forall m,
     last (messages (handleSubmit_among w i s)) = Some m ->
     role m = assistant ->
     responseTime m = Some rt)
  /\ (while_fetching i = [] -> rt = now w (S (ticks s)) - now w (ticks s))
  /\ (~ blank (concat fs) ->
      undisturbed i ->
      messages (handleSubmit_among w i s)
      = messages s
          ++ [userMessage s;
              {| role := assistant; content := concat fs;
                 responseTime := Some rt |}]).
Proof.
  intros rt.
  assert (Hstamp : forall m,
             last (messages (handleSubmit_among w i s)) = Some m ->
             role m = assistant ->
             responseTime m = Some rt).
  { destruct (handleSubmit_among_completed w i s fs Hacc Hreply) as (l & ->).
    intros m. apply stamped_last. }
  split; [exact Hstamp |]. split.
  - intros Hfetch. unfold rt, response_arrives. rewrite Hfetch. reflexivity.
  - intros Htext Hothers.
    destruct (handleSubmit_among_stream w i s _ Hacc Hreply Hothers)
      as (body & rt' & _ & _ & post & _ & _ & Hm).
    cbn [fragments ending] in Hm.
    unfold completed in Hm. rewrite contents_last in Hm by reflexivity.
    cbn [app] in Hm. apply not_blank_nonblank in Htext. rewrite Htext in Hm.
    specialize (Hstamp {| role := assistant; content := concat fs;
                          responseTime := Some rt' |}).
    rewrite Hm, last_snoc in Hstamp.
    specialize (Hstamp eq_refl eq_refl). cbn [responseTime] in Hstamp.
    rewrite Hm, Hstamp, <- app_assoc. reflexivity.
Qed.

(** Two runs in which another question is asked meanwhile.  Asked while the
    chunks are read, it reads the clock twice after the second reading of
    this request, which keeps its figure of 250; asked while the request is
    awaited, it reads the clock before, and the figure is 750. *)
Example handleSubmit_second_question :
  ticks (handleSubmit_among Samples.quiet_world
           (Scenes.second_question Samples.quiet_world) Samples.fresh) = 4%nat
  /\ last (messages (handleSubmit_among Samples.quiet_world
                       (Scenes.second_question Samples.quiet_world) Samples.fresh))
     = Some {| role := assistant; content := lit " Athens";
               responseTime := Some 250 |}
  /\ ticks (handleSubmit_among Samples.quiet_world
              (Scenes.early_question Samples.quiet_world) Samples.fresh) = 4%nat
  /\ last (messages (handleSubmit_among Samples.quiet_world
                       (Scenes.early_question Samples.quiet_world) Samples.fresh))
     = Some {| role := assistant; content := lit " Athens";
               responseTime := Some 750 |}.
Proof. repeat split; vm_compute; reflexivity. Qed.

Lemma second_question_last :
  last (messages (handleSubmit_among Samples.quiet_world
                    (Scenes.second_question Samples.quiet_world) Samples.fresh))
  = Some {| role := assistant; content := lit " Athens"; responseTime := Some 250 |}.
Proof. vm_compute. reflexivity. Defined.

Lemma handleSubmit_response_time_before_reads_witness :
  responseTime {| role := assistant; content := lit " Athens";
                  responseTime := Some 250 |}
  = Some (now Samples.quiet_world
            (ticks (response_arrives (Scenes.second_question Samples.quiet_world)
                      Samples.fresh))
          - now Samples.quiet_world (ticks Samples.fresh)).
Proof.
  exact (proj1 (handleSubmit_response_time_before_reads
                  Samples.quiet_world (Scenes.second_question Samples.quiet_world)
                  Samples.fresh [lit " "; lit "Ath"; lit "ens"]
                  fresh_accepts quiet_reply)
           _ second_question_last eq_refl).
Defined.

(** ** What the handler's own updates do to whatever list is current *)

Lemma map_last_assistant_lookup (patch : Message -> Message) (l : list Message)
    (i : nat) (m : Message) :
  l !! i = Some m ->
  map_last_assistant patch l !! i
  = Some (if bool_decide (S i = length l /\ role m = assistant)
          then patch m else m).
Proof.
  intros Hi. unfold map_last_assistant. rewrite list_lookup_imap, Hi.
  cbn [fmap option_fmap option_map]. f_equal.
  destruct (Z.of_nat i =? Z.of_nat (length l) - 1) eqn:Hlast.
  - apply Z.eqb_eq in Hlast.
    destruct (bool_decide (role m = assistant)) eqn:Hr; cbn [andb].
    + apply bool_decide_eq_true in Hr.
      rewrite bool_decide_eq_true_2; [reflexivity | split; [lia | exact Hr]].
    + apply bool_decide_eq_false in Hr.
      rewrite bool_decide_eq_false_2; [reflexivity | tauto].
  - apply Z.eqb_neq in Hlast. cbn [andb].
    rewrite bool_decide_eq_false_2; [reflexivity |]. intros [Hl _]. lia.
Qed.

Lemma map_last_assistant_keeps (patch : Message -> Message) (l : list Message)
    (m : Message) :
  last l = Some m -> role m = user -> map_last_assistant patch l = l.
Proof.
  intros Hlast Hrole.
  destruct l as [| x l' _] using rev_ind; [discriminate |].
  rewrite last_snoc in Hlast. injection Hlast as ->.
  apply map_last_assistant_user. exact Hrole.
Qed.

(** X19.  The two patching updates of [handleSubmit] (the content of the
    streamed answer, the response time) keep the length of the list they are
    applied to and every message of it except possibly the last, which is
    patched exactly when its role is assistant.  This holds of whatever list
    is current when the update runs, also one that another handler has put
    there in the meantime. *)
Theorem map_last_assistant_frame (patch : Message -> Message) (l : list Message) :
  length (map_last_assistant patch l) = length l
  /\ (forall (i : nat) (m : Message),
        l !! i = Some m ->
        map_last_assistant patch l !! i
        = Some (if bool_decide (S i = length l /\ role m = assistant)
                then patch m else m))
  /\ (forall m, last l = Some m -> role m = user -> map_last_assistant patch l = l).
Proof.
  split; [apply length_imap |]. split; [apply map_last_assistant_lookup |].
  apply map_last_assistant_keeps.
Qed.

(** X20.  A request that fails before its body is read, among any steps of
    other handlers: the [catch] block appends the fixed message to the list
    as it is when the response arrives, sends the detail to the console only,
    and the loading flag is cleared. *)
Theorem handleSubmit_failure_among_others (w : world) (i : interleaving)
    (s : state) (detail : jsstring)
    (Hacc : accepts s)
    (Hfail : failure_detail (chat_reply w s) = Some detail) :
  exists rt,
    messages (handleSubmit_among w i s)
    = messages (response_arrives i s) ++ [apology rt]
    /\ trace (handleSubmit_among w i s)
       = trace (response_arrives i s)
           ++ [EvConsole (lit "Error:") detail;
               EvMessages (messages (response_arrives i s) ++ [apology rt])]
    /\ isLoading (handleSubmit_among w i s) = false.
Proof.
  rewrite (handleSubmit_among_accepts w i s Hacc).
  unfold submit_try_among, fetch. fold (chat_request s). rewrite submitted_reply.
  fold (response_arrives i s).
  destruct (chat_reply w s) as [err | [|] [reader |]]; cbn in Hfail;
    try discriminate; injection Hfail as <-; eexists;
    unfold submit_catch, console_error, Date_now;
    cbn [negb setIsLoading setMessages log messages trace isLoading];
    rewrite <- ?app_assoc; repeat split; reflexivity.
Qed.

Lemma handleSubmit_failure_among_others_witness :
  exists rt,
    messages (handleSubmit_among Samples.offline_world
                (Scenes.early_click Scenes.answered) Samples.fresh)
    = messages (response_arrives (Scenes.early_click Scenes.answered) Samples.fresh)
        ++ [apology rt].
Proof.
  destruct (handleSubmit_failure_among_others
              Samples.offline_world (Scenes.early_click Scenes.answered)
              Samples.fresh (lit "TypeError: Failed to fetch")
              fresh_accepts offline_failure) as (rt & Hm & _).
  exists rt. exact Hm.
Defined.

(** ** A thread loaded while the answer is streamed *)

Lemma map_last_assistant_again (c1 c2 : jsstring) (l : list Message) :
  map_last_assistant (with_content c2) (map_last_assistant (with_content c1) l)
  = map_last_assistant (with_content c2) l.
Proof.
  destruct l as [| x l' _] using rev_ind; [reflexivity |].
  rewrite !map_last_assistant_snoc.
  destruct (bool_decide (role x = assistant)) eqn:Hx.
  - cbn [with_content role]. rewrite Hx. reflexivity.
  - rewrite Hx. reflexivity.
Qed.

(** The loop once the assistant message has been added, on whatever list is
    current, when no step is taken from the read number [k] on. *)
Lemma read_loop_among_patches (others : nat -> list (state -> state))
    (fin : stream_end) :
  forall (chunks : list jsstring) (k : nat) (acc : jsstring) (s : state),
    (forall n, (k <= n)%nat -> others n = []) ->
    exists s',
      read_loop_among others k chunks fin acc true s = (loop_result fin, s')
      /\ messages s'
         = match chunks with
           | [] => messages s
           | _ => map_last_assistant (with_content (acc ++ concat chunks))
                    (messages s)
           end
      /\ threadId s' = threadId s.
Proof.
  induction chunks as [| value rest IH]; intros k acc s Hquiet;
    cbn [read_loop_among]; rewrite (Hquiet k) by lia; cbn [during foldl].
  - destruct fin; eexists; repeat split; reflexivity.
  - cbn [negb andb].
    destruct (IH (S k) (acc ++ value)
                (setMessages (map_last_assistant (with_content (acc ++ value)))
                   (log (EvRead (Some value)) s)))
      as (s' & Hrun & Hm & Hid).
    { intros n Hn. apply Hquiet. lia. }
    exists s'. split; [exact Hrun |]. split; [| exact Hid].
    rewrite Hm. cbn [setMessages log messages concat].
    destruct rest as [| value' rest'].
    + cbn [concat]. rewrite app_nil_r. reflexivity.
    + rewrite map_last_assistant_again, app_assoc. reflexivity.
Qed.

(** The loop when a thread is loaded while the read number [k + length pre]
    is awaited, the text read before being visible. *)
Lemma read_loop_among_loaded (others : nat -> list (state -> state))
    (base data : list Message) (id0 : jsstring) (fin : stream_end)
    (post : list jsstring) :
  forall (pre : list jsstring) (k : nat) (acc : jsstring) (added : bool)
         (s : state),
    others (k + length pre)%nat
    = [loadThreadMessages (Resolved true (JsonValue data)) id0] ->
    (forall n, n <> (k + length pre)%nat -> others n = []) ->
    (added = false -> nonblank acc = false) ->
    nonblank (acc ++ concat pre) = true ->
    exists s',
      read_loop_among others k (pre ++ post) fin acc added s = (loop_result fin, s')
      /\ messages s'
         = match post with
           | [] => data
           | _ => map_last_assistant
                    (with_content (acc ++ concat (pre ++ post))) data
           end
      /\ threadId s' = id0.
Proof.
  induction pre as [| value pre' IH]; intros k acc added s Hload Hquiet Hacc Hshown.
  - cbn [length] in Hload, Hquiet. rewrite Nat.add_0_r in Hload, Hquiet.
    cbn [concat] in Hshown. rewrite app_nil_r in Hshown.
    destruct added; [| rewrite (Hacc eq_refl) in Hshown; discriminate].
    cbn [app].
    destruct post as [| value rest].
    + cbn [read_loop_among]. rewrite Hload.
      destruct fin; eexists; repeat split; reflexivity.
    + cbn [read_loop_among negb andb]. rewrite Hload. cbn [during foldl].
      match goal with
      | |- context [read_loop_among others (S k) rest fin ?a true ?s1] =>
          destruct (read_loop_among_patches others fin rest (S k) a s1)
            as (s' & Hrun & Hm & Hid)
      end.
      { intros n Hn. apply Hquiet. lia. }
      exists s'. split; [exact Hrun |]. split; [| rewrite Hid; reflexivity].
      rewrite Hm. cbn [setMessages log messages loadThreadMessages
                       setChatStarted setThreadId concat].
      destruct rest as [| value' rest'].
      * cbn [concat]. rewrite app_nil_r. reflexivity.
      * rewrite map_last_assistant_again, app_assoc. reflexivity.
  - cbn [length] in Hload, Hquiet. cbn [concat] in Hshown.
    rewrite app_assoc in Hshown.
    change ((value :: pre') ++ post) with (value :: (pre' ++ post)).
    cbn [read_loop_among]. rewrite (Hquiet k) by lia. cbn [during foldl].
    fold (nonblank (acc ++ value)).
    assert (Hnext : forall added' s1,
               (added' = false -> nonblank (acc ++ value) = false) ->
               exists s',
                 read_loop_among others (S k) (pre' ++ post) fin (acc ++ value)
                   added' s1 = (loop_result fin, s')
                 /\ messages s'
                    = match post with
                      | [] => data
                      | _ => map_last_assistant
                               (with_content
                                  (acc ++ concat (value :: pre' ++ post))) data
                      end
                 /\ threadId s' = id0).
    { intros added' s1 Hadded'.
      destruct (IH (S k) (acc ++ value) added' s1) as (s' & Hrun & Hm & Hid).
      - rewrite <- Hload. f_equal. lia.
      - intros n Hn. apply Hquiet. lia.
      - exact Hadded'.
      - exact Hshown.
      - exists s'. split; [exact Hrun |]. split; [| exact Hid].
        rewrite Hm. cbn [concat]. rewrite <- !app_assoc. reflexivity. }
    destruct added; cbn [negb andb].
    + apply Hnext. discriminate.
    + destruct (nonblank (acc ++ value)) eqn:Hnb.
      * apply Hnext. discriminate.
      * apply Hnext. intros _. reflexivity.
Qed.

(** X21.  A thread loaded while the answer is streamed receives the rest of
    it.  The user clicks a row; the messages of that thread arrive after the
    chunks [pre], which made the answer visible, and before the chunks
    [post].  When the stream completes, the page shows the loaded thread, and
    the list is the loaded one with the later updates of [handleSubmit]
    applied to it: unchanged when its last message is the user's; when its
    last message is an assistant message and a chunk was still to come, that
    message now has the whole streamed text as content and the response time
    of the request.  The user's question and the answer streamed so far are
    no longer in the list. *)
Theorem handleSubmit_row_loaded_midstream (w : world) (s : state)
    (pre post : list jsstring) (data : list Message) (id0 : jsstring)
    (Hacc : accepts s)
    (Hreply : chat_reply w s
              = Resolved true
                  (Some {| fragments := pre ++ post; ending := StreamDone |}))
    (Hshown : ~ blank (concat pre)) :
  let rt := now w (S (ticks s)) - now w (ticks s) in
  let after := handleSubmit_among w (row_loaded data id0 (length pre)) s in
  threadId after = id0
  /\ messages after
     = map_last_assistant (with_responseTime rt)
         match post with
         | [] => data
         | _ => map_last_assistant (with_content (concat (pre ++ post))) data
         end
  /\ (forall m, last data = Some m -> role m = user -> messages after = data)
  /\ (forall front m,
        data = front ++ [m] -> role m = assistant -> post <> [] ->
        messages after
        = front ++ [{| role := assistant; content := concat (pre ++ post);
                       responseTime := Some rt |}]).
Proof.
  intros rt after.
  assert (Hrun : threadId after = id0
                 /\ messages after
                    = map_last_assistant (with_responseTime rt)
                        match post with
                        | [] => data
                        | _ => map_last_assistant
                                 (with_content (concat (pre ++ post))) data
                        end).
  { unfold after. rewrite (handleSubmit_among_accepts w _ s Hacc).
    unfold submit_try_among, fetch. fold (chat_request s).
    rewrite submitted_reply, Hreply.
    cbn [negb fragments ending row_loaded while_fetching while_reading
         during foldl].
    unfold Date_now. cbv iota beta zeta.
    match goal with
    | |- context [read_loop_among ?o 0 _ _ [] false ?s3] =>
        destruct (read_loop_among_loaded o (messages s ++ [userMessage s])
                    data id0 StreamDone post pre 0%nat [] false s3)
          as (s4 & Hloop & Hm4 & Hid4)
    end.
    - cbn [Nat.add]. rewrite Nat.eqb_refl. reflexivity.
    - intros n Hn. cbn [Nat.add] in Hn.
      destruct (n =? length pre)%nat eqn:He; [| reflexivity].
      apply Nat.eqb_eq in He. contradiction.
    - intros _. reflexivity.
    - apply not_blank_nonblank. exact Hshown.
    - rewrite Hloop. cbn [loop_result]. rewrite fetchThreads_eq.
      cbn [setIsLoading setMessages log messages threadId submitted ticks].
      rewrite Hm4, Hid4. split; reflexivity. }
  destruct Hrun as [Hid Hm]. split; [exact Hid |]. split; [exact Hm |]. split.
  - intros m Hlast Hrole. rewrite Hm.
    destruct post as [| v rest];
      rewrite !(map_last_assistant_keeps _ data m Hlast Hrole); reflexivity.
  - intros front m -> Hrole Hpost. rewrite Hm.
    destruct post as [| v rest]; [congruence |].
    rewrite !map_last_assistant_snoc.
    rewrite (bool_decide_eq_true_2 _ Hrole). cbn [with_content role].
    rewrite (bool_decide_eq_true_2 _ Hrole).
    unfold with_responseTime, with_content. cbn [role content].
    rewrite Hrole. reflexivity.
Qed.

Lemma quiet_reply_split :
  chat_reply Samples.quiet_world Samples.fresh
  = Resolved true
      (Some {| fragments := [lit " "; lit "Ath"] ++ [lit "ens"];
               ending := StreamDone |}).
Proof. reflexivity. Defined.

Lemma quiet_shown : ~ blank (concat [lit " "; lit "Ath"]).
Proof.
  intros Hb. apply blank_nonblank in Hb. vm_compute in Hb. discriminate.
Defined.

Lemma handleSubmit_row_loaded_midstream_witness :
  threadId (handleSubmit_among Samples.quiet_world
              (row_loaded Scenes.answered (lit "t9")
                 (length [lit " "; lit "Ath"]))
              Samples.fresh)
  = lit "t9".
Proof.
  exact (proj1 (handleSubmit_row_loaded_midstream
                  Samples.quiet_world Samples.fresh
                  [lit " "; lit "Ath"] [lit "ens"] Scenes.answered (lit "t9")
                  fresh_accepts quiet_reply_split quiet_shown)).
Defined.

(** ** The first steps of a submission, whatever happens next *)

Lemma during_extends (steps : list (state -> state)) :
  Forall extends_trace steps ->
  forall s, exists evs, trace (during steps s) = trace s ++ evs.
Proof.
  induction 1 as [| step steps He _ IH]; intros s.
  - exists []. cbn. rewrite app_nil_r. reflexivity.
  - cbn [during foldl]. fold (during steps (step s)).
    destruct (He s) as (ev1 & Ht). destruct (IH (step s)) as (evs & Ht').
    exists (ev1 ++ evs). rewrite Ht', Ht, app_assoc. reflexivity.
Qed.

Lemma read_loop_among_extends (others : nat -> list (state -> state))
    (fin : stream_end) :
  (forall k, Forall extends_trace (others k)) ->
  forall (chunks : list jsstring) (k : nat) (acc : jsstring) (added : bool)
         (s : state),
    exists evs,
      trace (read_loop_among others k chunks fin acc added s).2 = trace s ++ evs.
Proof.
  intros Hothers.
  induction chunks as [| value rest IH]; intros k acc added s;
    destruct (during_extends (others k) (Hothers k) s) as (ev0 & Ht0);
    cbn [read_loop_among].
  - destruct fin; cbn [snd log trace]; rewrite Ht0, <- app_assoc;
      eexists; reflexivity.
  - assert (Hnext : forall added' s1 ev1,
               trace s1 = trace s ++ ev1 ->
               exists evs,
                 trace (read_loop_among others (S k) rest fin (acc ++ value)
                          added' s1).2 = trace s ++ evs).
    { intros added' s1 ev1 Ht1.
      destruct (IH (S k) (acc ++ value) added' s1) as (evs & Ht).
      exists (ev1 ++ evs). rewrite Ht, Ht1, app_assoc. reflexivity. }
    destruct (negb added && truthy (trim (acc ++ value))).
    + eapply Hnext. cbn [setMessages log trace]. rewrite Ht0, <- !app_assoc.
      reflexivity.
    + destruct added.
      * eapply Hnext. cbn [setMessages log trace]. rewrite Ht0, <- !app_assoc.
        reflexivity.
      * eapply Hnext. cbn [log trace]. rewrite Ht0, <- !app_assoc. reflexivity.
Qed.

(** X22.  Whatever the other handlers do during its waits (they only add to
    what is observed), an accepted submission begins by appending the user's
    message to the list it finds and by sending POST /chat with the text and
    the thread id of the render it was started from: these are the first two
    things observed of the run, before any step of another handler and before
    any assistant content.  The run ends with the loading flag cleared. *)
Theorem handleSubmit_first_steps_among_others (w : world) (i : interleaving)
    (s : state)
    (Hacc : accepts s)
    (Hfetch : Forall extends_trace (while_fetching i))
    (Hreads : forall k, Forall extends_trace (while_reading i k)) :
  (exists evs,
     trace (handleSubmit_among w i s)
     = trace s
         ++ EvMessages (messages s ++ [userMessage s])
         :: EvFetch (PostChat (input s) (threadId s))
         :: evs)
  /\ isLoading (handleSubmit_among w i s) = false.
Proof.
  rewrite (handleSubmit_among_accepts w i s Hacc).
  split; [| reflexivity].
  unfold submit_try_among, fetch. fold (chat_request s). rewrite submitted_reply.
  fold (response_arrives i s).
  destruct (during_extends _ Hfetch (log (EvFetch (chat_request s)) (submitted s)))
    as (ev0 & Ht0).
  fold (response_arrives i s) in Ht0.
  assert (Hstart : trace (response_arrives i s)
                   = trace s
                       ++ EvMessages (messages s ++ [userMessage s])
                       :: EvFetch (PostChat (input s) (threadId s)) :: ev0).
  { rewrite Ht0. cbn [log trace submitted]. rewrite <- !app_assoc. reflexivity. }
  set (ra := response_arrives i s) in *.
  assert (Hcatch : forall err st s1 ev1,
             trace s1 = trace ra ++ ev1 ->
             exists evs,
               trace (setIsLoading false (submit_catch w st err s1))
               = trace s
                   ++ EvMessages (messages s ++ [userMessage s])
                   :: EvFetch (PostChat (input s) (threadId s)) :: evs).
  { intros err st s1 ev1 Ht1. unfold submit_catch, console_error, Date_now.
    cbn [setIsLoading setMessages log trace]. rewrite Ht1, Hstart.
    rewrite <- !app_assoc. cbn [app]. eexists. reflexivity. }
  destruct (chat_reply w s) as [err | ok [reader |]].
  - apply (Hcatch err _ ra []). rewrite app_nil_r. reflexivity.
  - unfold Date_now. cbv iota beta zeta.
    destruct ok; cbn [negb].
    + match goal with
      | |- context [read_loop_among ?o 0 ?c ?f [] false ?s3] =>
          destruct (read_loop_among_extends o f Hreads c 0%nat [] false s3)
            as (ev1 & Ht1);
          destruct (read_loop_among o 0 c f [] false s3) as [[err |] s4]
      end; cbn [snd trace] in Ht1.
      * apply (Hcatch err _ s4 ev1). exact Ht1.
      * rewrite fetchThreads_eq. cbn [setIsLoading setMessages log trace].
        rewrite Ht1, Hstart. rewrite <- !app_assoc. cbn [app].
        eexists. reflexivity.
    + eapply (Hcatch _ _ _ []). cbn [trace]. rewrite app_nil_r. reflexivity.
  - unfold Date_now. cbv iota beta zeta.
    destruct ok; cbn [negb];
      eapply (Hcatch _ _ _ []); cbn [trace]; rewrite app_nil_r; reflexivity.
Qed.

Lemma loaded_extends (reply : fetch_result (json (list Message)))
    (id0 : jsstring) :
  extends_trace (loadThreadMessages reply id0).
Proof.
  intros s. unfold loadThreadMessages.
  destruct reply as [err | [|] [err | data]];
    try (exists []; rewrite app_nil_r; reflexivity);
    eexists [_]; reflexivity.
Defined.

Lemma handleSubmit_first_steps_among_others_witness :
  isLoading (handleSubmit_among Samples.quiet_world
               (Scenes.row_click Scenes.answered 2) Samples.fresh)
  = false.
Proof.
  refine (proj2 (handleSubmit_first_steps_among_others
                   Samples.quiet_world (Scenes.row_click Scenes.answered 2)
                   Samples.fresh fresh_accepts _ _)).
  - constructor.
  - intros k. cbn [Scenes.row_click row_loaded while_reading].
    destruct (k =? 2)%nat; constructor; [apply loaded_extends | constructor].
Defined.

Import Backend.

(** ** The query cache never answers from an older corpus *)

Section CacheProofs.

Variable hash : text -> N.

Lemma get_corpus_version (q : text) (v : N) (now : Z) (sys : system)
    (e : QueryCacheEntry) :
  cache_consistent sys ->
  get hash q v now (cache sys) = Some e -> corpus_version e = v.
Proof.
  intros Hc. unfold get.
  destruct (cache sys !! (hash (normalize q), v)) as [e' |] eqn:He; [| discriminate].
  destruct (now <? created_at e' + ttl e'); [| discriminate].
  intros [= <-]. apply (Hc _ _ _ He).
Qed.

Lemma step_version (sys : system) (c : call) :
  version (index (step hash sys c))
  = if mutates c then (version (index sys) + 1)%N else version (index sys).
Proof.
  destruct c as [batch | path | | q now generated ttl0]; cbn; try reflexivity.
  unfold answer_query.
  destruct (get hash q _ now (cache sys)); [reflexivity |].
  destruct generated as [[ans ids] |]; reflexivity.
Qed.

Lemma step_consistent (sys : system) (c : call) :
  cache_consistent sys -> cache_consistent (step hash sys c).
Proof.
  intros Hc. destruct c as [batch | path | | q now generated ttl0]; cbn.
  1-3: intros h v e He; cbn in *; destruct (Hc h v e He) as [Hv Hle];
       split; [exact Hv | lia].
  unfold answer_query.
  destruct (get hash q _ now (cache sys)); [exact Hc |].
  destruct generated as [[ans ids] |]; [| exact Hc].
  intros h v e. cbn. unfold put.
  destruct (decide ((hash (normalize q), version (index sys)) = (h, v))) as [Hk | Hk].
  - rewrite Hk, lookup_insert_eq. intros [= <-]. cbn.
    injection Hk as _ <-. split; [reflexivity | lia].
  - rewrite lookup_insert_ne by exact Hk. apply Hc.
Qed.

Lemma run_consistent (calls : list call) :
  forall sys, cache_consistent sys -> cache_consistent (run hash sys calls).
Proof.
  induction calls as [| c rest IH]; intros sys Hc; [exact Hc |].
  change (run hash sys (c :: rest)) with (run hash (step hash sys c) rest).
  apply IH, step_consistent, Hc.
Qed.

Lemma boot_consistent : cache_consistent boot.
Proof. intros h v e He. cbn in He. rewrite lookup_empty in He. discriminate. Qed.

Lemma run_version_le (calls : list call) :
  forall sys, (version (index sys) <= version (index (run hash sys calls)))%N.
Proof.
  induction calls as [| c rest IH]; intros sys.
  - change (run hash sys []) with sys. lia.
  - change (run hash sys (c :: rest)) with (run hash (step hash sys c) rest).
    specialize (IH (step hash sys c)). rewrite step_version in IH.
    destruct (mutates c); lia.
Qed.

Lemma run_version_lt (calls : list call) :
  forall sys,
    existsb mutates calls = true ->
    (version (index sys) < version (index (run hash sys calls)))%N.
Proof.
  induction calls as [| c rest IH]; intros sys Hm; [discriminate |].
  change (run hash sys (c :: rest)) with (run hash (step hash sys c) rest).
  cbn [existsb] in Hm.
  pose proof (run_version_le rest (step hash sys c)) as Hle.
  rewrite step_version in Hle.
  destruct (mutates c) eqn:Hc.
  - lia.
  - cbn [orb] in Hm. specialize (IH (step hash sys c) Hm).
    rewrite step_version, Hc in IH. exact IH.
Qed.

End CacheProofs.

(** C1. A lookup only ever returns an entry computed against the current
    version of the index, in every state the system reaches from boot.  So
    when a query is cached at version [v] and later calls include at least
    one ingestion, deletion or flush, the index version is past [v], no
    lookup returns the entry cached at [v], and a repeat of the query is
    answered either by the generation step or from an entry computed against
    the current version. *)
Theorem stale_answer_never_returned (hash : text -> N)
    (before after : list call) (q : text) (v : N) (e : QueryCacheEntry)
    (Hcached : cache (run hash boot before) !! (hash (normalize q), v) = Some e)
    (Hmutation : existsb mutates after = true) :
  let sys := run hash (run hash boot before) after in
  (forall calls q' now e',
     cache_lookup hash q' now (run hash boot calls) = Some e' ->
     corpus_version e' = version (index (run hash boot calls)))
  /\ corpus_version e = v
  /\ (v < version (index sys))%N
  /\ (forall q' now, cache_lookup hash q' now sys <> Some e)
  /\ (forall now generated ttl0 a,
        (answer_query hash q now generated ttl0 sys).1 = Some a ->
        (exists ids, generated = Some (a, ids))
        \/ (exists e', cache_lookup hash q now sys = Some e'
                       /\ corpus_version e' = version (index sys)
                       /\ answer e' = a)).
Proof.
  intros sys.
  assert (Hfresh : forall calls q' now e',
             cache_lookup hash q' now (run hash boot calls) = Some e' ->
             corpus_version e' = version (index (run hash boot calls))).
  { intros calls q' now e' He'.
    eapply get_corpus_version; [| exact He'].
    apply run_consistent, boot_consistent. }
  pose proof (run_consistent hash before boot boot_consistent) as Hc0.
  destruct (Hc0 _ _ _ Hcached) as [Hv Hle].
  pose proof (run_version_lt hash after (run hash boot before) Hmutation) as Hlt.
  fold sys in Hlt.
  assert (Hsys : sys = run hash boot (before ++ after)).
  { unfold sys, run. rewrite foldl_app. reflexivity. }
  split; [exact Hfresh |]. split; [exact Hv |]. split; [lia |]. split.
  - intros q' now He. rewrite Hsys in He. apply Hfresh in He.
    rewrite <- Hsys in He. lia.
  - intros now generated ttl0 a Ha. unfold answer_query in Ha.
    fold (cache_lookup hash q now sys) in Ha.
    destruct (cache_lookup hash q now sys) as [e' |] eqn:He'.
    + right. exists e'. cbn in Ha. injection Ha as <-.
      split; [reflexivity |]. split; [| reflexivity].
      rewrite Hsys in He' |- *. eapply Hfresh. exact He'.
    + left. destruct generated as [[ans ids] |]; cbn in Ha; [| discriminate].
      injection Ha as ->. exists ids. reflexivity.
Qed.

Example normalize_sample :
  normalize (lit "  What IS   the capital?  ") = lit "what is the capital?".
Proof. vm_compute. reflexivity. Qed.

Lemma athens_cached :
  cache (run Samples.fingerprint boot [Samples.first_answer])
    !! (Samples.fingerprint (normalize Samples.greece), 0%N)
  = Some Samples.cached_athens.
Proof. vm_compute. reflexivity. Defined.

Lemma stale_answer_never_returned_witness :
  cache_lookup Samples.fingerprint Samples.greece 20
    (run Samples.fingerprint
       (run Samples.fingerprint boot [Samples.first_answer])
       [Samples.new_document])
  <> Some Samples.cached_athens.
Proof.
  exact (proj1 (proj2 (proj2 (proj2 (stale_answer_never_returned
                                       Samples.fingerprint [Samples.first_answer]
                                       [Samples.new_document] Samples.greece 0%N
                                       Samples.cached_athens athens_cached
                                       eq_refl))))
           Samples.greece 20).
Defined.
